(* ===== verification/_CoqProject ===== *)
-Q . S2P
Prelude.v
Binary64.v
Calendar.v
Parse.v
Csv.v
Gformat.v
Transactions.v
Scheduler.v
Ledger.v
Loader.v
Money.v
Bills.v
Accuracy.v
Invariants.v
Main.v
Console.v
