(* ===== verification/Prelude.v ===== *)
(** * A verification development of bill_intervals (src/BillIntervals.cpp)

    The program projects a bank balance over a range of days.  [GetBills]
    reads the file BillMakerList.txt: a Begin date, an End date and then
    records of six tokens each (separator, tag, number, date, amount,
    description), one per transaction of kind Once, Interval, Monthly or
    Bimonthly.  Each record is pushed at the head of one linked list per
    kind.  [main] then walks the calendar from Begin: on each day it calls
    [AddInAllOnce], [AddInAllInterval], [AddInAllMonthly] and
    [AddInAllBimonthly] (in this order), each of which traverses its list,
    updates the per-node scheduling state ([HasStarted], [Counter]), adds
    the amount of every node that fires to [Balance] and writes a line to
    Bills.csv; then it calls [AdvanceDate] and stops as soon as the new
    date equals End.

    Files of the development (in dependency order, see _CoqProject):
    - [Prelude] (this file): 16-bit [short] arithmetic with its wrap-around,
      a small result type [res] with its bind notation in [bills_scope],
      the tactics ([zlia], [zcase], [forall_inv], ...) and the hint
      databases [bills] and [bills_rw] shared by all files.
    - [Binary64] (Module [Binary64]): the [double] arithmetic the code
      uses, as Stdlib's [SpecFloat] at precision 53 and [emax] 1024
      (IEEE 754 binary64, rounding to nearest, ties to even): the
      conversion of integers, [+], [-], [*] and [/]; a closed form of the
      rounding in the normal range, exact sums of integers below [2^53].
    - [Calendar] (Module [Calendar]): the [date] record (three shorts), the
      month-length table, the leap rule [(year-2000)%4==0], [AdvanceDate]
      (lines 561-600, [None] when the C code reads the table out of bounds)
      and a day ordinal [days_of] that [AdvanceDate] increments by one on
      valid dates.
    - [Parse] (Module [Parse]): the 100-byte token buffers, signed [char]
      values, and the three parsers [StringToNums], [StringToNumber] and
      [StringToDollars] (lines 180-287) with the wrap-around of their short
      accumulators; each is related to a grammar on the token alone.
    - [Csv] (Module [Csv]): the decimal text of numbers: [operator<<] on
      shorts, and the text of an exact number of cents in the form [%g]
      gives it below 10000.00 ([print_amount]).
    - [Gformat] (Module [Gformat]): [ostream << double] in its default
      [%g] format with six significant digits, on binary64 values, and
      the closed form of its digits for values near a number of cents.
    - [Transactions] (Module [Transactions]): the four node records (lines
      64-94), their [double] Amount, and, for each kind, the body of the
      traversal loop of its AddInAll function as an instance of the
      interface class [Schedulable]; each kind's abstract firing rule over
      the days seen so far and the simulation relation showing that the
      flag and counter fields implement it.
    - [Scheduler] (Module [Scheduler]): the generic list traversal
      [add_in_all] (the four AddInAll functions, lines 610-729) with
      [Balance+=Amount] in binary64, one day's work, the loop of [main]
      (lines 159-169) as the fuel interpreter [main_loop] and as the
      transition system [loop_step], and the ledger entries of
      [PrintTransaction] (lines 602-607).
    - [Ledger] (Module [Ledger]): the spec's ledger, abstractly: per day,
      per kind, one line per node whose firing rule holds; the
      refinement of the loop's Bills.csv to that ledger, and the firing
      rules on the days of a run (pairwise distinct calendar days).
    - [Loader] (Module [Loader]): [GetBills] (lines 289-559) over the list
      of tokens of BillMakerList.txt with its six persistent buffers and
      [nResult], one definition per branch of the record dispatch, the
      [double] Amount of lines 375-376, its error values and the head
      insertion into the four lists.
    - [Money] (Module [Money]): the closed form of that [double] for a
      token of at most four dollar digits, and the proof that [ostream]
      writes it as the token's digits.
    - [Bills] (Module [Bills]): the text of Bills.csv, both doubles in
      [%g]; whole-dollar ledgers are written exactly.
    - [Accuracy] (Module [Accuracy]): doubles as rationals ([dval]), the
      error of one binary64 addition (half a unit in the last place,
      exact below the normal range), and the error of the running
      balance over a whole run.
    - [Invariants] (Module [Invariants]): the bounds of the Interval
      counter through every reachable state of the loop.
    - [Main] (Module [Main]): [main] (lines 127-178), the loader composed
      with the loop, and the spec's scenarios replayed as the text of
      Bills.csv.
    - [Console] (Module [Console]): every [std::cout] line of the program
      (parser diagnostics, the Start and End lines of [GetBills], its
      failure messages, [main]'s messages) threaded through the loader in
      a writer-and-error monad whose erasure is [Main.main].

    How the parts interact.  [Main.main] calls [Loader.GetBills], which
    calls the parsers of [Parse] and builds [Transactions] nodes; it then
    runs [Scheduler.main_loop], which calls [Calendar.AdvanceDate] and, for
    every node, the [Schedulable] operations of [Transactions].  The
    scheduler's theorems are proved against the [Schedulable] interface
    (its laws: a visit keeps the amount and description and never fails on
    a month in 1..12), and each node kind discharges it.

    Modelling choices.  C [short] values are integers [Z] kept in
    [-32768, 32767] by [to_short] after every store; [char] values are
    signed bytes.  Every [double] of the source (a node's Amount, the
    [Balance], the two columns of Bills.csv) is a binary64 value of
    Stdlib's [SpecFloat], computed with the operations the source applies
    ([Binary64.of_Z] for the casts, [dadd], [dsub], [dmul], [ddiv]);
    exact integers of cents appear only in statements ([Parse.amount_of],
    [Csv.print_amount]), never as the state.  File streams are lists of
    whitespace-free tokens; Bills.csv is the list of ledger entries
    written and their text.  Undefined behaviour of the C code that the
    model can reach (the month-length table read with a month outside
    1..12) is an explicit error value, never a silent default; the abort
    of [strcpy_s] on an over-long description is the error value
    [DescriptionTooLong], after which [main] prints nothing.

    The main loop need not terminate (an End date that is never reached),
    so it is a function with fuel.  Fuel [days_of End - days_of Begin] is
    exactly enough when both dates are valid and Begin precedes End (C1,
    C19); no fuel is enough when End is not a valid date (C6); and when End
    does not come after Begin the loop is still running after every day up
    to 31 December 32767 (C7).  The fuel interpreter is proved equivalent
    to the step relation of the loop ([Scheduler.main_loop_step_equiv]),
    so these statements are about the loop itself.  [find_dot] takes fuel
    100, the bound [i < 100] of its [while]; the other loops of the source
    are structural recursions.

    The claims (ids as in PROJECT.json):
    - main loop: termination with the exact day count (C1), the balance
      column of Bills.csv as the binary64 running sum (C2), divergence on
      an unreachable End (C6), End not after Begin (C7);
    - firing rules of the node kinds, as refinements of abstract rules:
      Interval with its short counter (C3), Monthly (C4), Bimonthly with
      the February table entry 0 (C5);
    - calendar: [AdvanceDate] is the successor on valid dates (C8) and the
      one-year cycle of the spec (C9);
    - parsers: the date format and its acceptance of longer tokens (C10),
      the dollar grammar (C11), dollars wrap-around (C12), interval
      numbers modulo 65536 (C13);
    - loader and program: independence from the uninitialised buffers
      (C14), loaded nodes meet the firing theorems' assumptions (C15),
      fail-fast Begin check (C16), an incomplete last record ignored
      (C17), the period of a loaded interval (C18), the whole run on a
      loaded file (C19), the dead [nResult == -1] test (C21), the lists in
      reverse file order (C22), an unknown tag aborts (C23), the first
      failing record's error is final whatever follows (C28), and every
      well-formed file loads completely (C35);
    - ledger: Bills.csv is the ledger of the spec's firing table over the
      days Begin..End-1 (C20), and a Once transaction fires exactly once
      when its date is in the run and never otherwise (C24); on the
      calendar days of a run ([run_days]) the Interval, Monthly and
      Bimonthly rules read as the spec's table in terms of day ordinals
      and days of month (C25, C26, C27); the whole program writes that
      table's ledger for the lists it loaded (C29); its lines are dated
      with days of the run, in calendar order (C37);
    - bounds: the counter of an Interval node with a positive [Interval]
      stays in [0, Interval) in every reachable state, so its increment
      never overflows (C30);
    - doubles and output: the amount column shows the exact amount below
      10000.00 (C31) and repeats the token's digits, [-0.00] giving [-0]
      (C32); whole-dollar ledgers below 10000.00 are written exactly,
      balances included (C33), while with cents the binary64 balance can
      drift ([Main.balance_drift]: 0.10+0.20-0.30 is written
      5.55112e-17); a file that loads prints exactly its two dates and the
      end balance (C34), and every failed load but the abort of
      [strcpy_s] ends its console with a line of the loader before
      [main]'s message (C36); in general the final balance is within
      [2^-53] times the sum of the magnitudes of the balances written of
      the exact sum of the amounts, when none overflowed (C38).

    Not modelled: opening and closing of the two streams, which carry no
    state the computation reads.  [%g] is proved to give the exact-cents
    text below 10000.00 and evaluated on concrete doubles beyond.  The
    error bound of the balance relates it to the exact sum of the stored
    doubles, not of the decimal amounts of the file (each stored amount
    is itself rounded once, [Money]).  The function prototypes (lines
    96-122) and the header comment carry no behaviour.
*)

From Stdlib Require Export ZArith Lia Ascii String.
From stdpp Require Export base list decidable.
(** [String.length] would shadow the list [length]; strings use [String.length]. *)
Abbreviation length := List.length.

Declare Scope bills_scope.
Delimit Scope bills_scope with bills.
Open Scope Z_scope.

(** ** C [short]: 16-bit two's complement *)

Definition short_min : Z := -32768.
Definition short_max : Z := 32767.

(** The value stored into a [short] lvalue: C converts modulo 2^16. *)
Definition to_short (z : Z) : Z := (z + 2 ^ 15) mod 2 ^ 16 - 2 ^ 15.

Definition in_short (z : Z) : Prop := short_min <= z <= short_max.

(** ** Results: a value or an error *)

Inductive res (E A : Type) : Type :=
| Ok (a : A)
| Err (e : E).
Arguments Ok {E A} a.
Arguments Err {E A} e.

Definition res_bind {E A B} (r : res E A) (k : A -> res E B) : res E B :=
  match r with
  | Ok a => k a
  | Err e => Err e
  end.

Notation "x <- c ;; k" := (res_bind c (fun x => k))
  (at level 100, c at next level, right associativity) : bills_scope.
Notation "'ret' x" := (Ok x) (at level 10) : bills_scope.

(** ** Tactics *)

(** Linear arithmetic with division and remainder by constants. *)
Ltac zlia := Z.to_euclidean_division_equations; lia.

(** Case on every integer comparison of the goal. *)
Ltac zcase :=
  repeat match goal with
  | |- context [Z.eqb ?a ?b] => destruct (Z.eqb_spec a b)
  | |- context [Z.ltb ?a ?b] => destruct (Z.ltb_spec a b)
  | |- context [Z.leb ?a ?b] => destruct (Z.leb_spec a b)
  | |- context [Nat.eqb ?a ?b] => destruct (Nat.eqb_spec a b)
  end.

Ltac zcase_in H :=
  repeat match type of H with
  | context [Z.eqb ?a ?b] => destruct (Z.eqb_spec a b)
  | context [Z.ltb ?a ?b] => destruct (Z.ltb_spec a b)
  | context [Z.leb ?a ?b] => destruct (Z.leb_spec a b)
  end.

Ltac invc H := inversion H; subst; clear H.

(** Split every [Forall P (x :: l)] hypothesis. *)
Ltac forall_inv :=
  repeat match goal with
  | H : Forall _ (_ :: _) |- _ =>
      let H1 := fresh "HF" in let H2 := fresh "HF" in
      inversion H as [| ? ? H1 H2]; subst; clear H
  end.

Create HintDb bills discriminated.
Create Rewrite HintDb bills_rw.

(** ** Lemmas on [short] *)

Lemma to_short_id z : in_short z -> to_short z = z.
Proof. unfold in_short, short_min, short_max, to_short. intros. zlia. Qed.

Lemma to_short_range z : in_short (to_short z).
Proof. unfold in_short, short_min, short_max, to_short. zlia. Qed.

Lemma to_short_mod z : to_short z mod 2 ^ 16 = z mod 2 ^ 16.
Proof. unfold to_short. zlia. Qed.

Lemma to_short_max_succ : to_short (short_max + 1) = short_min.
Proof. reflexivity. Qed.

#[export] Hint Resolve to_short_range : bills.
#[export] Hint Rewrite to_short_id using (unfold in_short, short_min, short_max in *; lia) : bills_rw.

(** ** Lemmas on results *)

Lemma res_bind_ok {E A B} (r : res E A) (k : A -> res E B) b :
  res_bind r k = Ok b <-> exists a, r = Ok a /\ k a = Ok b.
Proof.
  destruct r as [a|e]; simpl; split.
  - eauto.
  - intros (a' & Ha & Hk). congruence.
  - discriminate.
  - intros (a' & Ha & _). discriminate.
Qed.

Lemma res_bind_err {E A B} (r : res E A) (k : A -> res E B) e :
  r = Err e -> res_bind r k = Err e.
Proof. intros ->. reflexivity. Qed.

(** ** Iterating a partial function *)

Fixpoint iter_opt {A} (n : nat) (f : A -> option A) (a : A) : option A :=
  match n with
  | O => Some a
  | S n' => match f a with Some a' => iter_opt n' f a' | None => None end
  end.

Lemma iter_opt_add {A} (f : A -> option A) m n a :
  iter_opt (m + n) f a = match iter_opt m f a with Some b => iter_opt n f b | None => None end.
Proof.
  revert a. induction m as [|m IH]; intros a; simpl; [done|].
  destruct (f a); [apply IH | done].
Qed.

(** ** Lists *)

Lemma flat_map_ext_Forall {A B} (P : A -> Prop) (f g : A -> list B) (l : list A) :
  Forall P l -> (forall a, P a -> f a = g a) -> flat_map f l = flat_map g l.
Proof. intros Hl Hfg. induction Hl as [|a l Ha _ IH]; simpl; [done|]. rewrite Hfg, IH; done. Qed.

Lemma filter_lookup_shift {A} `{EqDecision A} (a : A) (l : list A) (x : A) k n :
  length (filter (fun t => (a :: l) !! t = Some x) (seq (S k) n))
  = length (filter (fun t => l !! t = Some x) (seq k n)).
Proof.
  revert k. induction n as [|n IH]; intros k; [done|]. cbn [seq].
  rewrite !filter_cons. cbn [lookup list_lookup].
  destruct (decide (l !! k = Some x)); simpl; rewrite IH; done.
Qed.

(** In a list without duplicates, a value occurs at one index or none. *)
Lemma count_lookup_NoDup {A} `{EqDecision A} (l : list A) (x : A) :
  NoDup l ->
  length (filter (fun t => l !! t = Some x) (seq 0 (length l))) = if bool_decide (x ∈ l) then 1%nat else 0%nat.
Proof.
  induction l as [|a l IH]; intros Hnd; [done|].
  inversion Hnd as [|? ? Ha Hnd']; subst.
  cbn [length seq]. rewrite filter_cons. cbn [lookup list_lookup].
  destruct (decide (Some a = Some x)) as [E|E]; cbn [length]; rewrite filter_lookup_shift, IH by done.
  - injection E as ->. rewrite bool_decide_false by done.
    rewrite bool_decide_true by (apply elem_of_cons; left; done). done.
  - destruct (bool_decide_reflect (x ∈ l)) as [Hx|Hx].
    + rewrite bool_decide_true by (apply elem_of_cons; right; done). done.
    + rewrite bool_decide_false by (intros Hin; apply elem_of_cons in Hin as [->|]; [apply E|]; done).
      done.
Qed.
