(* ===== verification/Binary64.v ===== *)
(** * Binary64: the C [double] as IEEE 754 binary64

    The program keeps [Amount] and [Balance] in [double]s
    (src/BillIntervals.cpp, lines 68, 76, 84, 92 and 138) and computes
    with [+], [-], [*], [/] in round-to-nearest-even.  This file takes
    the Standard Library's executable specification of IEEE 754 binary
    arithmetic ([SpecFloat], the one that specifies Rocq's primitive
    floats) at precision 53 and maximal exponent 1024, and gives it the
    semantics the later files need: in the normal range, [binary_round]
    rounds [m * 2^e] to the nearest multiple of [2^e1], ties to even,
    where [e1 = log2 m + 1 + e - 53] (the standard rounding-error model:
    an error of at most half a unit in the last place).  From it: the
    conversion of an integer below [2^53] is exact, multiplying by
    [1.0] or [-1.0] is exact, and adding doubles that hold integers is
    exact while the sum stays below [2^53]. *)

From Stdlib Require Import Floats.SpecFloat.
From S2P Require Import Prelude.
Open Scope Z_scope.

Module Binary64.

(** ** Binary64 operations *)

Definition prec : Z := 53.
Definition emax : Z := 1024.

Abbreviation double := spec_float.

(** [(double)z] for an integer [z]. *)
Definition of_Z (z : Z) : double := binary_normalize prec emax z 0 false.

Definition dadd : double -> double -> double := SFadd prec emax.
Definition dsub : double -> double -> double := SFsub prec emax.
Definition dmul : double -> double -> double := SFmul prec emax.
Definition ddiv : double -> double -> double := SFdiv prec emax.

(** ** Rounding to nearest, ties to even, as integer arithmetic *)

(** [m / 2^k] rounded to the nearest integer, ties to even ([k > 0]);
    [m] itself when [k <= 0]. *)
Definition rne_shift (m k : Z) : Z :=
  if k <=? 0 then m else
  let q := m / 2 ^ k in
  let r := m mod 2 ^ k in
  let h := 2 ^ (k - 1) in
  if r <? h then q else if h <? r then q + 1 else if Z.even q then q else q + 1.

(** The mantissa of [m * 2^e] at exponent [e1]. *)
Definition round_at (m e e1 : Z) : Z :=
  if e <? e1 then rne_shift m (e1 - e) else m * 2 ^ (e - e1).

(** A rounded mantissa of at most [2^53] and its exponent, written in the
    canonical form of [SpecFloat]. *)
Definition canon (s : bool) (q e1 : Z) : double :=
  if q =? 2 ^ 53 then S754_finite s (2 ^ 52) (e1 + 1) else S754_finite s (Z.to_pos q) e1.

(** The same, with the overflow test of [binary_round_aux]: infinity
    when the exponent exceeds [emax - prec]. *)
Definition canon_fin (s : bool) (q e1 : Z) : double :=
  if q =? 2 ^ 53
  then (if Z.leb (e1 + 1) (emax - prec) then S754_finite s (2 ^ 52) (e1 + 1) else S754_infinity s)
  else (if Z.leb e1 (emax - prec) then S754_finite s (Z.to_pos q) e1 else S754_infinity s).

(** ** Digits and shifts *)

Lemma digits2_pos_log2 p : Zpos (digits2_pos p) = Z.log2 (Zpos p) + 1.
Proof.
  induction p as [p IH|p IH|]; cbn [digits2_pos]; [| |reflexivity];
    rewrite Pos2Z.inj_succ, IH; [rewrite Pos2Z.inj_xI, Z.log2_succ_double | rewrite Pos2Z.inj_xO, Z.log2_double];
    lia.
Qed.

Lemma Zdigits2_log2 m : 0 < m -> Zdigits2 m = Z.log2 m + 1.
Proof. destruct m as [|p|p]; intros H; [lia | apply digits2_pos_log2 | lia]. Qed.

Lemma iter_pos_nat {A} (f : A -> A) p x : SpecFloat.iter_pos f p x = Nat.iter (Pos.to_nat p) f x.
Proof.
  revert x. induction p as [p IH|p IH|]; intros x; cbn [SpecFloat.iter_pos].
  - rewrite !IH, Pos2Nat.inj_xI, <- Nat.iter_add. cbn [Nat.iter].
    replace (Pos.to_nat p + Pos.to_nat p)%nat with (2 * Pos.to_nat p)%nat by lia.
    rewrite <- (Nat.iter_succ_r (2 * Pos.to_nat p)). reflexivity.
  - rewrite !IH, Pos2Nat.inj_xO, <- Nat.iter_add. f_equal. lia.
  - reflexivity.
Qed.

Lemma shr_1_spec m r s :
  0 <= m -> shr_1 (Build_shr_record m r s) = Build_shr_record (m / 2) (Z.odd m) (r || s).
Proof.
  intros Hm. destruct m as [|[p|p|]|p]; cbn [shr_1]; [reflexivity | | | reflexivity | lia]; f_equal.
  - change (Z.pos p~1) with (2 * Z.pos p + 1). zlia.
  - change (Z.pos p~0) with (2 * Z.pos p). zlia.
Qed.

Lemma odd_mod2 x : Z.odd x = (x mod 2 =? 1).
Proof.
  rewrite (Z.div_mod x 2) at 1 by lia. rewrite Z.add_comm, Z.odd_add_mul_2.
  pose proof (Z.mod_pos_bound x 2 ltac:(lia)).
  destruct (Z.eq_dec (x mod 2) 0) as [-> | H1]; [reflexivity|].
  replace (x mod 2) with 1 by lia. reflexivity.
Qed.

(** After [k >= 1] halvings: the quotient, the last bit shifted out (the
    round bit) and whether any earlier bit was set (the sticky bit). *)
Lemma shr_iter m k :
  0 <= m -> (1 <= k)%nat ->
  Nat.iter k shr_1 (Build_shr_record m false false)
  = Build_shr_record (m / 2 ^ Z.of_nat k) (Z.odd (m / 2 ^ (Z.of_nat k - 1)))
      (negb (m mod 2 ^ (Z.of_nat k - 1) =? 0)).
Proof.
  intros Hm Hk. induction k as [|k IH]; [lia|].
  destruct k as [|k].
  - cbn [Nat.iter]. rewrite shr_1_spec by done. change (Z.of_nat 1) with 1.
    rewrite Z.sub_diag, Z.pow_0_r, Z.pow_1_r, Z.div_1_r, Z.mod_1_r. reflexivity.
  - rewrite Nat.iter_succ, IH by lia. rewrite shr_1_spec by (apply Z.div_pos; lia).
    set (j := Z.of_nat (S k)).
    assert (Ej : Z.of_nat (S (S k)) = j + 1) by lia. rewrite Ej, Z.add_simpl_r.
    assert (Hj : 1 <= j) by lia.
    assert (P : 2 ^ (j + 1) = 2 ^ j * 2) by (rewrite Z.pow_add_r; lia).
    assert (P' : 2 ^ j = 2 ^ (j - 1) * 2)
      by (rewrite <- (Z.pow_1_r 2) at 3; rewrite <- Z.pow_add_r by lia; f_equal; lia).
    assert (Hpos : 0 < 2 ^ (j - 1)) by (apply Z.pow_pos_nonneg; lia).
    assert (M : m mod 2 ^ j = m mod 2 ^ (j - 1) + 2 ^ (j - 1) * ((m / 2 ^ (j - 1)) mod 2))
      by (rewrite P'; apply Z.rem_mul_r; lia).
    rewrite P, <- Z.div_div by lia. f_equal. rewrite M, odd_mod2.
    pose proof (Z.mod_pos_bound (m / 2 ^ (j - 1)) 2 ltac:(lia)).
    pose proof (Z.mod_pos_bound m (2 ^ (j - 1)) Hpos).
    destruct (Z.eq_dec (m / 2 ^ (j - 1) mod 2) 0) as [-> | H1];
      [| replace (m / 2 ^ (j - 1) mod 2) with 1 by lia]; zcase; simpl; lia.
Qed.

Lemma shr_pos m e p :
  0 <= m ->
  shr (Build_shr_record m false false) e (Zpos p)
  = (Build_shr_record (m / 2 ^ Zpos p) (Z.odd (m / 2 ^ (Zpos p - 1)))
       (negb (m mod 2 ^ (Zpos p - 1) =? 0)), e + Zpos p).
Proof.
  intros Hm. unfold shr. rewrite iter_pos_nat, shr_iter by lia.
  rewrite positive_nat_Z. reflexivity.
Qed.

(** The location the shift records is the one [rne_shift] reads. *)
Lemma rne_shift_loc m n :
  0 <= m -> 0 < n ->
  round_nearest_even (m / 2 ^ n)
    (loc_of_shr_record (Build_shr_record (m / 2 ^ n) (Z.odd (m / 2 ^ (n - 1)))
                          (negb (m mod 2 ^ (n - 1) =? 0))))
  = rne_shift m n.
Proof.
  intros Hm Hn. unfold rne_shift. destruct (Z.leb_spec n 0) as [|_]; [lia|].
  set (h := 2 ^ (n - 1)). assert (Hh : 0 < h) by (apply Z.pow_pos_nonneg; lia).
  assert (P : 2 ^ n = h * 2) by (subst h; rewrite <- (Z.pow_1_r 2) at 3; rewrite <- Z.pow_add_r by lia; f_equal; lia).
  assert (M : m mod 2 ^ n = m mod h + h * ((m / h) mod 2)) by (rewrite P; apply Z.rem_mul_r; lia).
  rewrite M, odd_mod2.
  pose proof (Z.mod_pos_bound (m / h) 2 ltac:(lia)).
  pose proof (Z.mod_pos_bound m h Hh).
  destruct (Z.eq_dec (m / h mod 2) 0) as [E | E];
    [| replace (m / h mod 2) with 1 in * by lia]; rewrite ?E;
    destruct (Z.eqb_spec (m mod h) 0); cbn [Z.eqb negb loc_of_shr_record round_nearest_even];
    zcase; try lia; reflexivity.
Qed.

Lemma rne_shift_0 m k : k <= 0 -> rne_shift m k = m.
Proof. intros Hk. unfold rne_shift. destruct (Z.leb_spec k 0); [done | lia]. Qed.

Lemma rne_shift_mul a k : 0 <= k -> rne_shift (a * 2 ^ k) k = a.
Proof.
  intros Hk. unfold rne_shift. destruct (Z.leb_spec k 0); [replace k with 0 by lia; lia|].
  assert (0 < 2 ^ (k - 1)) by (apply Z.pow_pos_nonneg; lia).
  assert (0 < 2 ^ k) by (apply Z.pow_pos_nonneg; lia).
  rewrite Z.div_mul, Z.mod_mul by lia. zcase; lia.
Qed.

(** Rounding stays between the bounds of the quotient. *)
Lemma rne_shift_bounds m n a b :
  0 < n -> a * 2 ^ n <= m < b * 2 ^ n -> a <= rne_shift m n <= b.
Proof.
  intros Hn Hab. unfold rne_shift. destruct (Z.leb_spec n 0); [lia|].
  assert (0 < 2 ^ n) by (apply Z.pow_pos_nonneg; lia).
  assert (a <= m / 2 ^ n < b).
  { split; [apply Z.div_le_lower_bound | apply Z.div_lt_upper_bound]; lia. }
  zcase; destruct (Z.even (m / 2 ^ n)); lia.
Qed.

(** Half a unit in the last place: [|rne_shift m n * 2^n - m| <= 2^(n-1)]. *)
Lemma rne_shift_error m n :
  0 < n -> 2 * Z.abs (rne_shift m n * 2 ^ n - m) <= 2 ^ n.
Proof.
  intros Hn. unfold rne_shift. destruct (Z.leb_spec n 0); [lia|].
  assert (P : 2 ^ n = 2 ^ (n - 1) * 2)
    by (rewrite <- (Z.pow_1_r 2) at 3; rewrite <- Z.pow_add_r by lia; f_equal; lia).
  assert (0 < 2 ^ (n - 1)) by (apply Z.pow_pos_nonneg; lia).
  pose proof (Z.div_mod m (2 ^ n) ltac:(lia)). pose proof (Z.mod_pos_bound m (2 ^ n) ltac:(lia)).
  zcase; destruct (Z.even (m / 2 ^ n)); lia.
Qed.

Lemma log2_bounds m : 0 < m -> 2 ^ Z.log2 m <= m < 2 ^ (Z.log2 m + 1).
Proof. intros Hm. pose proof (Z.log2_spec m Hm) as H. unfold Z.succ in H. lia. Qed.

Lemma log2_unique' m k : 0 <= k -> 2 ^ k <= m < 2 ^ (k + 1) -> Z.log2 m = k.
Proof. intros Hk Hm. apply Z.log2_unique; [done|]. rewrite <- Z.add_1_r. done. Qed.

Lemma fexp_normal x : -1074 <= x - 53 -> fexp prec emax x = x - 53.
Proof. unfold fexp, emin, prec, emax. lia. Qed.

(** The rounding of [binary_round_aux] in the normal range: [m * 2^e]
    rounded to the nearest multiple of [2^e1], ties to even. *)
Lemma round_aux_normal sx m e :
  0 < m -> -1074 <= Z.log2 m + 1 + e - 53 -> e <= Z.log2 m + 1 + e - 53 ->
  Z.log2 m + 1 + e - 53 < 971 ->
  binary_round_aux prec emax sx m e loc_Exact
  = canon sx (rne_shift m (Z.log2 m + 1 + e - 53 - e)) (Z.log2 m + 1 + e - 53).
Proof.
  intros Hm Hlo Hn Hhi. set (e1 := Z.log2 m + 1 + e - 53) in *.
  assert (He1 : e1 = Z.log2 m + 1 + e - 53) by reflexivity. clearbody e1.
  pose proof (log2_bounds m Hm) as Bm.
  unfold binary_round_aux, shr_fexp. rewrite Zdigits2_log2 by lia.
  rewrite (fexp_normal (Z.log2 m + 1 + e)) by lia. rewrite <- He1. cbn [shr_record_of_loc].
  destruct (Z.eq_dec e1 e) as [Eq | Ne].
  - rewrite Eq, Z.sub_diag. cbn [shr loc_of_shr_record round_nearest_even shr_m].
    rewrite Zdigits2_log2, fexp_normal by lia.
    replace (Z.log2 m + 1 + e - 53 - e) with 0 by lia. cbn [shr shr_m].
    assert (L : Z.log2 m = 52) by lia. rewrite L in Bm. cbn in Bm.
    unfold canon. rewrite rne_shift_0 by lia.
    destruct (Z.eqb_spec m (2 ^ 53)) as [E|_]; [rewrite E in Bm; cbn in Bm; lia|].
    destruct m as [|p|p]; try lia.
    replace (Z.leb e (emax - prec)) with true by (symmetry; apply Z.leb_le; unfold emax, prec; lia).
    rewrite <- Eq. reflexivity.
  - replace (e1 - e) with (Zpos (Z.to_pos (e1 - e))) by lia.
    rewrite shr_pos by lia. cbn [shr_m loc_of_shr_record].
    rewrite rne_shift_loc by lia.
    replace (e + Zpos (Z.to_pos (e1 - e))) with e1 by lia.
    replace (Zpos (Z.to_pos (e1 - e))) with (e1 - e) by lia.
    set (q := rne_shift m (e1 - e)).
    assert (Bq : 2 ^ 52 <= q <= 2 ^ 53).
    { apply rne_shift_bounds; [lia|]. rewrite <- !Z.pow_add_r by lia.
      split; [apply (Z.le_trans _ (2 ^ Z.log2 m)); [apply Z.pow_le_mono_r; lia | lia]|].
      apply (Z.lt_le_trans _ (2 ^ (Z.log2 m + 1))); [lia | apply Z.pow_le_mono_r; lia]. }
    unfold canon. destruct (Z.eqb_spec q (2 ^ 53)) as [Eq | Lt].
    + rewrite Eq. rewrite Zdigits2_log2 by lia. rewrite (Z.log2_pow2 53) by lia.
      rewrite fexp_normal by lia. replace (53 + 1 + e1 - 53 - e1) with (Zpos 1) by lia.
      rewrite shr_pos by lia. cbn [shr_m].
      replace (Z.leb (e1 + 1) (emax - prec)) with true by (symmetry; apply Z.leb_le; unfold emax, prec; lia).
      reflexivity.
    + rewrite Zdigits2_log2 by lia. rewrite (log2_unique' q 52) by lia.
      rewrite fexp_normal by lia. replace (52 + 1 + e1 - 53 - e1) with 0 by lia. cbn [shr shr_m].
      destruct q as [|p|p] eqn:Eq; try lia.
      replace (Z.leb e1 (emax - prec)) with true by (symmetry; apply Z.leb_le; unfold emax, prec; lia).
      reflexivity.
Qed.

(** [round_aux_normal] without the upper bound: above the largest
    exponent the result is an infinity. *)
Lemma round_aux_gen sx m e :
  0 < m -> -1074 <= Z.log2 m + 1 + e - 53 -> e <= Z.log2 m + 1 + e - 53 ->
  binary_round_aux prec emax sx m e loc_Exact
  = canon_fin sx (rne_shift m (Z.log2 m + 1 + e - 53 - e)) (Z.log2 m + 1 + e - 53).
Proof.
  intros Hm Hlo Hn. set (e1 := Z.log2 m + 1 + e - 53) in *.
  assert (He1 : e1 = Z.log2 m + 1 + e - 53) by reflexivity. clearbody e1.
  pose proof (log2_bounds m Hm) as Bm.
  unfold binary_round_aux, shr_fexp. rewrite Zdigits2_log2 by lia.
  rewrite (fexp_normal (Z.log2 m + 1 + e)) by lia. rewrite <- He1. cbn [shr_record_of_loc].
  destruct (Z.eq_dec e1 e) as [Eq | Ne].
  - rewrite Eq, Z.sub_diag. cbn [shr loc_of_shr_record round_nearest_even shr_m].
    rewrite Zdigits2_log2, fexp_normal by lia.
    replace (Z.log2 m + 1 + e - 53 - e) with 0 by lia. cbn [shr shr_m].
    assert (L : Z.log2 m = 52) by lia. rewrite L in Bm. cbn in Bm.
    unfold canon_fin. rewrite rne_shift_0 by lia.
    destruct (Z.eqb_spec m (2 ^ 53)) as [E|_]; [rewrite E in Bm; cbn in Bm; lia|].
    destruct m as [|p|p]; try lia. rewrite <- Eq. reflexivity.
  - replace (e1 - e) with (Zpos (Z.to_pos (e1 - e))) by lia.
    rewrite shr_pos by lia. cbn [shr_m loc_of_shr_record].
    rewrite rne_shift_loc by lia.
    replace (e + Zpos (Z.to_pos (e1 - e))) with e1 by lia.
    replace (Zpos (Z.to_pos (e1 - e))) with (e1 - e) by lia.
    set (q := rne_shift m (e1 - e)).
    assert (Bq : 2 ^ 52 <= q <= 2 ^ 53).
    { apply rne_shift_bounds; [lia|]. rewrite <- !Z.pow_add_r by lia.
      split; [apply (Z.le_trans _ (2 ^ Z.log2 m)); [apply Z.pow_le_mono_r; lia | lia]|].
      apply (Z.lt_le_trans _ (2 ^ (Z.log2 m + 1))); [lia | apply Z.pow_le_mono_r; lia]. }
    unfold canon_fin. destruct (Z.eqb_spec q (2 ^ 53)) as [Eq | Lt].
    + rewrite Eq. rewrite Zdigits2_log2 by lia. rewrite (Z.log2_pow2 53) by lia.
      rewrite fexp_normal by lia. replace (53 + 1 + e1 - 53 - e1) with (Zpos 1) by lia.
      rewrite shr_pos by lia. cbn [shr_m]. reflexivity.
    + rewrite Zdigits2_log2 by lia. rewrite (log2_unique' q 52) by lia.
      rewrite fexp_normal by lia. replace (52 + 1 + e1 - 53 - e1) with 0 by lia. cbn [shr shr_m].
      destruct q as [|p|p] eqn:Eq; try lia. reflexivity.
Qed.

Lemma pos_iter_xO p d : Zpos (Pos.iter xO p d) = Zpos p * 2 ^ Zpos d.
Proof.
  induction d as [|d IH] using Pos.peano_ind; [cbn; lia|].
  rewrite Pos.iter_succ, Pos2Z.inj_succ, Z.pow_succ_r by lia.
  change (Zpos (Pos.iter xO p d)~0) with (2 * Zpos (Pos.iter xO p d)). rewrite IH. lia.
Qed.

(** [binary_round] aligns the mantissa and rounds: in the normal range it
    is [m * 2^e] rounded at [e1 = log2 m + 1 + e - 53]. *)
Lemma binary_round_normal sx p e :
  -1074 <= Z.log2 (Zpos p) + 1 + e - 53 -> Z.log2 (Zpos p) + 1 + e - 53 < 971 ->
  binary_round prec emax sx p e
  = canon sx (round_at (Zpos p) e (Z.log2 (Zpos p) + 1 + e - 53)) (Z.log2 (Zpos p) + 1 + e - 53).
Proof.
  intros Hlo Hhi. set (e1 := Z.log2 (Zpos p) + 1 + e - 53) in *.
  assert (He1 : e1 = Z.log2 (Zpos p) + 1 + e - 53) by reflexivity. clearbody e1.
  pose proof (Z.log2_nonneg (Zpos p)).
  unfold binary_round. rewrite digits2_pos_log2, fexp_normal by lia. rewrite <- He1.
  unfold shl_align, round_at. destruct (e1 - e) as [|d|d] eqn:D.
  - rewrite round_aux_normal by lia. rewrite <- He1. replace (e1 - e) with 0 by lia.
    destruct (Z.ltb_spec e e1); [lia|]. replace (e - e1) with 0 by lia.
    rewrite rne_shift_0, Z.mul_1_r by lia. reflexivity.
  - rewrite round_aux_normal by lia. rewrite <- He1, D.
    destruct (Z.ltb_spec e e1); [reflexivity | lia].
  - rewrite pos_iter_xO.
    assert (L : Z.log2 (Zpos p * 2 ^ Zpos d) = Z.log2 (Zpos p) + Zpos d)
      by (rewrite Z.log2_mul_pow2; lia).
    rewrite round_aux_normal by (rewrite ?L; lia). rewrite L.
    replace (Z.log2 (Zpos p) + Zpos d + 1 + e1 - 53) with e1 by lia.
    rewrite rne_shift_0 by lia.
    destruct (Z.ltb_spec e e1); [lia|]. replace (e - e1) with (Zpos d) by lia. reflexivity.
Qed.

(** [binary_round] above the subnormal range, overflow included. *)
Lemma binary_round_gen sx p e :
  -1074 <= Z.log2 (Zpos p) + 1 + e - 53 ->
  binary_round prec emax sx p e
  = canon_fin sx (round_at (Zpos p) e (Z.log2 (Zpos p) + 1 + e - 53)) (Z.log2 (Zpos p) + 1 + e - 53).
Proof.
  intros Hlo. set (e1 := Z.log2 (Zpos p) + 1 + e - 53) in *.
  assert (He1 : e1 = Z.log2 (Zpos p) + 1 + e - 53) by reflexivity. clearbody e1.
  pose proof (Z.log2_nonneg (Zpos p)).
  unfold binary_round. rewrite digits2_pos_log2, fexp_normal by lia. rewrite <- He1.
  unfold shl_align, round_at. destruct (e1 - e) as [|d|d] eqn:D.
  - rewrite round_aux_gen by lia. rewrite <- He1. replace (e1 - e) with 0 by lia.
    destruct (Z.ltb_spec e e1); [lia|]. replace (e - e1) with 0 by lia.
    rewrite rne_shift_0, Z.mul_1_r by lia. reflexivity.
  - rewrite round_aux_gen by lia. rewrite <- He1, D.
    destruct (Z.ltb_spec e e1); [reflexivity | lia].
  - rewrite pos_iter_xO.
    assert (L : Z.log2 (Zpos p * 2 ^ Zpos d) = Z.log2 (Zpos p) + Zpos d)
      by (rewrite Z.log2_mul_pow2; lia).
    rewrite round_aux_gen by (rewrite ?L; lia). rewrite L.
    replace (Z.log2 (Zpos p) + Zpos d + 1 + e1 - 53) with e1 by lia.
    rewrite rne_shift_0 by lia.
    destruct (Z.ltb_spec e e1); [lia|]. replace (e - e1) with (Zpos d) by lia. reflexivity.
Qed.

(** Below the normal range, a value whose exponent is at least the
    smallest one, [-1074], is represented exactly. *)
Lemma binary_round_sub sx p e :
  -1074 <= e -> Z.log2 (Zpos p) + 1 + e - 53 < -1074 ->
  binary_round prec emax sx p e = S754_finite sx (Z.to_pos (Zpos p * 2 ^ (e + 1074))) (-1074).
Proof.
  intros He Hs. pose proof (Z.log2_nonneg (Zpos p)).
  assert (F : forall x, x - 53 < -1074 -> fexp prec emax x = -1074)
    by (intros x Hx; unfold fexp, emin, prec, emax; lia).
  assert (P : 0 < Zpos p * 2 ^ (e + 1074)) by (apply Z.mul_pos_pos; [lia | apply Z.pow_pos_nonneg; lia]).
  assert (L : Z.log2 (Zpos p * 2 ^ (e + 1074)) = Z.log2 (Zpos p) + (e + 1074))
    by (rewrite Z.log2_mul_pow2; lia).
  assert (Sh : shl_align p e (-1074) = (Z.to_pos (Zpos p * 2 ^ (e + 1074)), -1074)).
  { unfold shl_align. destruct (-1074 - e) as [|d|d] eqn:D.
    - replace (e + 1074) with 0 by lia. f_equal; [|lia]. apply Pos2Z.inj. rewrite Z2Pos.id by lia. lia.
    - lia.
    - f_equal. apply Pos2Z.inj. rewrite pos_iter_xO, Z2Pos.id by lia. f_equal. f_equal. lia. }
  unfold binary_round. rewrite digits2_pos_log2, F by lia. rewrite Sh.
  unfold binary_round_aux, shr_fexp. rewrite Z2Pos.id by lia. rewrite Zdigits2_log2, L by lia.
  rewrite F by lia. rewrite Z.sub_diag. cbn [shr shr_record_of_loc shr_m loc_of_shr_record round_nearest_even].
  rewrite Zdigits2_log2, L, F by lia. rewrite Z.sub_diag. cbn [shr shr_m].
  destruct (Zpos p * 2 ^ (e + 1074)) as [|q|q] eqn:Q; try lia. reflexivity.
Qed.

Lemma binary_normalize_normal m e :
  m <> 0 -> -1074 <= Z.log2 (Z.abs m) + 1 + e - 53 -> Z.log2 (Z.abs m) + 1 + e - 53 < 971 ->
  binary_normalize prec emax m e false
  = canon (m <? 0) (round_at (Z.abs m) e (Z.log2 (Z.abs m) + 1 + e - 53)) (Z.log2 (Z.abs m) + 1 + e - 53).
Proof.
  intros Hm. destruct m as [|p|p]; [done| |]; cbn [binary_normalize Z.abs]; intros;
    rewrite binary_round_normal by done; reflexivity.
Qed.

Lemma shl_align_fst mx ex ez : ez <= ex -> Zpos (fst (shl_align mx ex ez)) = Zpos mx * 2 ^ (ex - ez).
Proof.
  intros H. unfold shl_align. destruct (ez - ex) as [|d|d] eqn:D; cbn [fst].
  - replace (ex - ez) with 0 by lia. lia.
  - lia.
  - rewrite pos_iter_xO. f_equal. f_equal. lia.
Qed.

(** Addition of two finite doubles: their exact sum, at the smaller
    exponent, normalised and rounded once. *)
Lemma dadd_finite sx mx ex sy my ey :
  dadd (S754_finite sx mx ex) (S754_finite sy my ey)
  = binary_normalize prec emax
      (cond_Zopp sx (Zpos mx * 2 ^ (ex - Z.min ex ey)) + cond_Zopp sy (Zpos my * 2 ^ (ey - Z.min ex ey)))
      (Z.min ex ey) false.
Proof.
  unfold dadd, SFadd. rewrite <- !shl_align_fst by lia. reflexivity.
Qed.

(** Multiplying a normal double by [1.0] or [-1.0] (mantissa [2^52],
    exponent [-52]) is exact. *)
Lemma dmul_unit s1 s m e :
  2 ^ 52 <= Zpos m < 2 ^ 53 -> -1074 <= e -> e < 971 ->
  dmul (S754_finite s1 (2 ^ 52) (-52)) (S754_finite s m e) = S754_finite (xorb s1 s) m e.
Proof.
  intros Hm Hlo Hhi. unfold dmul, SFmul.
  assert (L : Z.log2 (Zpos m) = 52) by (apply log2_unique'; lia).
  assert (E : Zpos (2 ^ 52 * m) = Zpos m * 2 ^ 52) by lia.
  assert (L' : Z.log2 (Zpos (2 ^ 52 * m)) = 104) by (rewrite E, Z.log2_mul_pow2; lia).
  rewrite round_aux_normal by lia. rewrite L'.
  replace (104 + 1 + (-52 + e) - 53 - (-52 + e)) with 52 by lia.
  replace (104 + 1 + (-52 + e) - 53) with e by lia.
  rewrite E, rne_shift_mul by lia. unfold canon.
  destruct (Z.eqb_spec (Zpos m) (2 ^ 53)); [lia|]. reflexivity.
Qed.

(** A positive exact value [S * 2^e] with more than 53 bits becomes a
    normal double within half a unit in the last place. *)
Lemma binary_normalize_pos S e :
  0 < S -> 53 <= Z.log2 S -> -1074 <= Z.log2 S + 1 + e - 53 -> Z.log2 S + 1 + e - 53 < 970 ->
  exists m' e', binary_normalize prec emax S e false = S754_finite false m' e'
    /\ 2 ^ 52 <= Zpos m' < 2 ^ 53
    /\ Z.log2 S + 1 + e - 53 <= e' <= Z.log2 S + 2 + e - 53
    /\ 2 * Z.abs (Zpos m' * 2 ^ (e' - e) - S) <= 2 ^ (Z.log2 S + 1 - 53).
Proof.
  intros HS L Hlo Hhi. assert (AS : Z.abs S = S) by lia.
  rewrite binary_normalize_normal by (rewrite ?AS; lia). rewrite AS.
  replace (S <? 0) with false by (symmetry; apply Z.ltb_ge; lia).
  set (e1 := Z.log2 S + 1 + e - 53).
  unfold round_at. destruct (Z.ltb_spec e e1); [|subst e1; lia].
  set (t := e1 - e). assert (Ht : t = Z.log2 S + 1 - 53) by (subst t e1; lia).
  pose proof (log2_bounds S HS) as B.
  assert (Bq : 2 ^ 52 <= rne_shift S t <= 2 ^ 53).
  { apply rne_shift_bounds; [lia|]. rewrite <- !Z.pow_add_r by lia.
    replace (52 + t) with (Z.log2 S) by lia. replace (53 + t) with (Z.log2 S + 1) by lia. lia. }
  pose proof (rne_shift_error S t ltac:(lia)) as Er.
  unfold canon. destruct (Z.eqb_spec (rne_shift S t) (2 ^ 53)) as [Eq | Ne].
  - eexists _, _. split; [reflexivity|]. split; [lia|]. split; [subst e1; lia|].
    rewrite <- Ht. replace (e1 + 1 - e) with (1 + t) by lia.
    rewrite Z.pow_add_r, Z.mul_assoc by lia. rewrite Eq in Er. cbn [Z.pow Z.pow_pos Pos.iter] in *. lia.
  - exists (Z.to_pos (rne_shift S t)), e1. split; [reflexivity|].
    rewrite Z2Pos.id by lia. split; [lia|]. split; [subst e1; lia|]. rewrite <- Ht. exact Er.
Qed.

(** ** Integers *)

(** The double of an integer [v] with [0 < |v| < 2^53], however it is
    scaled: its mantissa is [|v|] shifted to 53 bits. *)
Lemma binary_normalize_int v j :
  v <> 0 -> Z.abs v < 2 ^ 53 -> 0 <= j ->
  binary_normalize prec emax (v * 2 ^ j) (- j) false
  = S754_finite (v <? 0) (Z.to_pos (Z.abs v * 2 ^ (52 - Z.log2 (Z.abs v)))) (Z.log2 (Z.abs v) - 52).
Proof.
  intros Hv Hb Hj. pose proof (log2_bounds (Z.abs v) ltac:(lia)) as B.
  assert (L53 : Z.log2 (Z.abs v) < 53) by (apply Z.log2_lt_pow2; lia).
  pose proof (Z.log2_nonneg (Z.abs v)).
  assert (Ea : Z.abs (v * 2 ^ j) = Z.abs v * 2 ^ j) by (rewrite Z.abs_mul, (Z.abs_eq (2 ^ j)); [lia | apply Z.pow_nonneg; lia]).
  assert (L : Z.log2 (Z.abs (v * 2 ^ j)) = Z.log2 (Z.abs v) + j) by (rewrite Ea, Z.log2_mul_pow2; lia).
  assert (0 < 2 ^ j) by (apply Z.pow_pos_nonneg; lia).
  rewrite binary_normalize_normal; rewrite ?L; [| nia | lia | lia].
  replace (Z.log2 (Z.abs v) + j + 1 + - j - 53) with (Z.log2 (Z.abs v) - 52) by lia.
  assert (Hs : (v * 2 ^ j <? 0) = (v <? 0)) by (destruct (Z.ltb_spec v 0), (Z.ltb_spec (v * 2 ^ j) 0); nia).
  assert (R : round_at (Z.abs (v * 2 ^ j)) (- j) (Z.log2 (Z.abs v) - 52)
              = Z.abs v * 2 ^ (52 - Z.log2 (Z.abs v))).
  { rewrite Ea. unfold round_at. destruct (Z.ltb_spec (- j) (Z.log2 (Z.abs v) - 52)).
    - replace (Z.abs v * 2 ^ j) with (Z.abs v * 2 ^ (52 - Z.log2 (Z.abs v)) * 2 ^ (Z.log2 (Z.abs v) - 52 - - j)).
      + apply rne_shift_mul. lia.
      + rewrite <- Z.mul_assoc, <- Z.pow_add_r by lia. f_equal. f_equal. lia.
    - rewrite <- Z.mul_assoc, <- Z.pow_add_r by lia. f_equal. f_equal. lia. }
  rewrite Hs, R. unfold canon.
  assert (Z.abs v * 2 ^ (52 - Z.log2 (Z.abs v)) < 2 ^ 53).
  { replace (2 ^ 53) with (2 ^ (Z.log2 (Z.abs v) + 1) * 2 ^ (52 - Z.log2 (Z.abs v)))
      by (rewrite <- Z.pow_add_r by lia; f_equal; lia).
    apply Z.mul_lt_mono_pos_r; [apply Z.pow_pos_nonneg |]; lia. }
  destruct (Z.eqb_spec (Z.abs v * 2 ^ (52 - Z.log2 (Z.abs v))) (2 ^ 53)); [lia | reflexivity].
Qed.

Lemma of_Z_finite v :
  v <> 0 -> Z.abs v < 2 ^ 53 ->
  of_Z v = S754_finite (v <? 0) (Z.to_pos (Z.abs v * 2 ^ (52 - Z.log2 (Z.abs v)))) (Z.log2 (Z.abs v) - 52).
Proof. intros. unfold of_Z. rewrite <- (binary_normalize_int v 0) by lia. f_equal; lia. Qed.

Lemma of_Z_0 : of_Z 0 = S754_zero false.
Proof. reflexivity. Qed.

(** A nonzero integer below [2^53] is a normal double; its significand and
    exponent depend on its absolute value only. *)
Lemma of_Z_normal v :
  v <> 0 -> Z.abs v < 2 ^ 53 ->
  exists m e, 2 ^ 52 <= Zpos m < 2 ^ 53 /\ -52 <= e <= 0
    /\ forall w, Z.abs w = Z.abs v -> of_Z w = S754_finite (w <? 0) m e.
Proof.
  intros Hv Hb. pose proof (log2_bounds (Z.abs v) ltac:(lia)) as B.
  assert (L53 : Z.log2 (Z.abs v) < 53) by (apply Z.log2_lt_pow2; lia).
  pose proof (Z.log2_nonneg (Z.abs v)).
  assert (P : 0 < 2 ^ (52 - Z.log2 (Z.abs v))) by (apply Z.pow_pos_nonneg; lia).
  assert (E52 : 2 ^ 52 = 2 ^ Z.log2 (Z.abs v) * 2 ^ (52 - Z.log2 (Z.abs v)))
    by (rewrite <- Z.pow_add_r by lia; f_equal; lia).
  assert (E53 : 2 ^ 53 = 2 ^ (Z.log2 (Z.abs v) + 1) * 2 ^ (52 - Z.log2 (Z.abs v)))
    by (rewrite <- Z.pow_add_r by lia; f_equal; lia).
  exists (Z.to_pos (Z.abs v * 2 ^ (52 - Z.log2 (Z.abs v)))), (Z.log2 (Z.abs v) - 52).
  rewrite Z2Pos.id by nia. split; [|split; [lia|]].
  - rewrite E52, E53. split; [apply Z.mul_le_mono_nonneg_r | apply Z.mul_lt_mono_pos_r]; lia.
  - intros w Hw. rewrite of_Z_finite by lia. rewrite Hw. reflexivity.
Qed.

(** Adding two doubles that hold integers is exact while the sum stays
    below [2^53]: the double of the sum, [+0] for a zero sum. *)
Lemma dadd_of_Z a b :
  Z.abs a < 2 ^ 53 -> Z.abs b < 2 ^ 53 -> Z.abs (a + b) < 2 ^ 53 ->
  dadd (of_Z a) (of_Z b) = of_Z (a + b).
Proof.
  intros Ha Hb Hab.
  destruct (Z.eq_dec a 0) as [-> | Na]; [destruct (Z.eq_dec b 0) as [-> | Nb]; [reflexivity|]|].
  { rewrite Z.add_0_l, of_Z_0, (of_Z_finite b) by done. reflexivity. }
  destruct (Z.eq_dec b 0) as [-> | Nb].
  { rewrite Z.add_0_r, of_Z_0, (of_Z_finite a) by done. reflexivity. }
  rewrite (of_Z_finite a), (of_Z_finite b) by done. rewrite dadd_finite.
  set (ea := Z.log2 (Z.abs a) - 52). set (eb := Z.log2 (Z.abs b) - 52).
  assert (Va : forall k, 0 <= k -> cond_Zopp (a <? 0) (Zpos (Z.to_pos (Z.abs a * 2 ^ (52 - Z.log2 (Z.abs a)))) * 2 ^ k)
                        = a * 2 ^ (52 - Z.log2 (Z.abs a) + k)).
  { intros k Hk. pose proof (Z.log2_nonneg (Z.abs a)).
    assert (Z.log2 (Z.abs a) < 53) by (apply Z.log2_lt_pow2; lia).
    assert (0 < 2 ^ (52 - Z.log2 (Z.abs a))) by (apply Z.pow_pos_nonneg; lia).
    rewrite Z2Pos.id by nia. rewrite Z.pow_add_r by lia.
    destruct (Z.ltb_spec a 0); cbn [cond_Zopp]; lia. }
  assert (Vb : forall k, 0 <= k -> cond_Zopp (b <? 0) (Zpos (Z.to_pos (Z.abs b * 2 ^ (52 - Z.log2 (Z.abs b)))) * 2 ^ k)
                        = b * 2 ^ (52 - Z.log2 (Z.abs b) + k)).
  { intros k Hk. pose proof (Z.log2_nonneg (Z.abs b)).
    assert (Z.log2 (Z.abs b) < 53) by (apply Z.log2_lt_pow2; lia).
    assert (0 < 2 ^ (52 - Z.log2 (Z.abs b))) by (apply Z.pow_pos_nonneg; lia).
    rewrite Z2Pos.id by nia. rewrite Z.pow_add_r by lia.
    destruct (Z.ltb_spec b 0); cbn [cond_Zopp]; lia. }
  rewrite Va, Vb by lia. subst ea eb.
  replace (52 - Z.log2 (Z.abs a) + (Z.log2 (Z.abs a) - 52 - Z.min (Z.log2 (Z.abs a) - 52) (Z.log2 (Z.abs b) - 52)))
    with (- Z.min (Z.log2 (Z.abs a) - 52) (Z.log2 (Z.abs b) - 52)) by lia.
  replace (52 - Z.log2 (Z.abs b) + (Z.log2 (Z.abs b) - 52 - Z.min (Z.log2 (Z.abs a) - 52) (Z.log2 (Z.abs b) - 52)))
    with (- Z.min (Z.log2 (Z.abs a) - 52) (Z.log2 (Z.abs b) - 52)) by lia.
  set (j := - Z.min (Z.log2 (Z.abs a) - 52) (Z.log2 (Z.abs b) - 52)).
  assert (Hj : 0 <= j).
  { subst j. assert (Z.log2 (Z.abs a) < 53) by (apply Z.log2_lt_pow2; lia). lia. }
  rewrite <- Z.mul_add_distr_r.
  replace (Z.min (Z.log2 (Z.abs a) - 52) (Z.log2 (Z.abs b) - 52)) with (- j) by lia.
  destruct (Z.eq_dec (a + b) 0) as [E | Ne].
  - rewrite E. reflexivity.
  - rewrite binary_normalize_int by done. symmetry. apply of_Z_finite; done.
Qed.

End Binary64.
