(* ===== verification/Calendar.v ===== *)
(** * Calendar: dates, [AdvanceDate] and the day ordinal

    Models [AdvanceDate] (src/BillIntervals.cpp, lines 561-600) and the
    month-length table it shares with [AddInAllBimonthly].  A date is the
    triple of shorts [(CurrM, CurrD, CurrY)] the source passes around.
    [AdvanceDate] returns [None] exactly when the source reads
    [length[month-1]] outside the table.  The ordinal [days_of] counts days
    from 1 January 2000 with the source's leap rule; the main theorems show
    that [AdvanceDate] moves a valid date to the valid date of the next
    ordinal, that [days_of] is injective on valid dates, and that iterating
    [AdvanceDate] reaches every later valid date. *)

From S2P Require Import Prelude.
Open Scope Z_scope.

Module Calendar.

(** The [(month, day, year)] triple of shorts. *)
Record date := mkDate { dm : Z; dd : Z; dy : Z }.

#[export] Instance date_eq_dec : EqDecision date.
Proof. solve_decision. Defined.

(** [int length[12]={31, 0, 31, 30, 31, 30, 31, 31, 30, 31, 30, 31};] *)
Definition length_table : list Z := [31; 0; 31; 30; 31; 30; 31; 31; 30; 31; 30; 31].

(** [length[month-1]]; [None] when the index is outside [0..11]. *)
Definition length_at (month : Z) : option Z :=
  let i := month - 1 in
  if (0 <=? i) && (i <? 12) then length_table !! Z.to_nat i else None.

(** [((year-2000)%4) == 0]: C's [%] truncates, as [Z.rem] does. *)
Definition is_leap (year : Z) : bool := Z.rem (year - 2000) 4 =? 0.

(** [void AdvanceDate(short& month, short& day, short& year)]. *)
Definition AdvanceDate (d : date) : option date :=
  let month := dm d in
  let year := dy d in
  let day := to_short (dd d + 1) in
  if month =? 2 then
    if is_leap year then
      (if 29 <? day then Some (mkDate (to_short (month + 1)) 1 year)
       else Some (mkDate month day year))
    else
      (if 28 <? day then Some (mkDate (to_short (month + 1)) 1 year)
       else Some (mkDate month day year))
  else
    match length_at month with
    | None => None
    | Some len =>
        if len <? day then
          let month' := to_short (month + 1) in
          if 12 <? month' then Some (mkDate 1 1 (to_short (year + 1)))
          else Some (mkDate month' 1 year)
        else Some (mkDate month day year)
    end.

(** ** Valid dates and the day ordinal *)

(** Days of a month under the source's rules (February from the leap rule). *)
Definition month_days (year month : Z) : Z :=
  if month =? 2 then (if is_leap year then 29 else 28)
  else match length_at month with Some l => l | None => 0 end.

Definition valid_date (d : date) : bool :=
  (1 <=? dm d) && (dm d <=? 12) && (1 <=? dd d) && (dd d <=? month_days (dy d) (dm d))
  && (short_min <=? dy d) && (dy d <=? short_max).

(** Days before 1 January of [year], counted from 1 January 2000
    (negative before it); the leap years are those with [year ≡ 0 mod 4]. *)
Definition days_before_year (year : Z) : Z := 365 * (year - 2000) + (year - 1997) / 4.

(** Days of [year] before the first of [month] (for [month] in 1..13). *)
Definition days_before_month (year month : Z) : Z :=
  match Z.to_nat (month - 1) with
  | 0%nat => 0 | 1%nat => 31 | 2%nat => 59 | 3%nat => 90 | 4%nat => 120
  | 5%nat => 151 | 6%nat => 181 | 7%nat => 212 | 8%nat => 243
  | 9%nat => 273 | 10%nat => 304 | 11%nat => 334 | _ => 365
  end + (if (2 <? month) && is_leap year then 1 else 0).

Definition days_of (d : date) : Z :=
  days_before_year (dy d) + days_before_month (dy d) (dm d) + dd d.

(** The last day a short year can hold. *)
Definition last_date : date := mkDate 12 31 short_max.

Example AdvanceDate_feb_leap : AdvanceDate (mkDate 2 28 2004) = Some (mkDate 2 29 2004).
Proof. reflexivity. Qed.

Example AdvanceDate_feb_1900 : AdvanceDate (mkDate 2 28 1900) = Some (mkDate 2 29 1900).
Proof. reflexivity. Qed.

Example AdvanceDate_new_year : AdvanceDate (mkDate 12 31 2002) = Some (mkDate 1 1 2003).
Proof. reflexivity. Qed.

Example AdvanceDate_oob : AdvanceDate (mkDate 13 1 2002) = None.
Proof. reflexivity. Qed.

(** ** Lemmas *)

Ltac month_cases m :=
  let H := fresh "Hm" in
  assert (H : m = 1 \/ m = 2 \/ m = 3 \/ m = 4 \/ m = 5 \/ m = 6 \/ m = 7 \/ m = 8
              \/ m = 9 \/ m = 10 \/ m = 11 \/ m = 12) by lia;
  repeat destruct H as [-> | H]; [..| subst m].

Lemma valid_date_spec d :
  valid_date d = true <->
  1 <= dm d <= 12 /\ 1 <= dd d <= month_days (dy d) (dm d) /\ in_short (dy d).
Proof.
  unfold valid_date, in_short.
  rewrite !andb_true_iff, !Z.leb_le. tauto.
Qed.

Lemma month_days_range y m : 1 <= m <= 12 -> 28 <= month_days y m <= 31.
Proof.
  intros Hm. unfold month_days. month_cases m; simpl; try lia.
  destruct (is_leap y); lia.
Qed.

Lemma length_at_month_days y m :
  1 <= m <= 12 -> m <> 2 -> length_at m = Some (month_days y m).
Proof. intros Hm Hne. unfold month_days. month_cases m; try reflexivity; lia. Qed.

Lemma length_at_in_range m : 1 <= m <= 12 -> is_Some (length_at m).
Proof. intros Hm. month_cases m; eexists; reflexivity. Qed.

Lemma days_before_year_succ y :
  days_before_year (y + 1) = days_before_year y + 365 + (if is_leap y then 1 else 0).
Proof.
  unfold days_before_year, is_leap. destruct (Z.eqb_spec (Z.rem (y - 2000) 4) 0); zlia.
Qed.

Lemma days_before_month_succ y m :
  1 <= m <= 12 -> days_before_month y (m + 1) = days_before_month y m + month_days y m.
Proof.
  intros Hm. unfold days_before_month, month_days.
  month_cases m; simpl; destruct (is_leap y); reflexivity.
Qed.

Lemma days_before_month_first y : days_before_month y 1 = 0.
Proof. reflexivity. Qed.

Lemma days_before_month_year y :
  days_before_month y 13 = days_before_year (y + 1) - days_before_year y.
Proof.
  rewrite days_before_year_succ. unfold days_before_month. simpl.
  destruct (is_leap y); lia.
Qed.


(** [AdvanceDate] maps a valid date other than [last_date] to a valid date
    whose ordinal is one more. *)
Lemma AdvanceDate_step d :
  valid_date d = true -> d <> last_date ->
  exists d', AdvanceDate d = Some d' /\ valid_date d' = true /\ days_of d' = days_of d + 1.
Proof.
  destruct d as [m d y]. rewrite valid_date_spec. simpl. intros (Hm & Hd & Hy) Hlast.
  pose proof (month_days_range y m Hm) as Hr.
  unfold AdvanceDate; simpl.
  rewrite (to_short_id (d + 1)) by (unfold in_short, short_min, short_max; lia).
  destruct (Z.eqb_spec m 2) as [-> | Hm2].
  - unfold month_days in Hd, Hr; simpl in Hd, Hr.
    destruct (is_leap y) eqn:Hl; zcase;
      eexists; (split; [reflexivity|]); rewrite valid_date_spec;
      unfold days_of, month_days, days_before_month; simpl; rewrite ?Hl; simpl;
      autorewrite with bills_rw; unfold in_short, short_min, short_max in *; lia.
  - rewrite (length_at_month_days y m Hm Hm2).
    rewrite (to_short_id (m + 1)) by (unfold in_short, short_min, short_max; lia).
    zcase.
    + assert (m = 12) as -> by lia.
      assert (y <> short_max).
      { intros ->. apply Hlast. unfold last_date, month_days in *. simpl in *. f_equal. lia. }
      unfold in_short, short_min, short_max in *.
      rewrite (to_short_id (y + 1)) by (unfold in_short, short_min, short_max; lia).
      eexists; (split; [reflexivity|]); rewrite valid_date_spec; simpl.
      unfold days_of; simpl. rewrite days_before_year_succ.
      unfold month_days, days_before_month in *; simpl in *.
      destruct (is_leap y); simpl; unfold in_short, short_min, short_max; lia.
    + eexists; (split; [reflexivity|]); rewrite valid_date_spec; simpl.
      unfold days_of; simpl. rewrite days_before_month_succ by lia.
      pose proof (month_days_range y (m + 1)). unfold in_short in *. lia.
    + eexists; (split; [reflexivity|]); rewrite valid_date_spec; simpl.
      unfold days_of; simpl. unfold in_short in *. lia.
Qed.

Lemma days_before_month_mono y a b :
  1 <= a <= b -> b <= 13 -> days_before_month y a <= days_before_month y b.
Proof.
  intros Hab Hb.
  assert (Hk : forall k : nat, a + Z.of_nat k <= 13 ->
            days_before_month y a <= days_before_month y (a + Z.of_nat k)).
  { induction k as [|k IH]; intros Hk; [rewrite Z.add_0_r; lia|].
    replace (a + Z.of_nat (S k)) with (a + Z.of_nat k + 1) by lia.
    rewrite days_before_month_succ by lia.
    pose proof (month_days_range y (a + Z.of_nat k)). lia. }
  replace b with (a + Z.of_nat (Z.to_nat (b - a))) by lia. apply Hk. lia.
Qed.

Lemma days_before_year_mono y1 y2 :
  y1 < y2 -> days_before_year (y1 + 1) <= days_before_year y2.
Proof. unfold days_before_year. zlia. Qed.

(** A valid date lies inside its year. *)
Lemma days_of_year_bounds d :
  valid_date d = true ->
  days_before_year (dy d) < days_of d <= days_before_year (dy d + 1).
Proof.
  rewrite valid_date_spec. intros (Hm & Hd & _). unfold days_of.
  rewrite <- (Z.sub_add (days_before_year (dy d)) (days_before_year (dy d + 1))),
    <- days_before_month_year.
  pose proof (days_before_month_mono (dy d) 1 (dm d)).
  pose proof (days_before_month_mono (dy d) (dm d + 1) 13).
  rewrite days_before_month_succ in * by lia.
  rewrite days_before_month_first in *. lia.
Qed.

(** A valid date lies inside its month. *)
Lemma days_of_month_bounds d :
  valid_date d = true ->
  days_before_month (dy d) (dm d) < days_of d - days_before_year (dy d)
  <= days_before_month (dy d) (dm d + 1).
Proof.
  rewrite valid_date_spec. intros (Hm & Hd & _). unfold days_of.
  rewrite days_before_month_succ by lia. lia.
Qed.

(** The ordinal is injective on valid dates. *)
Lemma days_of_inj d1 d2 :
  valid_date d1 = true -> valid_date d2 = true -> days_of d1 = days_of d2 -> d1 = d2.
Proof.
  intros V1 V2 E.
  assert (Hy : dy d1 = dy d2).
  { pose proof (days_of_year_bounds d1 V1). pose proof (days_of_year_bounds d2 V2).
    destruct (Z.lt_trichotomy (dy d1) (dy d2)) as [Hlt | [Heq | Hlt]]; [| exact Heq |];
      pose proof (days_before_year_mono _ _ Hlt); lia. }
  assert (Hm : dm d1 = dm d2).
  { pose proof (days_of_month_bounds d1 V1). pose proof (days_of_month_bounds d2 V2).
    apply valid_date_spec in V1, V2.
    destruct (Z.lt_trichotomy (dm d1) (dm d2)) as [Hlt | [Heq | Hlt]]; [| exact Heq |].
    - pose proof (days_before_month_mono (dy d1) (dm d1 + 1) (dm d2)). rewrite Hy in *. lia.
    - pose proof (days_before_month_mono (dy d1) (dm d2 + 1) (dm d1)). rewrite Hy in *. lia. }
  destruct d1 as [m1 a1 y1], d2 as [m2 a2 y2]; simpl in *; subst.
  unfold days_of in E; simpl in E. f_equal. lia.
Qed.

(** [last_date] has the largest ordinal of all valid dates. *)
Lemma days_of_le_last d : valid_date d = true -> days_of d <= days_of last_date.
Proof.
  intros V. pose proof (days_of_year_bounds d V) as B.
  apply valid_date_spec in V. destruct V as (_ & _ & Hy). unfold in_short, short_max, short_min in Hy.
  assert (days_before_year (dy d + 1) <= days_before_year (short_max + 1)).
  { unfold days_before_year, short_max. zlia. }
  assert (days_of last_date = days_before_year (short_max + 1)) as -> by reflexivity. lia.
Qed.

Lemma last_date_valid : valid_date last_date = true.
Proof. reflexivity. Qed.

(** [n] advances from a valid date reach the valid date [n] days later. *)
Lemma AdvanceDate_iter n d :
  valid_date d = true -> days_of d + Z.of_nat n <= days_of last_date ->
  exists e, iter_opt n AdvanceDate d = Some e /\ valid_date e = true
            /\ days_of e = days_of d + Z.of_nat n.
Proof.
  revert d. induction n as [|n IH]; intros d V B; simpl.
  - exists d. split; [done|]. split; [done | lia].
  - assert (d <> last_date) by (intros ->; lia).
    destruct (AdvanceDate_step d V H) as (d' & -> & V' & E').
    destruct (IH d' V') as (e & He & Ve & Ee); [lia|].
    exists e. split; [done|]. split; [done | lia].
Qed.

(** Iterating [AdvanceDate] from a valid date reaches every valid date of a
    larger ordinal, after exactly the difference of the ordinals. *)
Lemma AdvanceDate_reaches d e :
  valid_date d = true -> valid_date e = true -> days_of d <= days_of e ->
  iter_opt (Z.to_nat (days_of e - days_of d)) AdvanceDate d = Some e.
Proof.
  intros Vd Ve Hle.
  destruct (AdvanceDate_iter (Z.to_nat (days_of e - days_of d)) d Vd) as (e' & He' & Ve' & Ee').
  { pose proof (days_of_le_last e Ve). lia. }
  rewrite He'. f_equal. apply days_of_inj; [done | done | lia].
Qed.

(** Days from a date to the same month and day one year later: 366 when
    the leap day of the source's rule lies in between. *)
Definition year_span (d : date) : Z :=
  if dm d <=? 2 then (if is_leap (dy d) then 366 else 365)
  else (if is_leap (dy d + 1) then 366 else 365).

(** C9. The one-year cycle of the spec (section 8): from a valid date other
    than 29 February, [year_span d] calls of [AdvanceDate] (365, or 366 when
    a leap day of the rule [(year-2000)%4==0] lies in between) give the same
    month and day of the next year. *)
Theorem AdvanceDate_one_year d :
  valid_date d = true -> ~ (dm d = 2 /\ dd d = 29) -> dy d < short_max ->
  iter_opt (Z.to_nat (year_span d)) AdvanceDate d = Some (mkDate (dm d) (dd d) (dy d + 1)).
Proof.
  intros V Hf Hy.
  destruct d as [m a y]; simpl in *.
  pose proof V as V'. apply valid_date_spec in V' as (Hm & Ha & Hs); simpl in *.
  assert (Ve : valid_date (mkDate m a (y + 1)) = true).
  { apply valid_date_spec; simpl. unfold in_short, short_min, short_max in *.
    unfold month_days in *. destruct (Z.eqb_spec m 2); [destruct (is_leap y), (is_leap (y + 1)) |]; lia. }
  assert (E : days_of (mkDate m a (y + 1)) - days_of (mkDate m a y) = year_span (mkDate m a y)).
  { unfold days_of, year_span; simpl. rewrite days_before_year_succ.
    month_cases m; unfold days_before_month; simpl; destruct (is_leap y), (is_leap (y + 1)); lia. }
  rewrite <- E. apply AdvanceDate_reaches; [done | done |].
  unfold year_span in E; simpl in E.
  destruct (m <=? 2), (is_leap y), (is_leap (y + 1)); lia.
Qed.

(** C8. [AdvanceDate] is the successor on valid dates: from a valid date
    other than [last_date] it returns exactly the valid date whose ordinal
    is one more; [last_date] wraps to 1 January of year -32768. *)
Theorem AdvanceDate_spec d e :
  valid_date d = true -> valid_date e = true ->
  (d <> last_date -> AdvanceDate d = Some e <-> days_of e = days_of d + 1) /\
  (d = last_date -> AdvanceDate d = Some (mkDate 1 1 short_min)).
Proof.
  intros Vd Ve. split; [|intros ->; reflexivity].
  intros Hne. destruct (AdvanceDate_step d Vd Hne) as (d' & -> & Vd' & E).
  split.
  - intros [= <-]. exact E.
  - intros E'. f_equal. apply days_of_inj; [done | done | lia].
Qed.

Lemma AdvanceDate_spec_witness :
  AdvanceDate (mkDate 2 28 2004) = Some (mkDate 2 29 2004).
Proof.
  apply (proj1 (AdvanceDate_spec (mkDate 2 28 2004) (mkDate 2 29 2004) eq_refl eq_refl));
    [unfold last_date; discriminate | reflexivity].
Defined.

Lemma AdvanceDate_one_year_witness :
  iter_opt 366 AdvanceDate (mkDate 3 1 2003) = Some (mkDate 3 1 2004).
Proof.
  exact (AdvanceDate_one_year (mkDate 3 1 2003) eq_refl ltac:(simpl; lia) ltac:(simpl; unfold short_max; lia)).
Defined.

End Calendar.
