(* ===== verification/Parse.v ===== *)
(** * Parse: the token buffers and the three token parsers

    Models [StringToNums] (src/BillIntervals.cpp, lines 180-207),
    [StringToNumber] (lines 209-229) and [StringToDollars] (lines 231-287).
    Each reads a [char line[100]] buffer that [operator>>] filled with a
    token and its NUL terminator, leaving the bytes after the terminator as
    they were (stale content of earlier tokens).  Characters are compared
    as signed [char] values; the accumulators are shorts, so every store
    goes through [to_short].  A parser returns [None] where the source
    returns -1.  The theorems: the date parser's round trip with the
    [MM.DD.YYYY] format, its acceptance of longer tokens, the dollar
    parser's agreement with the grammar [-?D*.DD] on every token whatever
    the stale bytes, and the wrap-around of dollars and day counts. *)

From S2P Require Import Prelude Calendar.
Import Calendar.
Open Scope Z_scope.

Module Parse.

(** A [char line[100]] buffer. *)
Definition buffer := list ascii.

Definition NUL : ascii := "000"%char.

(** [line[i]]. *)
Definition at_ (line : buffer) (i : nat) : ascii := nth i line NUL.

(** The value of a (signed) [char]. *)
Definition cval (c : ascii) : Z :=
  let n := Z.of_N (N_of_ascii c) in if n <? 128 then n else n - 256.

(** [line[i] > 57 || line[i] < 48]: not a digit. *)
Definition not_digit (c : ascii) : bool := (57 <? cval c) || (cval c <? 48).

(** [BillMakerFile >> line]: the token and its terminator overwrite the
    front of the buffer; the rest of the buffer is left as it was. *)
Definition read_chars (cs : list ascii) (line : buffer) : buffer :=
  cs ++ NUL :: drop (S (length cs)) line.

Definition read_token (tok : string) (line : buffer) : buffer :=
  read_chars (list_ascii_of_string tok) line.

(** The C string held by a buffer: its bytes up to the first NUL. *)
Fixpoint c_string (line : buffer) : list ascii :=
  match line with
  | [] => []
  | c :: rest => if Ascii.eqb c NUL then [] else c :: c_string rest
  end.

(** [int StringToNums(char* line, short& month, short& day, short& year)]. *)
Definition StringToNums (line : buffer) : option date :=
  if not_digit (at_ line 0) || not_digit (at_ line 1)
     || negb (cval (at_ line 2) =? 46)
     || not_digit (at_ line 3) || not_digit (at_ line 4)
     || negb (cval (at_ line 5) =? 46)
     || not_digit (at_ line 6) || not_digit (at_ line 7)
     || not_digit (at_ line 8) || not_digit (at_ line 9)
  then None
  else
    let v i := cval (at_ line i) - 48 in
    Some (mkDate (to_short (10 * v 0%nat + v 1%nat))
                 (to_short (10 * v 3%nat + v 4%nat))
                 (to_short (1000 * v 6%nat + 100 * v 7%nat + 10 * v 8%nat + v 9%nat))).

(** The [for (i=0;i<count;i++)] loop of [StringToNumber] over the bytes
    before the terminator. *)
Fixpoint number_loop (cs : list ascii) (number : Z) : option Z :=
  match cs with
  | [] => Some number
  | c :: cs' =>
      if not_digit c then None
      else number_loop cs' (to_short (number * 10 + (cval c - 48)))
  end.

(** [int StringToNumber(char* line, short& number)]. *)
Definition StringToNumber (line : buffer) : option Z := number_loop (c_string line) 0.

(** [while (i < 100 && !done) { if (line[i]=='.') done=1; else i++; }]:
    [fuel] is the number of iterations the bound [i < 100] still allows. *)
Fixpoint find_dot (line : buffer) (i : nat) (fuel : nat) : option nat :=
  match fuel with
  | O => None
  | S fuel' => if cval (at_ line i) =? 46 then Some i else find_dot line (S i) fuel'
  end.

(** [for (i=minus;i<dotpos;i++) { ...; dollars=dollars*10+(line[i]-48); }]:
    [n] iterations from index [i]. *)
Fixpoint dollars_loop (line : buffer) (i n : nat) (dollars : Z) : option Z :=
  match n with
  | O => Some dollars
  | S n' =>
      if not_digit (at_ line i) then None
      else dollars_loop line (S i) n' (to_short (dollars * 10 + (cval (at_ line i) - 48)))
  end.

(** [int StringToDollars(char* line, short& minus, short& dollars, short& cents)]:
    [(minus, dollars, cents)]. *)
Definition StringToDollars (line : buffer) : option (Z * Z * Z) :=
  let minus := if cval (at_ line 0) =? 45 then 1 else 0 in
  match find_dot line 0 100 with
  | None => None
  | Some dotpos =>
      match dollars_loop line (Z.to_nat minus) (dotpos - Z.to_nat minus) 0 with
      | None => None
      | Some dollars =>
          if not_digit (at_ line (dotpos + 1)) || not_digit (at_ line (dotpos + 2))
             || negb (cval (at_ line (dotpos + 3)) =? 0)
          then None
          else Some (minus, dollars,
                     to_short (10 * (cval (at_ line (dotpos + 1)) - 48)
                               + (cval (at_ line (dotpos + 2)) - 48)))
      end
  end.

(** The exact value, in cents, of the amount [Minus], [Dollars] and
    [Cents] denote; the loader stores the binary64 double
    [Loader.amount_double] of lines 375-376, which [Money] relates to it. *)
Definition amount_of (minus dollars cents : Z) : Z :=
  (if minus =? 1 then -1 else 1) * (100 * dollars + cents).

(** A fresh buffer for the examples: 100 bytes of stale text. *)
Definition stale : buffer := repeat "7"%char 100.

Example StringToNums_ok : StringToNums (read_token "09.23.2002" stale) = Some (mkDate 9 23 2002).
Proof. reflexivity. Qed.

Example StringToNums_bad : StringToNums (read_token "13.99.abcd" stale) = None.
Proof. reflexivity. Qed.

Example StringToDollars_neg :
  StringToDollars (read_token "-35.00" stale) = Some (1, 35, 0).
Proof. reflexivity. Qed.

Example StringToDollars_three_cents : StringToDollars (read_token "12.345" stale) = None.
Proof. reflexivity. Qed.

Example StringToNumber_180 : StringToNumber (read_token "180" stale) = Some 180.
Proof. reflexivity. Qed.

(** ** Reading a buffer filled by [>>] *)

Lemma at_read_lt cs line i : (i < length cs)%nat -> at_ (read_chars cs line) i = nth i cs NUL.
Proof. intros H. unfold at_, read_chars. rewrite app_nth1 by done. reflexivity. Qed.

Lemma at_read_len cs line : at_ (read_chars cs line) (length cs) = NUL.
Proof. unfold at_, read_chars. rewrite app_nth2 by lia. rewrite Nat.sub_diag. reflexivity. Qed.

Lemma cval_NUL : cval NUL = 0.
Proof. reflexivity. Qed.

Lemma not_digit_NUL : not_digit NUL = true.
Proof. reflexivity. Qed.

(** The character of a decimal digit. *)
Definition digit (k : Z) : ascii := ascii_of_N (Z.to_N (48 + k)).

Lemma cval_digit k : 0 <= k <= 9 -> cval (digit k) = 48 + k.
Proof.
  intros Hk. unfold cval, digit. rewrite N_ascii_embedding by lia.
  rewrite Z2N.id by lia. zcase; lia.
Qed.

Lemma not_digit_digit k : 0 <= k <= 9 -> not_digit (digit k) = false.
Proof. intros Hk. unfold not_digit. rewrite cval_digit by done. zcase; (reflexivity || lia). Qed.

Lemma N_of_ascii_lt c : (N_of_ascii c < 256)%N.
Proof. destruct c as [[] [] [] [] [] [] [] []]; reflexivity. Qed.

(** A character that passes the digit test is the digit of its value. *)
Lemma digit_of_cval c : not_digit c = false -> digit (cval c - 48) = c /\ 48 <= cval c <= 57.
Proof.
  unfold not_digit, cval, digit. intros H.
  pose proof (N_of_ascii_lt c) as Hb.
  destruct (Z.ltb_spec (Z.of_N (N_of_ascii c)) 128); apply orb_false_iff in H as [H1 H2];
    apply Z.ltb_ge in H1, H2; [|lia].
  split; [|lia].
  replace (48 + (Z.of_N (N_of_ascii c) - 48)) with (Z.of_N (N_of_ascii c)) by lia.
  rewrite N2Z.id. apply ascii_N_embedding.
Qed.

#[export] Hint Rewrite cval_digit not_digit_digit using lia : bills_rw.

Lemma cval_dot c : cval c = 46 -> c = "."%char.
Proof.
  unfold cval. intros H. pose proof (N_of_ascii_lt c).
  destruct (Z.ltb_spec (Z.of_N (N_of_ascii c)) 128); [|lia].
  rewrite <- (ascii_N_embedding c). change "."%char with (ascii_of_N 46). f_equal. lia.
Qed.

(** ** The date format [MM.DD.YYYY] *)

Definition format_date (d : date) : list ascii :=
  [digit (dm d / 10); digit (dm d mod 10); "."%char;
   digit (dd d / 10); digit (dd d mod 10); "."%char;
   digit (dy d / 1000); digit (dy d / 100 mod 10); digit (dy d / 10 mod 10); digit (dy d mod 10)].

(** The triples the format can write. *)
Definition date_in_format (d : date) : Prop :=
  0 <= dm d <= 99 /\ 0 <= dd d <= 99 /\ 0 <= dy d <= 9999.

Lemma digits2 a b :
  0 <= a <= 9 -> 0 <= b <= 9 -> (10 * a + b) / 10 = a /\ (10 * a + b) mod 10 = b.
Proof. intros. split; zlia. Qed.

Lemma digits4 a b c d :
  0 <= a <= 9 -> 0 <= b <= 9 -> 0 <= c <= 9 -> 0 <= d <= 9 ->
  let y := 1000 * a + 100 * b + 10 * c + d in
  y / 1000 = a /\ y / 100 mod 10 = b /\ y / 10 mod 10 = c /\ y mod 10 = d.
Proof. intros. repeat split; zlia. Qed.

Lemma StringToNums_format d rest line :
  date_in_format d -> StringToNums (read_chars (format_date d ++ rest) line) = Some d.
Proof.
  destruct d as [m a y]. unfold date_in_format. simpl. intros (Hm & Ha & Hy).
  unfold StringToNums, at_, read_chars, format_date. simpl.
  rewrite !not_digit_digit by zlia. rewrite !cval_digit by zlia. simpl.
  f_equal. f_equal; rewrite to_short_id; unfold in_short, short_min, short_max; zlia.
Qed.

Lemma StringToNums_parsed cs line d :
  StringToNums (read_chars cs line) = Some d -> date_in_format d /\ take 10 cs = format_date d.
Proof.
  intros H.
  do 10 (destruct cs as [|? cs];
         [unfold StringToNums, at_, read_chars in H; simpl in H;
          rewrite ?orb_true_r in H; discriminate|]).
  unfold StringToNums, at_, read_chars in H. simpl in H.
  destruct (_ || _) eqn:T in H; [discriminate|]. injection H as <-.
  rewrite !orb_false_iff, !negb_false_iff, !Z.eqb_eq in T.
  destruct T as (((((((((T0 & T1) & T2) & T3) & T4) & T5) & T6) & T7) & T8) & T9).
  apply digit_of_cval in T0 as [E0 B0], T1 as [E1 B1], T3 as [E3 B3], T4 as [E4 B4],
    T6 as [E6 B6], T7 as [E7 B7], T8 as [E8 B8], T9 as [E9 B9].
  apply cval_dot in T2, T5. subst.
  rewrite !to_short_id by (unfold in_short, short_min, short_max; lia).
  split; [unfold date_in_format; simpl; lia|].
  unfold format_date; simpl.
  destruct (digits2 (cval a - 48) (cval a0 - 48)) as [-> ->]; [lia | lia |].
  destruct (digits2 (cval a2 - 48) (cval a3 - 48)) as [-> ->]; [lia | lia |].
  destruct (digits4 (cval a5 - 48) (cval a6 - 48) (cval a7 - 48) (cval a8 - 48))
    as (-> & -> & -> & ->); [lia | lia | lia | lia |].
  rewrite E0, E1, E3, E4, E6, E7, E8, E9. reflexivity.
Qed.

(** C10. [StringToNums] accepts a token exactly when its first ten
    characters are a date in the [MM.DD.YYYY] format, whatever follows
    them: the token's length is not checked (the spec asks for exactly ten
    characters), and month and day are not range-checked. *)
Theorem StringToNums_spec cs line d :
  StringToNums (read_chars cs line) = Some d <-> date_in_format d /\ take 10 cs = format_date d.
Proof.
  split; [apply StringToNums_parsed|].
  intros [Hd Ht]. rewrite <- (take_drop 10 cs), Ht. apply StringToNums_format. done.
Qed.

(** ** The dollar grammar [-?D*.DD] *)

(** The value of a digit string, without wrap-around. *)
Fixpoint decimal (cs : list ascii) (acc : Z) : option Z :=
  match cs with
  | [] => Some acc
  | c :: cs' => if not_digit c then None else decimal cs' (acc * 10 + (cval c - 48))
  end.

(** The characters before the first ['.'] and those after it. *)
Fixpoint split_dot (cs : list ascii) : option (list ascii * list ascii) :=
  match cs with
  | [] => None
  | c :: cs' =>
      if Ascii.eqb c "."%char then Some ([], cs')
      else match split_dot cs' with Some (a, b) => Some (c :: a, b) | None => None end
  end.

(** The length of the optional minus sign at the head of a token. *)
Definition minus_len (cs : list ascii) : nat :=
  match cs with
  | c :: _ => if Ascii.eqb c "-"%char then 1 else 0
  | [] => 0
  end.

(** An optional minus sign, digits, a dot and exactly two digits: the sign
    flag, the dollars stored into a short and the cents. *)
Definition dollars_grammar (cs : list ascii) : option (Z * Z * Z) :=
  let m := minus_len cs in
  match split_dot (drop m cs) with
  | Some (ds, [c1; c2]) =>
      if not_digit c1 || not_digit c2 then None
      else match decimal ds 0 with
           | Some v => Some (Z.of_nat m, to_short v, 10 * (cval c1 - 48) + (cval c2 - 48))
           | None => None
           end
  | _ => None
  end.

Lemma cval_inj c c' : cval c = cval c' -> c = c'.
Proof.
  unfold cval. pose proof (N_of_ascii_lt c) as B1. pose proof (N_of_ascii_lt c') as B2.
  intros H. rewrite <- (ascii_N_embedding c), <- (ascii_N_embedding c'). f_equal.
  zcase_in H; lia.
Qed.

Lemma cval_eqb c c' : (cval c =? cval c') = Ascii.eqb c c'.
Proof.
  destruct (Z.eqb_spec (cval c) (cval c')) as [E|E], (Ascii.eqb_spec c c') as [E'|E'];
    [done | apply cval_inj in E; done | subst; done | done].
Qed.

Lemma split_dot_spec cs a b :
  split_dot cs = Some (a, b) -> cs = a ++ "."%char :: b /\ ~ In "."%char a.
Proof.
  revert a. induction cs as [|c cs IH]; intros a H; simpl in H; [discriminate|].
  destruct (Ascii.eqb_spec c "."%char) as [-> | Hne].
  - injection H as <- <-. split; [done | intros []].
  - destruct (split_dot cs) as [[a' b']|]; [|discriminate]. injection H as <- <-.
    destruct (IH a' eq_refl) as [-> Hn]. split; [done|]. intros [E | E]; [done | tauto].
Qed.

Lemma split_dot_None cs : split_dot cs = None -> ~ In "."%char cs.
Proof.
  induction cs as [|c cs IH]; simpl; [tauto|].
  destruct (Ascii.eqb_spec c "."%char); [discriminate|].
  destruct (split_dot cs) as [[]|]; [discriminate|]. intros _ [E|E]; [done | tauto].
Qed.

(** The [while] loop finds the first dot of the token. *)
Lemma find_dot_found cs line i fuel a b :
  split_dot (drop i cs) = Some (a, b) -> (length a < fuel)%nat ->
  find_dot (read_chars cs line) i fuel = Some (i + length a)%nat.
Proof.
  revert i a. induction fuel as [|fuel IH]; intros i a Hs Hf; [lia|].
  destruct (drop i cs) as [|c rest] eqn:Hd; [discriminate|].
  assert (Hi : (i < length cs)%nat) by (apply (f_equal length) in Hd; rewrite length_drop in Hd; simpl in Hd; lia).
  assert (Hc : at_ (read_chars cs line) i = c).
  { rewrite at_read_lt by done. rewrite <- (take_drop i cs), Hd, app_nth2; rewrite length_take; [|lia].
    replace (i - i `min` length cs)%nat with 0%nat by lia. reflexivity. }
  simpl. rewrite Hc. change 46 with (cval "."%char). rewrite cval_eqb.
  simpl in Hs. destruct (Ascii.eqb c "."%char).
  - injection Hs as <- <-. simpl. f_equal. lia.
  - destruct (split_dot rest) as [[a' b']|] eqn:Hr; [|discriminate]. injection Hs as <- <-.
    rewrite (IH (S i) a'); [simpl; f_equal; lia | | simpl in Hf; lia].
    rewrite <- Nat.add_1_r, <- drop_drop, Hd. done.
Qed.

Lemma find_dot_dot line i fuel q :
  find_dot line i fuel = Some q -> (i <= q)%nat /\ cval (at_ line q) = 46.
Proof.
  revert i. induction fuel as [|fuel IH]; intros i H; simpl in H; [discriminate|].
  destruct (Z.eqb_spec (cval (at_ line i)) 46).
  - injection H as <-. split; [lia | done].
  - apply IH in H as [? ?]. split; [lia | done].
Qed.

Lemma nth_drop_0 {A} (l : list A) i d : nth 0 (drop i l) d = nth i l d.
Proof. revert i. induction l as [|x l IH]; intros [|i]; simpl; auto. Qed.

(** The digit loop over bytes of the token reads the token. *)
Lemma dollars_loop_read cs line i n acc :
  (i + n <= length cs)%nat ->
  dollars_loop (read_chars cs line) i n acc = number_loop (take n (drop i cs)) acc.
Proof.
  revert i acc. induction n as [|n IH]; intros i acc Hn; [done|].
  destruct (drop i cs) as [|c rest] eqn:Hd.
  { apply (f_equal length) in Hd. rewrite length_drop in Hd. simpl in Hd. lia. }
  assert (Hc : at_ (read_chars cs line) i = c).
  { rewrite at_read_lt by lia. rewrite <- nth_drop_0, Hd. reflexivity. }
  simpl. rewrite Hc. destruct (not_digit c); [done|].
  rewrite IH by lia. rewrite <- Nat.add_1_r, <- drop_drop, Hd. reflexivity.
Qed.

(** A digit loop that runs into the terminator fails. *)
Lemma dollars_loop_NUL cs line i n acc :
  (i <= length cs < i + n)%nat -> dollars_loop (read_chars cs line) i n acc = None.
Proof.
  revert i acc. induction n as [|n IH]; intros i acc Hn; [lia|]. simpl.
  destruct (Nat.eq_dec i (length cs)) as [-> | Hne].
  - rewrite at_read_len. reflexivity.
  - destruct (not_digit _); [done|]. apply IH. lia.
Qed.

Lemma to_short_mul_add a b : to_short (to_short a * 10 + b) = to_short (a * 10 + b).
Proof. unfold to_short. zlia. Qed.

(** The short accumulator is the exact value wrapped once at the end. *)
Lemma number_loop_decimal cs a :
  number_loop cs (to_short a) = option_map to_short (decimal cs a).
Proof.
  revert a. induction cs as [|c cs IH]; intros a; simpl; [done|].
  destruct (not_digit c); [done|]. rewrite to_short_mul_add. apply IH.
Qed.

Lemma number_loop_decimal_0 cs : number_loop cs 0 = option_map to_short (decimal cs 0).
Proof. apply (number_loop_decimal cs 0). Qed.

Lemma in_cs_not_NUL cs i : ~ In NUL cs -> (i < length cs)%nat -> cval (nth i cs NUL) <> 0.
Proof.
  intros Hn Hi E. change 0 with (cval NUL) in E. apply cval_inj in E.
  apply Hn. rewrite <- E. apply nth_In. done.
Qed.

Lemma at_after_dot cs line a0 b k :
  cs = a0 ++ "."%char :: b ->
  at_ (read_chars cs line) (length a0 + S k) = nth k (b ++ NUL :: drop (S (length cs)) line) NUL.
Proof.
  intros ->. unfold at_, read_chars. rewrite <- app_assoc. simpl.
  rewrite app_nth2 by lia. replace (length a0 + S k - length a0)%nat with (S k) by lia. reflexivity.
Qed.

(** The cents test after the dot at [length a0]: exactly two digits, then
    the terminator. *)
Lemma cents_check cs line a0 b (minus dollars : Z) :
  cs = a0 ++ "."%char :: b -> ~ In NUL cs ->
  (if not_digit (at_ (read_chars cs line) (length a0 + 1))
      || not_digit (at_ (read_chars cs line) (length a0 + 2))
      || negb (cval (at_ (read_chars cs line) (length a0 + 3)) =? 0)
   then None
   else Some (minus, dollars,
              to_short (10 * (cval (at_ (read_chars cs line) (length a0 + 1)) - 48)
                        + (cval (at_ (read_chars cs line) (length a0 + 2)) - 48))))
  = match b with
    | [c1; c2] => if not_digit c1 || not_digit c2 then None
                  else Some (minus, dollars, 10 * (cval c1 - 48) + (cval c2 - 48))
    | _ => None
    end.
Proof.
  intros Hcs Hn. rewrite !(at_after_dot cs line a0 b) by done.
  destruct b as [|c1 [|c2 [|c3 b]]]; simpl; [done | rewrite orb_true_r; done | |].
  - destruct (not_digit c1) eqn:D1, (not_digit c2) eqn:D2; simpl; try done.
    apply digit_of_cval in D1 as [_ B1], D2 as [_ B2].
    rewrite to_short_id; [done | unfold in_short, short_min, short_max; lia].
  - assert (cval c3 <> 0).
    { intros E. change 0 with (cval NUL) in E. apply cval_inj in E. subst.
      apply Hn. apply in_or_app. right. simpl. tauto. }
    destruct (Z.eqb_spec (cval c3) 0); [done|]. rewrite orb_true_r. done.
Qed.

Lemma split_dot_app p l :
  ~ In "."%char p ->
  split_dot (p ++ l) = match split_dot l with Some (x, y) => Some (p ++ x, y) | None => None end.
Proof.
  induction p as [|c p IH]; intros Hp; simpl; [destruct (split_dot l) as [[]|]; done|].
  destruct (Ascii.eqb_spec c "."%char) as [E|_]; [exfalso; apply Hp; left; done|].
  rewrite IH by (intros H; apply Hp; right; done). destruct (split_dot l) as [[]|]; done.
Qed.

Lemma minus_len_prefix cs :
  (minus_len cs <= length cs)%nat /\ ~ In "."%char (take (minus_len cs) cs) /\
  (if cval (at_ (read_chars cs []) 0) =? 45 then 1 else 0) = Z.of_nat (minus_len cs).
Proof.
  destruct cs as [|c rest]; [split; [simpl; lia | split; [simpl; tauto | reflexivity]]|].
  unfold minus_len. change (at_ (read_chars (c :: rest) []) 0) with c.
  change 45 with (cval "-"%char). rewrite cval_eqb.
  destruct (Ascii.eqb_spec c "-"%char) as [-> | Hne]; simpl.
  - split; [lia | split; [intros [E|[]]; discriminate | reflexivity]].
  - split; [lia | split; [tauto | reflexivity]].
Qed.

Lemma at_read_0 cs line line' : cs <> [] -> at_ (read_chars cs line) 0 = at_ (read_chars cs line') 0.
Proof. destruct cs; [done|]. reflexivity. Qed.

Lemma minus_flag cs line :
  (if cval (at_ (read_chars cs line) 0) =? 45 then 1 else 0) = Z.of_nat (minus_len cs).
Proof.
  destruct (minus_len_prefix cs) as (_ & _ & E). destruct cs as [|c rest]; [reflexivity|].
  rewrite (at_read_0 _ line []) by done. exact E.
Qed.

(** The dollar parser reads the token only, and follows the grammar. *)
Lemma StringToDollars_read cs line :
  ~ In NUL cs -> (length cs < 100)%nat ->
  StringToDollars (read_chars cs line) = dollars_grammar cs.
Proof.
  intros Hn Hl. unfold StringToDollars, dollars_grammar.
  rewrite minus_flag, Nat2Z.id.
  destruct (minus_len_prefix cs) as (Hm & Hp & _). set (m := minus_len cs) in *.
  destruct (split_dot (drop m cs)) as [[a b]|] eqn:Hs.
  - apply split_dot_spec in Hs as Hs'. destruct Hs' as [Hd Ha].
    assert (Hcs : cs = (take m cs ++ a) ++ "."%char :: b) by (rewrite <- app_assoc, <- Hd, take_drop; done).
    assert (Hla : length (take m cs ++ a) = (m + length a)%nat) by (rewrite length_app, length_take; lia).
    rewrite (find_dot_found cs line 0 100 (take m cs ++ a) b); cycle 1.
    { rewrite drop_0. rewrite <- (take_drop m cs) at 1. rewrite split_dot_app, Hs by done. done. }
    { rewrite Hcs in Hl. rewrite length_app in Hl. simpl in Hl. lia. }
    simpl. rewrite Hla, dollars_loop_read by (rewrite Hcs, length_app; simpl; lia).
    replace (m + length a - m)%nat with (length a) by lia.
    rewrite Hd, take_app_length, number_loop_decimal_0.
    destruct (decimal a 0) as [v|]; simpl.
    + rewrite <- Hla. apply (cents_check cs line (take m cs ++ a) b); done.
    + destruct b as [|? [|? [|]]]; try destruct (_ || _); done.
  - destruct (find_dot (read_chars cs line) 0 100) as [q|] eqn:F; [|done].
    apply find_dot_dot in F as [_ Fq].
    assert (Hq : (length cs < q)%nat).
    { destruct (Nat.lt_trichotomy q (length cs)) as [Hlt | [-> | Hgt]]; [| rewrite at_read_len in Fq; done | done].
      exfalso. rewrite at_read_lt in Fq by done. change 46 with (cval "."%char) in Fq.
      apply cval_inj in Fq. apply (split_dot_None _ Hs).
      assert (In "."%char cs) as Hin by (rewrite <- Fq; apply nth_In; done).
      rewrite <- (take_drop m cs) in Hin. apply in_app_or in Hin as [Hin | Hin]; [done | done]. }
    rewrite dollars_loop_NUL by lia. done.
Qed.

(** C11. On every token of fewer than 100 characters without NUL bytes,
    [StringToDollars] computes the grammar [-?D*.DD]: whatever stale bytes
    follow the terminator, it returns the sign flag, the dollar digits'
    value stored into a short and the two cent digits' value, and fails
    exactly on the tokens outside the grammar. *)
Theorem StringToDollars_grammar cs line :
  ~ In NUL cs -> (length cs < 100)%nat ->
  StringToDollars (read_chars cs line) = dollars_grammar cs.
Proof. apply StringToDollars_read. Qed.

Lemma decimal_ge cs acc v : 0 <= acc -> decimal cs acc = Some v -> acc <= v.
Proof.
  revert acc. induction cs as [|c cs IH]; intros acc Hacc H; simpl in H; [injection H; lia|].
  destruct (not_digit c) eqn:D; [discriminate|]. apply digit_of_cval in D as [_ B].
  apply IH in H; lia.
Qed.

Lemma c_string_read cs line : ~ In NUL cs -> c_string (read_chars cs line) = cs.
Proof.
  unfold read_chars. generalize (drop (S (length cs)) line) as rest. intros rest.
  induction cs as [|c cs IH]; intros Hn; [reflexivity|]. simpl.
  destruct (Ascii.eqb_spec c NUL) as [-> | _]; [exfalso; apply Hn; left; done|].
  rewrite IH; [done | intros H; apply Hn; right; done].
Qed.

(** C12. The dollars of an accepted amount are the decimal value [v] of
    its digits stored into a short: the amount [amount_of] the loader
    builds is the written amount exactly when [v <= 32767], so an amount of
    32768.00 dollars or more changes value (40000.00 becomes -25536.00). *)
Theorem StringToDollars_amount cs line minus dollars cents :
  ~ In NUL cs -> (length cs < 100)%nat ->
  StringToDollars (read_chars cs line) = Some (minus, dollars, cents) ->
  exists ds rest v,
    drop (minus_len cs) cs = ds ++ "."%char :: rest /\ decimal ds 0 = Some v /\
    dollars = to_short v /\ 0 <= cents <= 99 /\
    (amount_of minus dollars cents = (if minus =? 1 then -1 else 1) * (100 * v + cents)
     <-> v <= short_max).
Proof.
  intros Hn Hl H. rewrite StringToDollars_read in H by done. unfold dollars_grammar in H.
  destruct (split_dot (drop (minus_len cs) cs)) as [[ds rest]|] eqn:Hs; [|discriminate].
  apply split_dot_spec in Hs as [Hd _].
  destruct rest as [|c1 [|c2 [|]]]; try discriminate.
  destruct (not_digit c1) eqn:D1, (not_digit c2) eqn:D2; try discriminate. simpl in H.
  destruct (decimal ds 0) as [v|] eqn:Hv; [|discriminate]. injection H as <- <- <-.
  apply digit_of_cval in D1 as [_ B1], D2 as [_ B2].
  pose proof (decimal_ge ds 0 v ltac:(lia) Hv) as Hv0.
  exists ds, [c1; c2], v. split; [done|]. split; [done|]. split; [done|]. split; [lia|].
  unfold amount_of. pose proof (to_short_range v) as R.
  split.
  - intros E. assert (to_short v = v) as Ev by (destruct (Z.of_nat (minus_len cs) =? 1); lia).
    rewrite <- Ev. unfold in_short in R. lia.
  - intros Hle. rewrite to_short_id; [done | unfold in_short, short_min; lia].
Qed.

(** C13. [StringToNumber] accepts exactly the tokens made of digits only
    (so ["0"] is a valid interval) and returns their decimal value stored
    into a short, that is modulo 65536. *)
Theorem StringToNumber_spec cs line :
  ~ In NUL cs -> StringToNumber (read_chars cs line) = option_map to_short (decimal cs 0).
Proof. intros Hn. unfold StringToNumber. rewrite c_string_read by done. apply number_loop_decimal_0. Qed.

(** ** Independence from the stale bytes of the buffer *)

(** A token as [>>] reads it: no NUL byte, and room for its terminator. *)
Definition token_ok (cs : list ascii) : Prop := ~ In NUL cs /\ (length cs < 100)%nat.

Lemma StringToNums_indep cs l1 l2 :
  StringToNums (read_chars cs l1) = StringToNums (read_chars cs l2).
Proof.
  assert (H : forall la lb d, StringToNums (read_chars cs la) = Some d ->
                              StringToNums (read_chars cs lb) = Some d).
  { intros la lb d Hd. apply StringToNums_parsed in Hd as [Hf Ht].
    rewrite <- (take_drop 10 cs), Ht. apply StringToNums_format. done. }
  destruct (StringToNums (read_chars cs l1)) as [d|] eqn:E1.
  - symmetry. apply (H l1). done.
  - destruct (StringToNums (read_chars cs l2)) as [d|] eqn:E2; [|done].
    rewrite (H l2 l1 d E2) in E1. discriminate.
Qed.

Lemma StringToDollars_indep cs l1 l2 :
  token_ok cs -> StringToDollars (read_chars cs l1) = StringToDollars (read_chars cs l2).
Proof. intros [Hn Hl]. rewrite !StringToDollars_read by done. reflexivity. Qed.

Lemma c_string_indep cs l1 l2 :
  token_ok cs -> c_string (read_chars cs l1) = c_string (read_chars cs l2).
Proof. intros [Hn _]. rewrite !c_string_read by done. reflexivity. Qed.

Lemma StringToNumber_indep cs l1 l2 :
  token_ok cs -> StringToNumber (read_chars cs l1) = StringToNumber (read_chars cs l2).
Proof. intros Hc. unfold StringToNumber. rewrite (c_string_indep cs l1 l2 Hc). reflexivity. Qed.

(** ** Witnesses *)

Ltac no_nul := let H := fresh in intros H; simpl in H; intuition discriminate.

Lemma StringToNums_spec_witness :
  StringToNums (read_token "01.01.2000xyz" stale) = Some (mkDate 1 1 2000).
Proof. apply StringToNums_spec. split; [unfold date_in_format; simpl; lia | reflexivity]. Defined.

Lemma StringToDollars_grammar_witness :
  StringToDollars (read_token ".50" stale) = Some (0, 0, 50).
Proof. unfold read_token. rewrite StringToDollars_grammar; [reflexivity | no_nul | simpl; lia]. Defined.

Lemma StringToDollars_amount_witness :
  exists ds rest v,
    drop (minus_len (list_ascii_of_string "40000.00")) (list_ascii_of_string "40000.00")
      = ds ++ "."%char :: rest /\ decimal ds 0 = Some v /\
    -25536 = to_short v /\ 0 <= 0 <= 99 /\
    (amount_of 0 (-25536) 0 = (if 0 =? 1 then -1 else 1) * (100 * v + 0) <-> v <= short_max).
Proof.
  apply (StringToDollars_amount (list_ascii_of_string "40000.00") stale 0 (-25536) 0);
    [no_nul | simpl; lia | reflexivity].
Defined.

Lemma StringToNumber_spec_witness :
  StringToNumber (read_token "70000" stale) = Some 4464.
Proof. unfold read_token. rewrite StringToNumber_spec; [reflexivity | no_nul]. Defined.

End Parse.
