(* ===== verification/Csv.v ===== *)
(** * Csv: the text of the numbers in Bills.csv

    [ostream << short] (the Month, Day and Year of [PrintTransaction],
    src/BillIntervals.cpp line 605, and the dates [GetBills] prints at
    lines 315 and 325): the decimal digits, with a leading [-] when
    negative.  And [print_amount], the text [%g] gives a number of cents
    [c] with [|c| < 10^6]: the integer part and, when the cents are not
    zero, a dot and the cents without their trailing zero ([-35], [0.5],
    [1637.29]).  It is the reference against which [Money] shows what
    [ostream << double] ([Gformat.print_double]) writes for the amounts
    the program reads; beyond 10000.00 six significant digits no longer
    hold the cents and [print_amount] is [None]. *)

From S2P Require Import Prelude Parse.
Import Parse.
Open Scope Z_scope.

Module Csv.

Definition comma : ascii := ","%char.
Definition dash : ascii := "-"%char.
Definition dot : ascii := "."%char.
Definition newline : ascii := "010"%char.

(** The decimal digits of [0 <= n], most significant first, before [acc];
    [fuel] bounds the number of digits. *)
Fixpoint udigits (fuel : nat) (n : Z) (acc : list ascii) : list ascii :=
  match fuel with
  | O => acc
  | S f => if n <? 10 then digit n :: acc else udigits f (n / 10) (digit (n mod 10) :: acc)
  end.

Definition decimal_text (n : Z) : list ascii := udigits 12 n [].

(** [ostream << short]. *)
Definition print_short (z : Z) : list ascii :=
  if z <? 0 then dash :: decimal_text (- z) else decimal_text z.

(** The fractional part [%g] keeps of [fp] cents: trailing zeros, and the
    dot when nothing is left, are removed. *)
Definition cents_text (fp : Z) : list ascii :=
  if fp =? 0 then []
  else if fp mod 10 =? 0 then [dot; digit (fp / 10)]
  else [dot; digit (fp / 10); digit (fp mod 10)].

(** [ostream << double] for an amount of [c] cents, [%g] with precision 6,
    within [|c| < 10^6]. *)
Definition print_amount (c : Z) : option (list ascii) :=
  if 1000000 <=? Z.abs c then None else
  Some ((if c <? 0 then [dash] else []) ++ decimal_text (Z.abs c / 100)
        ++ cents_text (Z.abs c mod 100)).

Local Open Scope string_scope.

Example print_amount_samples :
  map (fun c => option_map string_of_list_ascii (print_amount c)) [-3500; 50; 5; 163729; 0; 1000000]
  = [Some "-35"; Some "0.5"; Some "0.05"; Some "1637.29"; Some "0"; None].
Proof. vm_compute. reflexivity. Qed.

Local Close Scope string_scope.

End Csv.
