(* ===== verification/Gformat.v ===== *)
(** * Gformat: [ostream << double], the [%g] conversion

    [std::ostream] writes a [double] in its default format, which is
    [printf]'s [%g] with precision 6 (C11 7.21.6.1): the value rounded to
    six significant digits (ties to even, on the exact binary value), in
    fixed notation when its decimal exponent [X] is in [-4, 5] and as
    [d.ddddde+XX] otherwise, trailing zeros of the fraction and a
    trailing dot removed; [-0] for negative zero, [inf] and [nan] for
    the special values.  This is how the program writes [Balance] and
    [Amount] to Bills.csv (src/BillIntervals.cpp, lines 605, 620, 651,
    683, 720) and the end balance to the console (line 173).

    [print_double] computes that text from the binary value [m * 2^e].
    The main lemma, [g_pos_char], says when it is a given six-digit
    decimal [q * 10^(X-5)]: whenever the value is within a twentieth of a
    unit in the sixth digit of it.  With [g_pos_cents], a value within
    that distance of [c / 100] cents is written as [Csv.print_amount]
    writes [c]. *)

From Stdlib Require Import Floats.SpecFloat.
From S2P Require Import Prelude Binary64 Parse Csv.
Import Csv Binary64.
Open Scope Z_scope.

Module Gformat.

(** [num / den] rounded to the nearest integer, ties to even. *)
Definition div_rne (num den : Z) : Z :=
  let q := num / den in
  let r := num mod den in
  match Z.compare (2 * r) den with
  | Lt => q
  | Gt => q + 1
  | Eq => if Z.even q then q else q + 1
  end.

(** The number of decimal digits of [0 < n]; [fuel] bounds it. *)
Fixpoint ndig (fuel : nat) (n : Z) : Z :=
  match fuel with
  | O => 0
  | S f => if n <? 10 then 1 else 1 + ndig f (n / 10)
  end.

Definition ndigits (n : Z) : Z := ndig (Z.to_nat (Z.log2 n + 1)) n.

(** [10^k <= num / den]. *)
Definition pow10_le (k num den : Z) : bool :=
  if 0 <=? k then den * 10 ^ k <=? num else den <=? num * 10 ^ (- k).

(** [num / den * 10^t], rounded. *)
Definition scaled (num den t : Z) : Z :=
  if 0 <=? t then div_rne (num * 10 ^ t) den else div_rne num (den * 10 ^ (- t)).

(** The digits of [n], zero-padded on the left to [w]. *)
Definition pad (w n : Z) : list ascii :=
  let ds := decimal_text n in
  repeat "0"%char (Z.to_nat w - length ds) ++ ds.

Fixpoint drop_zeros (cs : list ascii) : list ascii :=
  match cs with
  | c :: cs' => if Ascii.eqb c "0"%char then drop_zeros cs' else cs
  | [] => []
  end.

Definition strip_zeros (cs : list ascii) : list ascii := rev (drop_zeros (rev cs)).

(** A fraction of [w] digits [f] without its trailing zeros, after a dot,
    or nothing when no digit is left. *)
Definition frac_text (w f : Z) : list ascii :=
  match strip_zeros (pad w f) with
  | [] => []
  | ds => dot :: ds
  end.

(** The precision of [%g]. *)
Definition P : Z := 6.

(** The six significant digits [q] (in [10^5, 10^6)) and the decimal
    exponent [X] of [num / den > 0]. *)
Definition g_digits (num den : Z) : Z * Z :=
  let k := ndigits num - ndigits den in
  let X0 := if pow10_le k num den then k else k - 1 in
  let q0 := scaled num den (P - 1 - X0) in
  if q0 =? 10 ^ P then (10 ^ (P - 1), X0 + 1) else (q0, X0).

(** The text of [q * 10^(X-5)]: style [f] with [P - 1 - X] decimals when
    [-4 <= X < P], style [e] otherwise, without trailing zeros. *)
Definition gtext (q X : Z) : list ascii :=
  if (-4 <=? X) && (X <? P) then
    let f := P - 1 - X in
    decimal_text (q / 10 ^ f) ++ frac_text f (q mod 10 ^ f)
  else
    decimal_text (q / 10 ^ (P - 1)) ++ frac_text (P - 1) (q mod 10 ^ (P - 1))
    ++ "e"%char :: (if X <? 0 then dash else "+"%char) :: pad 2 (Z.abs X).

Definition g_pos (num den : Z) : list ascii :=
  let '(q, X) := g_digits num den in gtext q X.

(** [ostream << double]. *)
Definition print_double (x : double) : list ascii :=
  match x with
  | S754_zero s => (if s then [dash] else []) ++ ["0"%char]
  | S754_infinity s => (if s then [dash] else []) ++ list_ascii_of_string "inf"
  | S754_nan => list_ascii_of_string "nan"
  | S754_finite s m e =>
      (if s then [dash] else []) ++
      (if 0 <=? e then g_pos (Zpos m * 2 ^ e) 1 else g_pos (Zpos m) (2 ^ (- e)))
  end.

(** ** Digits and decades *)

Lemma ndig_spec f n :
  0 < n -> n < 10 ^ Z.of_nat f -> 1 <= ndig f n /\ 10 ^ (ndig f n - 1) <= n < 10 ^ ndig f n.
Proof.
  revert n. induction f as [|f IH]; intros n Hn Hf; [cbn in Hf; lia|]. cbn [ndig].
  destruct (Z.ltb_spec n 10); [cbn; lia|].
  rewrite Nat2Z.inj_succ, Z.pow_succ_r in Hf by lia.
  assert (A1 : 0 < n / 10) by (clear IH; zlia).
  assert (A2 : n / 10 < 10 ^ Z.of_nat f) by (clear IH; zlia).
  destruct (IH _ A1 A2) as (H1 & H2 & H3).
  replace (1 + ndig f (n / 10) - 1) with (ndig f (n / 10)) by lia.
  set (t := ndig f (n / 10)) in *.
  assert (E1 : 10 ^ (1 + t) = 10 * 10 ^ t) by (rewrite Z.pow_add_r; lia).
  assert (E2 : 10 ^ t = 10 ^ (t - 1) * 10)
    by (rewrite <- (Z.pow_1_r 10) at 3; rewrite <- Z.pow_add_r by lia; f_equal; lia).
  rewrite E1. clear IH. split; [lia|]. split; zlia.
Qed.

Lemma ndigits_spec n : 0 < n -> 1 <= ndigits n /\ 10 ^ (ndigits n - 1) <= n < 10 ^ ndigits n.
Proof.
  intros Hn. apply ndig_spec; [done|]. pose proof (Z.log2_spec n Hn) as [_ H].
  rewrite Z2Nat.id by (pose proof (Z.log2_nonneg n); lia).
  eapply Z.lt_le_trans; [exact H|]. apply Z.pow_le_mono_l. pose proof (Z.log2_nonneg n). lia.
Qed.

Lemma pow10_le_iff k num den s :
  0 <= s -> 0 <= k + s -> pow10_le k num den = true <-> den * 10 ^ (k + s) <= num * 10 ^ s.
Proof.
  intros Hs Hks. assert (0 < 10 ^ s) by (apply Z.pow_pos_nonneg; lia). unfold pow10_le.
  destruct (Z.leb_spec 0 k).
  - rewrite Z.leb_le, Z.pow_add_r by lia. split; intros H'; [nia|].
    apply (Z.mul_le_mono_pos_r _ _ (10 ^ s)); lia.
  - rewrite Z.leb_le. replace (10 ^ s) with (10 ^ (- k) * 10 ^ (k + s)) by (rewrite <- Z.pow_add_r by lia; f_equal; lia).
    assert (0 < 10 ^ (k + s)) by (apply Z.pow_pos_nonneg; lia).
    split; intros H'; [nia|]. apply (Z.mul_le_mono_pos_r _ _ (10 ^ (k + s))); lia.
Qed.

Lemma pow10_le_mono k k' num den :
  0 <= den -> k' <= k -> pow10_le k num den = true -> pow10_le k' num den = true.
Proof.
  intros Hd Hk. rewrite !(pow10_le_iff _ _ _ (Z.max 0 (- k'))) by lia.
  assert (10 ^ (k' + Z.max 0 (- k')) <= 10 ^ (k + Z.max 0 (- k'))) by (apply Z.pow_le_mono_r; lia).
  nia.
Qed.

(** [X] is the decimal exponent of [num / den]. *)
Definition decade (num den X : Z) : Prop :=
  pow10_le X num den = true /\ pow10_le (X + 1) num den = false.

Lemma decade_unique num den X Y : 0 <= den -> decade num den X -> decade num den Y -> X = Y.
Proof.
  intros Hd [HX HX'] [HY HY']. destruct (Z.lt_trichotomy X Y) as [Lt | [Eq | Gt]]; [| done |].
  - rewrite (pow10_le_mono Y (X + 1)) in HX' by (done || lia). discriminate.
  - rewrite (pow10_le_mono X (Y + 1)) in HY' by (done || lia). discriminate.
Qed.

Lemma decade_g num den :
  0 < num -> 0 < den ->
  decade num den (let k := ndigits num - ndigits den in if pow10_le k num den then k else k - 1).
Proof.
  intros Hn Hd. destruct (ndigits_spec num Hn) as (Kn & Ln & Un).
  destruct (ndigits_spec den Hd) as (Kd & Ld & Ud).
  set (kn := ndigits num) in *. set (kd := ndigits den) in *. cbv zeta.
  assert (Lo : pow10_le (kn - kd - 1) num den = true).
  { rewrite (pow10_le_iff _ _ _ (Z.max 0 (- (kn - kd - 1)))) by lia.
    set (s := Z.max 0 (- (kn - kd - 1))).
    assert (E : 10 ^ kd * 10 ^ (kn - kd - 1 + s) = 10 ^ (kn - 1) * 10 ^ s)
      by (rewrite <- !Z.pow_add_r by lia; f_equal; lia).
    assert (0 <= 10 ^ (kn - kd - 1 + s)) by (apply Z.pow_nonneg; lia).
    assert (0 <= 10 ^ s) by (apply Z.pow_nonneg; lia). nia. }
  assert (Hi : pow10_le (kn - kd + 1) num den = false).
  { apply not_true_iff_false. rewrite (pow10_le_iff _ _ _ (Z.max 0 (- (kn - kd + 1)))) by lia.
    set (s := Z.max 0 (- (kn - kd + 1))).
    assert (E : 10 ^ (kd - 1) * 10 ^ (kn - kd + 1 + s) = 10 ^ kn * 10 ^ s)
      by (rewrite <- !Z.pow_add_r by lia; f_equal; lia).
    assert (0 < 10 ^ (kn - kd + 1 + s)) by (apply Z.pow_pos_nonneg; lia).
    assert (0 < 10 ^ s) by (apply Z.pow_pos_nonneg; lia). nia. }
  destruct (pow10_le (kn - kd) num den) eqn:E; split; try done.
  replace (kn - kd - 1 + 1) with (kn - kd) by lia. done.
Qed.

(** ** Rounding near an integer *)

Lemma div_rne_near A q den : 0 < den -> 2 * Z.abs (A - q * den) < den -> div_rne A den = q.
Proof.
  intros Hd Hn. unfold div_rne. set (d := A - q * den). replace A with (d + q * den) by (subst d; lia).
  rewrite Z.div_add, Z.mod_add by lia.
  destruct (Z.le_gt_cases 0 d).
  - rewrite Z.div_small, Z.mod_small by lia.
    destruct (Z.compare_spec (2 * d) den); lia.
  - rewrite <- (Z.div_unique d den (-1) (d + den)) by lia.
    rewrite <- (Z.mod_unique d den (-1) (d + den)) by lia.
    destruct (Z.compare_spec (2 * (d + den)) den); lia.
Qed.

(** ** When [%g] writes a given six-digit decimal *)

(** [num / den] is written as [q * 10^(X-5)] (six digits [q]) when it lies
    within a twentieth of a unit of the sixth digit from it; the margin
    covers the value just below a power of ten, written with the next
    exponent after the carry. *)
Lemma g_digits_char num den q X :
  0 < num -> 0 < den -> 10 ^ 5 <= q < 10 ^ 6 -> X <= 5 ->
  20 * Z.abs (num * 10 ^ (5 - X) - q * den) < den ->
  g_digits num den = (q, X).
Proof.
  intros Hn Hd Hq HX Hc. set (A := num * 10 ^ (5 - X)) in *.
  change (10 ^ 5) with 100000 in Hq |- *. change (10 ^ 6) with 1000000 in Hq |- *.
  assert (Q1 : q * den <= 999999 * den) by nia.
  assert (Q2 : 100000 * den <= q * den) by nia.
  assert (G : forall j, 0 <= 5 + j ->
            pow10_le (X + j) num den = true <-> den * 10 ^ (5 + j) <= A).
  { intros j Hj. rewrite (pow10_le_iff _ _ _ (5 - X)) by (clear - HX Hj; lia). subst A.
    replace (X + j + (5 - X)) with (5 + j) by lia. reflexivity. }
  assert (Up : pow10_le (X + 1) num den = false).
  { apply not_true_iff_false. rewrite G by lia. cbn. lia. }
  unfold g_digits. set (X0 := let k := ndigits num - ndigits den in if pow10_le k num den then k else k - 1).
  pose proof (decade_g num den Hn Hd) as D0. fold X0 in D0.
  destruct (pow10_le X num den) eqn:Lo.
  - assert (X0 = X) as -> by (apply (decade_unique num den); [lia | done | split; done]).
    unfold scaled, P. destruct (Z.leb_spec 0 (6 - 1 - X)); [|lia].
    replace (6 - 1 - X) with (5 - X) by lia. fold A.
    rewrite (div_rne_near A q den) by lia.
    destruct (Z.eqb_spec q (10 ^ 6)); [lia | reflexivity].
  - assert (Hq5 : q = 10 ^ 5).
    { apply not_true_iff_false in Lo. rewrite <- (Z.add_0_r X), G in Lo by lia. cbn in Lo. nia. }
    assert (X0 = X - 1) as ->.
    { apply (decade_unique num den); [lia | done |]. split.
      - rewrite <- (Z.add_opp_r X 1), G by lia. cbn. nia.
      - replace (X - 1 + 1) with X by lia. done. }
    unfold scaled, P. destruct (Z.leb_spec 0 (6 - 1 - (X - 1))); [|lia].
    replace (num * 10 ^ (6 - 1 - (X - 1))) with (10 * A)
      by (subst A; replace (6 - 1 - (X - 1)) with (1 + (5 - X)) by lia; rewrite Z.pow_add_r by lia; lia).
    rewrite (div_rne_near (10 * A) (10 ^ 6) den) by (cbn in *; lia).
    rewrite Z.eqb_refl. f_equal; [cbn in *; lia | lia].
Qed.

(** ** Amounts in cents *)

(** The text [Csv.print_amount] gives an amount of [0 <= c < 10^6] cents. *)
Definition cents_g (c : Z) : list ascii := decimal_text (c / 100) ++ cents_text (c mod 100).

Lemma print_amount_cents_g c :
  Z.abs c < 10 ^ 6 -> print_amount c = Some ((if c <? 0 then [dash] else []) ++ cents_g (Z.abs c)).
Proof.
  intros H. unfold print_amount, cents_g. destruct (Z.leb_spec 1000000 (Z.abs c)); [cbn in H; lia|].
  rewrite app_assoc. reflexivity.
Qed.

(** The fraction [%g] keeps of [C] cents scaled to [8 - n] digits is the
    one [Csv.cents_text] writes (checked for each of the 100 values). *)
Lemma frac_text_cents n C :
  1 <= n <= 6 -> 0 <= C < 100 -> frac_text (8 - n) (C * 10 ^ (6 - n)) = cents_text C.
Proof.
  intros Hn HC.
  assert (H : forallb (fun n => forallb (fun C =>
                if list_eq_dec ascii_dec (frac_text (8 - n) (C * 10 ^ (6 - n))) (cents_text C)
                then true else false) (map Z.of_nat (seq 0 100))) (map Z.of_nat (seq 1 6)) = true)
    by (vm_compute; reflexivity).
  rewrite forallb_forall in H.
  specialize (H n ltac:(apply in_map_iff; exists (Z.to_nat n); split; [lia | apply in_seq; lia])).
  rewrite forallb_forall in H.
  specialize (H C ltac:(apply in_map_iff; exists (Z.to_nat C); split; [lia | apply in_seq; lia])).
  destruct (list_eq_dec _ _ _); [done | discriminate].
Qed.

(** A value within [c / (2 * 10^7)] of [c / 100], for [0 < c < 10^6], is
    written as the amount of [c] cents. *)
Lemma g_pos_cents num den c :
  0 < c < 10 ^ 6 -> 0 < num -> 0 < den ->
  2 * 10 ^ 7 * Z.abs (100 * num - c * den) < c * den ->
  g_pos num den = cents_g c.
Proof.
  intros Hc Hn Hd Herr. destruct (ndigits_spec c ltac:(lia)) as (N1 & Nlo & Nhi).
  set (n := ndigits c) in *.
  assert (N6 : n <= 6).
  { destruct (Z.le_gt_cases n 6); [done|].
    assert (10 ^ 6 <= 10 ^ (n - 1)) by (apply Z.pow_le_mono_r; lia). lia. }
  assert (Pk : 0 < 10 ^ (6 - n)) by (apply Z.pow_pos_nonneg; lia).
  assert (E6 : 10 ^ (n - 1) * 10 ^ (6 - n) = 10 ^ 5) by (rewrite <- Z.pow_add_r by lia; f_equal; lia).
  assert (E7 : 10 ^ n * 10 ^ (6 - n) = 10 ^ 6) by (rewrite <- Z.pow_add_r by lia; f_equal; lia).
  assert (E8 : 10 ^ (8 - n) = 100 * 10 ^ (6 - n))
    by (replace (8 - n) with (2 + (6 - n)) by lia; rewrite Z.pow_add_r by lia; reflexivity).
  unfold g_pos. rewrite (g_digits_char num den (c * 10 ^ (6 - n)) (n - 3)).
  - unfold gtext, P. replace ((-4 <=? n - 3) && (n - 3 <? 6)) with true by (symmetry; apply andb_true_iff; split; [apply Z.leb_le | apply Z.ltb_lt]; lia).
    replace (6 - 1 - (n - 3)) with (8 - n) by lia. rewrite E8.
    rewrite Z.div_mul_cancel_r, Z.mul_mod_distr_r by lia.
    unfold cents_g. rewrite frac_text_cents by (try apply Z.mod_pos_bound; lia). reflexivity.
  - lia.
  - done.
  - nia.
  - lia.
  - replace (5 - (n - 3)) with (8 - n) by lia. rewrite E8.
    replace (num * (100 * 10 ^ (6 - n)) - c * 10 ^ (6 - n) * den) with (10 ^ (6 - n) * (100 * num - c * den)) by ring.
    rewrite Z.abs_mul, (Z.abs_eq (10 ^ (6 - n))) by lia.
    assert (10 ^ 6 = 1000000) by reflexivity. assert (10 ^ 7 = 10000000) by reflexivity.
    nia.
Qed.

End Gformat.
