(* ===== verification/Transactions.v ===== *)
(** * Transactions: the four node kinds and the bodies of their traversals

    The records [OnceLink], [IntervalLink], [MonthlyLink] and
    [BimonthlyLink] of src/BillIntervals.cpp (lines 64-94), without their
    [Next] pointers (the lists are Rocq lists, see [Scheduler]).  For each
    kind, [visit_*] is the body of the [while (current != NULL)] loop of its
    AddInAll function: it takes the current date and the node, returns the
    node with its scheduling fields updated and whether the node fires
    (adds its amount to the balance and prints a line).  The interface
    [Schedulable] is what the scheduler needs of a node kind; each kind is
    an instance.  Each kind also has an abstract firing rule over the days
    seen so far and a simulation relation showing that the flag and counter
    fields implement it. *)

From S2P Require Import Prelude Binary64 Calendar.
Import Calendar.
Open Scope Z_scope.

Module Transactions.

(** The source's [StartM==CurrM && StartD==CurrD && StartY==CurrY]. *)
Definition same_date (a b : date) : bool :=
  (dm a =? dm b) && (dd a =? dd b) && (dy a =? dy b).

Record OnceLink := mkOnce {
  OnceStart : date;
  OnceAmount : Binary64.double;
  OnceDescription : string }.

Record IntervalLink := mkInterval {
  IntervalStart : date;
  Interval : Z;
  IntervalHasStarted : Z;
  Counter : Z;
  IntervalAmount : Binary64.double;
  IntervalDescription : string }.

Record MonthlyLink := mkMonthly {
  MonthlyStart : date;
  MonthlyHasStarted : Z;
  MonthlyAmount : Binary64.double;
  MonthlyDescription : string }.

Record BimonthlyLink := mkBimonthly {
  BimonthlyStart : date;
  BimonthlyHasStarted : Z;
  BimonthlyAmount : Binary64.double;
  BimonthlyDescription : string }.

(** Loop body of [AddInAllOnce] (lines 616-625): no state. *)
Definition visit_once (cur : date) (n : OnceLink) : option (OnceLink * bool) :=
  Some (n, same_date (OnceStart n) cur).

(** Loop body of [AddInAllInterval] (lines 639-659). *)
Definition visit_interval (cur : date) (n : IntervalLink) : option (IntervalLink * bool) :=
  let n1 :=
    if same_date (IntervalStart n) cur
    then mkInterval (IntervalStart n) (Interval n) 1 0 (IntervalAmount n) (IntervalDescription n)
    else n in
  if IntervalHasStarted n1 =? 1 then
    let fires := Counter n1 =? 0 in
    let c := to_short (Counter n1 + 1) in
    let c' := if c =? Interval n1 then 0 else c in
    Some (mkInterval (IntervalStart n1) (Interval n1) (IntervalHasStarted n1) c'
            (IntervalAmount n1) (IntervalDescription n1), fires)
  else Some (n1, false).

(** Loop body of [AddInAllMonthly] (lines 671-688). *)
Definition visit_monthly (cur : date) (n : MonthlyLink) : option (MonthlyLink * bool) :=
  let n1 :=
    if MonthlyHasStarted n =? 0 then
      if same_date (MonthlyStart n) cur
      then mkMonthly (MonthlyStart n) 1 (MonthlyAmount n) (MonthlyDescription n)
      else n
    else n in
  if MonthlyHasStarted n1 =? 1 then Some (n1, dd cur =? dd (MonthlyStart n1))
  else Some (n1, false).

(** Loop body of [AddInAllBimonthly] (lines 702-725).  The test
    [(CurrD == 15) || (CurrD == length[CurrM-1])] reads the table only when
    [CurrD] is not 15; [None] is that read out of bounds. *)
Definition visit_bimonthly (cur : date) (n : BimonthlyLink) : option (BimonthlyLink * bool) :=
  let n1 :=
    if BimonthlyHasStarted n =? 0 then
      if same_date (BimonthlyStart n) cur
      then mkBimonthly (BimonthlyStart n) 1 (BimonthlyAmount n) (BimonthlyDescription n)
      else n
    else n in
  if BimonthlyHasStarted n1 =? 1 then
    if dd cur =? 15 then Some (n1, true)
    else match length_at (dm cur) with
         | Some len => Some (n1, dd cur =? len)
         | None => None
         end
  else Some (n1, false).

(** ** The interface the scheduler uses *)

Class Schedulable (T : Type) := {
  visit : date -> T -> option (T * bool);
  amount : T -> Binary64.double;
  description : T -> string;
  visit_amount : forall d t t' b, visit d t = Some (t', b) -> amount t' = amount t;
  visit_description : forall d t t' b, visit d t = Some (t', b) -> description t' = description t;
  visit_total : forall d t, 1 <= dm d <= 12 -> is_Some (visit d t)
}.

Ltac visit_fields :=
  intros d t t' b H;
  unfold visit_once, visit_interval, visit_monthly, visit_bimonthly in H;
  repeat (case_match; cbn in *); simplify_eq; reflexivity.

Ltac visit_some :=
  intros d t Hm; unfold visit_once, visit_interval, visit_monthly, visit_bimonthly;
  destruct (length_at_in_range (dm d) Hm) as [len Hlen]; rewrite ?Hlen;
  repeat case_match; eauto.

#[export] Program Instance Schedulable_once : Schedulable OnceLink :=
  {| visit := visit_once; amount := OnceAmount; description := OnceDescription |}.
Next Obligation. visit_fields. Qed.
Next Obligation. visit_fields. Qed.
Next Obligation. visit_some. Qed.

#[export] Program Instance Schedulable_interval : Schedulable IntervalLink :=
  {| visit := visit_interval; amount := IntervalAmount; description := IntervalDescription |}.
Next Obligation. visit_fields. Qed.
Next Obligation. visit_fields. Qed.
Next Obligation. visit_some. Qed.

#[export] Program Instance Schedulable_monthly : Schedulable MonthlyLink :=
  {| visit := visit_monthly; amount := MonthlyAmount; description := MonthlyDescription |}.
Next Obligation. visit_fields. Qed.
Next Obligation. visit_fields. Qed.
Next Obligation. visit_some. Qed.

#[export] Program Instance Schedulable_bimonthly : Schedulable BimonthlyLink :=
  {| visit := visit_bimonthly; amount := BimonthlyAmount; description := BimonthlyDescription |}.
Next Obligation. visit_fields. Qed.
Next Obligation. visit_fields. Qed.
Next Obligation. visit_some. Qed.

(** ** Running one node over a sequence of days *)

(** The firing flags of one node visited on each day of [ds] in turn;
    [None] when a visit reads the month table out of bounds. *)
Fixpoint node_run {T} `{Schedulable T} (ds : list date) (t : T) : option (list bool) :=
  match ds with
  | [] => Some []
  | d :: ds' =>
      match visit d t with
      | Some (t', b) => option_map (cons b) (node_run ds' t')
      | None => None
      end
  end.

(** ** Abstract firing rules *)

Lemma same_date_spec a b : reflect (a = b) (same_date a b).
Proof.
  destruct a as [m1 d1 y1], b as [m2 d2 y2]; unfold same_date; simpl.
  destruct (Z.eqb_spec m1 m2), (Z.eqb_spec d1 d2), (Z.eqb_spec y1 y2); simpl;
    constructor; congruence.
Qed.

(** The period of an interval node: [Counter] climbs from 0 and is reset
    when it equals [Interval]; a non-positive [Interval] is only met after
    the short counter wraps around. *)
Definition period (i : Z) : Z := if 0 <? i then i else 2 ^ 16 + i.

(** Days since the last day equal to the start date, as seen after a visit. *)
Definition since_step (start cur : date) (a : option Z) : option Z :=
  if same_date start cur then Some 0 else option_map Z.succ a.

Definition interval_fires (start : date) (i : Z) (cur : date) (a : option Z) : bool :=
  match since_step start cur a with
  | Some k => k mod period i =? 0
  | None => false
  end.

Fixpoint interval_flags (start : date) (i : Z) (a : option Z) (ds : list date) : list bool :=
  match ds with
  | [] => []
  | d :: ds' => interval_fires start i d a :: interval_flags start i (since_step start d a) ds'
  end.

(** The fields of an interval node that encode [a] (days since start). *)
Definition interval_rel (n : IntervalLink) (a : option Z) : Prop :=
  in_short (Interval n) /\
  match a with
  | None => IntervalHasStarted n = 0
  | Some k => 0 <= k /\ IntervalHasStarted n = 1 /\ Counter n = to_short ((k + 1) mod period (Interval n))
  end.

Lemma period_range i : in_short i -> 1 <= period i <= 2 ^ 16.
Proof. unfold period, in_short, short_min, short_max. intros. zcase; lia. Qed.

Lemma to_short_zero j : 0 <= j < 2 ^ 16 -> (to_short j =? 0) = (j =? 0).
Proof. intros. unfold to_short. zcase; zlia. Qed.

Lemma to_short_succ j : to_short (to_short j + 1) = to_short (j + 1).
Proof. unfold to_short. zlia. Qed.

(** One tick of the counter: increment as a short, reset on [Interval]. *)
Lemma counter_tick i j c :
  in_short i -> 0 <= j < period i -> c = to_short j ->
  (if to_short (c + 1) =? i then 0 else to_short (c + 1)) = to_short ((j + 1) mod period i).
Proof.
  intros Hi Hj ->. rewrite to_short_succ. unfold period in *.
  unfold in_short, short_min, short_max in Hi.
  destruct (Z.ltb_spec 0 i).
  - rewrite (to_short_id (j + 1)) by (unfold in_short, short_min, short_max; lia).
    destruct (Z.eqb_spec (j + 1) i) as [<- | Hne].
    + rewrite Z.mod_same by lia. reflexivity.
    + rewrite Z.mod_small by lia. rewrite to_short_id; [reflexivity|].
      unfold in_short, short_min, short_max; lia.
  - destruct (Z.eqb_spec (to_short (j + 1)) i) as [He | Hne].
    + assert (j + 1 = 2 ^ 16 + i) as -> by (unfold to_short in He; zlia).
      rewrite Z.mod_same by lia. reflexivity.
    + rewrite (Z.mod_small (j + 1)); [reflexivity|].
      split; [lia|]. assert (j + 1 <> 2 ^ 16 + i); [|lia].
      intros E. apply Hne. rewrite E. unfold to_short. zlia.
Qed.

Ltac interval_fields := cbn [IntervalStart Interval IntervalHasStarted Counter IntervalAmount IntervalDescription] in *.

(** Refinement of one visit: the node's fields follow the abstract count. *)
Lemma visit_interval_refines cur n a :
  interval_rel n a ->
  exists n', visit_interval cur n = Some (n', interval_fires (IntervalStart n) (Interval n) cur a)
        /\ IntervalStart n' = IntervalStart n /\ Interval n' = Interval n
        /\ interval_rel n' (since_step (IntervalStart n) cur a).
Proof.
  destruct n as [st i hs c am de]; intros [Hi Ha]; interval_fields.
  pose proof (period_range i Hi) as Hp.
  unfold visit_interval, interval_fires, since_step, interval_rel; interval_fields.
  destruct (same_date_spec st cur) as [E | E]; interval_fields.
  - rewrite Z.eqb_refl. eexists. split; [reflexivity|]. interval_fields.
    split; [done|]. split; [done|]. split; [done|]. split; [lia|]. split; [done|].
    apply counter_tick; [done | lia | reflexivity].
  - destruct a as [k|]; cbn [option_map Z.succ] in *.
    + destruct Ha as (Hk & -> & ->). rewrite Z.eqb_refl.
      eexists; split.
      { f_equal. f_equal. rewrite to_short_zero by zlia. reflexivity. }
      interval_fields. split; [done|]. split; [done|]. split; [done|]. split; [lia|]. split; [done|].
      rewrite (counter_tick i ((k + 1) mod period i)); [| done | zlia | reflexivity].
      rewrite Z.add_mod_idemp_l by lia. f_equal.
    + rewrite Ha. eexists; split; [reflexivity|]. done.
Qed.

Lemma node_run_interval ds n a :
  interval_rel n a ->
  node_run ds n = Some (interval_flags (IntervalStart n) (Interval n) a ds).
Proof.
  revert n a. induction ds as [|d ds IH]; intros n a Hr; [done|]. simpl.
  destruct (visit_interval_refines d n a Hr) as (n' & -> & Hs & Hi & Hr').
  rewrite (IH n' _ Hr'), Hs, Hi. reflexivity.
Qed.

(** ** Days since the last start, over a history of days *)

Definition since_of (st : date) (a : option Z) (ds : list date) : option Z :=
  fold_left (fun a d => since_step st d a) ds a.

(** [j] is the last index of [ds] holding [st]. *)
Definition last_occ (st : date) (ds : list date) (j : nat) : Prop :=
  ds !! j = Some st /\ forall j', (j < j')%nat -> ds !! j' <> Some st.

Lemma last_occ_snoc_same st ds j :
  last_occ st (ds ++ [st]) j <-> j = length ds.
Proof.
  split.
  - intros [Hj Hlast]. destruct (Nat.lt_trichotomy j (length ds)) as [Hlt | [-> | Hgt]]; [| done |].
    + exfalso. apply (Hlast (length ds)); [lia|]. rewrite lookup_app_r by lia.
      rewrite Nat.sub_diag. reflexivity.
    + rewrite lookup_app_r in Hj by lia. rewrite lookup_ge_None_2 in Hj; [done | simpl; lia].
  - intros ->. split.
    + rewrite lookup_app_r by lia. rewrite Nat.sub_diag. reflexivity.
    + intros j' Hj'. rewrite lookup_app_r by lia. rewrite lookup_ge_None_2; [done | simpl; lia].
Qed.

Lemma last_occ_snoc_other st ds d j :
  d <> st -> last_occ st (ds ++ [d]) j <-> last_occ st ds j.
Proof.
  intros Hne. unfold last_occ.
  assert (Hl : forall j', (ds ++ [d]) !! j' = Some st <-> ds !! j' = Some st).
  { intros j'. destruct (decide (j' < length ds)%nat).
    - rewrite lookup_app_l by lia. done.
    - rewrite lookup_app_r by lia. rewrite (lookup_ge_None_2 ds j') by lia.
      destruct (j' - length ds)%nat; simpl; [split; [congruence | done] | rewrite lookup_nil; done]. }
  split; intros [Hj Hlast]; (split; [apply Hl; done|]); intros j' Hj' E; apply (Hlast j' Hj'), Hl, E.
Qed.

(** The abstract count is the distance to the last occurrence of the start. *)
Lemma since_of_None st ds k :
  since_of st None ds = Some k <->
  exists j, last_occ st ds j /\ k = Z.of_nat (length ds - 1 - j).
Proof.
  revert k. induction ds as [|d ds IH] using rev_ind; intros k.
  - simpl. split; [discriminate|]. intros (j & [Hj _] & _). done.
  - unfold since_of in *. rewrite fold_left_app. simpl. unfold since_step at 1.
    rewrite length_app. simpl.
    destruct (same_date_spec st d) as [<- | Hne].
    + split.
      * intros [= <-]. exists (length ds). split; [apply last_occ_snoc_same; done | lia].
      * intros (j & Hj & ->). apply last_occ_snoc_same in Hj as ->. f_equal. lia.
    + setoid_rewrite (last_occ_snoc_other st ds d); [| congruence].
      destruct (fold_left _ ds None) as [k'|] eqn:E; simpl.
      * destruct (proj1 (IH k') eq_refl) as (j & Hj & ->).
        assert (j < length ds)%nat by (destruct Hj as [Hj _]; apply lookup_lt_Some in Hj; lia).
        split.
        -- intros [= <-]. exists j. split; [done | lia].
        -- intros (j' & Hj' & ->).
           assert (j' = j) as ->.
           { destruct Hj as [Hj Hl], Hj' as [Hj' Hl'].
             destruct (Nat.lt_trichotomy j j') as [? | [? | ?]]; [exfalso; eapply Hl; eauto | done |].
             exfalso; eapply Hl'; eauto. }
           f_equal. lia.
      * split; [discriminate|]. intros (j & Hj & _).
        pose proof (proj2 (IH (Z.of_nat (length ds - 1 - j))) (ex_intro _ j (conj Hj eq_refl))).
        congruence.
Qed.

Lemma since_of_snoc st a ds d :
  since_of st a (ds ++ [d]) = since_step st d (since_of st a ds).
Proof. unfold since_of. rewrite fold_left_app. reflexivity. Qed.

Lemma interval_flags_lookup st i a ds t :
  interval_flags st i a ds !! t
  = (fun d => interval_fires st i d (since_of st a (take t ds))) <$> ds !! t.
Proof.
  revert a t. induction ds as [|d ds IH]; intros a [|t]; simpl; done.
Qed.

(** The interval rule over a sequence of days from a fresh count: day [t]
    fires exactly when the start occurs among days [0..t] and the distance
    to its last occurrence is a multiple of the period. *)
Lemma interval_flags_iff st i ds t :
  (t < length ds)%nat ->
  (interval_flags st i None ds !! t = Some true <->
   exists j, last_occ st (take (S t) ds) j /\ Z.of_nat (t - j) mod period i = 0).
Proof.
  intros Ht. rewrite interval_flags_lookup.
  destruct (lookup_lt_is_Some_2 ds t Ht) as [d Hd]. rewrite Hd. simpl.
  unfold interval_fires. rewrite <- since_of_snoc, <- take_S_r by done.
  destruct (since_of _ None (take (S t) ds)) as [k|] eqn:E.
  - apply since_of_None in E as (j & Hj & ->).
    rewrite length_take_le by lia.
    split.
    + intros [= Hk]. apply Z.eqb_eq in Hk. exists j. split; [done|].
      rewrite <- Hk. do 3 f_equal. lia.
    + intros (j' & Hj' & Hm).
      assert (j' = j) as ->.
      { destruct Hj as [Hj Hl], Hj' as [Hj' Hl'].
        destruct (Nat.lt_trichotomy j j') as [? | [? | ?]]; [exfalso; eapply Hl; eauto | done |].
        exfalso; eapply Hl'; eauto. }
      f_equal. apply Z.eqb_eq. rewrite <- Hm. do 3 f_equal. lia.
  - split; [discriminate|]. intros (j & Hj & _).
    assert (since_of st None (take (S t) ds) = Some (Z.of_nat (length (take (S t) ds) - 1 - j)))
      by (apply since_of_None; eauto).
    congruence.
Qed.

(** C3. An interval node as the loader builds it ([HasStarted] 0, any short
    [Interval]) fires on day [t] of a sequence of days exactly when the
    start date occurs among days [0..t] and the number of days since its
    last occurrence is a multiple of [period Interval] (which is [Interval]
    itself when it is positive). *)
Theorem interval_fires_iff ds n t :
  IntervalHasStarted n = 0 -> in_short (Interval n) -> (t < length ds)%nat ->
  exists fl, node_run ds n = Some fl /\
    (fl !! t = Some true <->
     exists j, last_occ (IntervalStart n) (take (S t) ds) j /\
               Z.of_nat (t - j) mod period (Interval n) = 0).
Proof.
  intros Hs Hi Ht. eexists. split; [apply (node_run_interval ds n None); split; done|].
  apply interval_flags_iff, Ht.
Qed.

(** ** Monthly and Bimonthly: a [HasStarted] flag and a day test *)

(** Firing flags of a node that starts on [st] and then fires on the days
    satisfying [p]; [b] says whether it has already started. *)
Fixpoint flag_flags (st : date) (p : date -> bool) (b : bool) (ds : list date) : list bool :=
  match ds with
  | [] => []
  | d :: ds' =>
      let b' := b || same_date st d in
      (b' && p d) :: flag_flags st p b' ds'
  end.

Definition flag_rel (hs : Z) (b : bool) : Prop := hs = if b then 1 else 0.

(** The day test of [AddInAllBimonthly]: the 15th or [length[CurrM-1]]. *)
Definition bimonthly_day (d : date) : bool :=
  (dd d =? 15) || match length_at (dm d) with Some len => dd d =? len | None => false end.

Lemma visit_monthly_refines cur n b :
  flag_rel (MonthlyHasStarted n) b ->
  exists n', visit_monthly cur n =
             Some (n', (b || same_date (MonthlyStart n) cur) && (dd cur =? dd (MonthlyStart n)))
        /\ MonthlyStart n' = MonthlyStart n
        /\ flag_rel (MonthlyHasStarted n') (b || same_date (MonthlyStart n) cur).
Proof.
  destruct n as [st hs am de]; unfold flag_rel, visit_monthly; simpl; intros ->.
  destruct b, (same_date st cur); simpl; eexists; split; reflexivity || (split; reflexivity).
Qed.

Lemma visit_bimonthly_refines cur n b :
  flag_rel (BimonthlyHasStarted n) b -> 1 <= dm cur <= 12 ->
  exists n', visit_bimonthly cur n =
             Some (n', (b || same_date (BimonthlyStart n) cur) && bimonthly_day cur)
        /\ BimonthlyStart n' = BimonthlyStart n
        /\ flag_rel (BimonthlyHasStarted n') (b || same_date (BimonthlyStart n) cur).
Proof.
  destruct n as [st hs am de]; unfold flag_rel, visit_bimonthly, bimonthly_day; simpl; intros -> Hm.
  destruct (length_at (dm cur)) eqn:E.
  - destruct b, (same_date st cur), (dd cur =? 15); simpl; eexists; split; reflexivity || (split; reflexivity).
  - destruct (length_at_in_range (dm cur) Hm). congruence.
Qed.

Lemma node_run_monthly ds n b :
  flag_rel (MonthlyHasStarted n) b ->
  node_run ds n = Some (flag_flags (MonthlyStart n) (fun d => dd d =? dd (MonthlyStart n)) b ds).
Proof.
  revert n b. induction ds as [|d ds IH]; intros n b Hr; [done|]. simpl.
  destruct (visit_monthly_refines d n b Hr) as (n' & -> & Hs & Hr').
  rewrite (IH n' _ Hr'), Hs. reflexivity.
Qed.

Lemma node_run_bimonthly ds n b :
  flag_rel (BimonthlyHasStarted n) b -> Forall (fun d => 1 <= dm d <= 12) ds ->
  node_run ds n = Some (flag_flags (BimonthlyStart n) bimonthly_day b ds).
Proof.
  revert n b. induction ds as [|d ds IH]; intros n b Hr Hds; [done|]. simpl.
  inversion Hds as [|? ? Hd Hds']; subst.
  destruct (visit_bimonthly_refines d n b Hr Hd) as (n' & -> & Hs & Hr').
  rewrite (IH n' _ Hr' Hds'), Hs. reflexivity.
Qed.

Lemma flag_flags_lookup st p b ds t :
  flag_flags st p b ds !! t
  = (fun d => (b || existsb (same_date st) (take (S t) ds)) && p d) <$> ds !! t.
Proof.
  revert b t. induction ds as [|d ds IH]; intros b [|t]; simpl; try done.
  - rewrite orb_false_r. reflexivity.
  - rewrite IH. destruct (ds !! t); simpl; [| done]. rewrite orb_assoc. reflexivity.
Qed.

Lemma existsb_same_date st l :
  existsb (same_date st) l = true <-> exists j, l !! j = Some st.
Proof.
  rewrite existsb_exists. split.
  - intros (x & Hx & E). destruct (same_date_spec st x); [subst | done].
    apply list_elem_of_In, list_elem_of_lookup in Hx. done.
  - intros (j & Hj). exists st. split; [eapply list_elem_of_In, list_elem_of_lookup; eauto|].
    destruct (same_date_spec st st); done.
Qed.

(** A node of a flag kind fires on day [t] exactly when the start date
    occurred on one of the days [0..t] and day [t] passes the day test. *)
Lemma flag_flags_iff st p ds t :
  (t < length ds)%nat ->
  (flag_flags st p false ds !! t = Some true <->
   (exists j, (j <= t)%nat /\ ds !! j = Some st) /\ exists d, ds !! t = Some d /\ p d = true).
Proof.
  intros Ht. rewrite flag_flags_lookup.
  destruct (lookup_lt_is_Some_2 ds t Ht) as [d Hd]. rewrite Hd. simpl.
  split.
  - intros [= E]. apply andb_true_iff in E as [E1 E2]. split; [|eauto].
    apply existsb_same_date in E1 as (j & Hj). apply lookup_take_Some in Hj as [Hj Hlt].
    exists j. split; [lia | done].
  - intros [(j & Hj & Hjd) (d' & Hd' & Hp)]. simplify_eq. f_equal. rewrite Hp, andb_true_r.
    apply existsb_same_date. exists j. apply lookup_take_Some. split; [done | lia].
Qed.

(** C4. A monthly node as the loader builds it fires on day [t] exactly
    when its start date occurred on one of the days [0..t] and day [t] has
    the start's day of month. *)
Theorem monthly_fires_iff ds n t :
  MonthlyHasStarted n = 0 -> (t < length ds)%nat ->
  exists fl, node_run ds n = Some fl /\
    (fl !! t = Some true <->
     (exists j, (j <= t)%nat /\ ds !! j = Some (MonthlyStart n)) /\
     exists d, ds !! t = Some d /\ dd d = dd (MonthlyStart n)).
Proof.
  intros Hs Ht. eexists. split; [apply (node_run_monthly ds n false); done|].
  rewrite flag_flags_iff by done.
  setoid_rewrite Z.eqb_eq. reflexivity.
Qed.

Lemma bimonthly_day_spec d :
  1 <= dm d <= 12 -> 1 <= dd d ->
  bimonthly_day d = true <-> dd d = 15 \/ (dm d <> 2 /\ dd d = month_days (dy d) (dm d)).
Proof.
  intros Hm Hd. unfold bimonthly_day, month_days.
  destruct (Z.eqb_spec (dm d) 2) as [E | E].
  - rewrite E. simpl. destruct (Z.eqb_spec (dd d) 15); simpl; [tauto|].
    destruct (Z.eqb_spec (dd d) 0); [lia|]. split; [discriminate | intuition].
  - rewrite (length_at_month_days (dy d) (dm d) Hm E), orb_true_iff, !Z.eqb_eq. tauto.
Qed.

(** C5. A bimonthly node as the loader builds it, visited on days whose
    month is in 1..12, fires on day [t] exactly when its start date
    occurred on one of the days [0..t] and day [t] is the 15th or the last
    day of a month other than February: the table's 0 for February means
    it never fires at the end of February. *)
Theorem bimonthly_fires_iff ds n t :
  BimonthlyHasStarted n = 0 -> Forall (fun d => 1 <= dm d <= 12 /\ 1 <= dd d) ds ->
  (t < length ds)%nat ->
  exists fl, node_run ds n = Some fl /\
    (fl !! t = Some true <->
     (exists j, (j <= t)%nat /\ ds !! j = Some (BimonthlyStart n)) /\
     exists d, ds !! t = Some d /\
       (dd d = 15 \/ (dm d <> 2 /\ dd d = month_days (dy d) (dm d)))).
Proof.
  intros Hs Hds Ht. eexists. split.
  { apply (node_run_bimonthly ds n false); [done|]. eapply Forall_impl; [| exact Hds]. naive_solver. }
  rewrite flag_flags_iff by done.
  split; intros [Hj (d & Hd & Hp)]; (split; [done|]); exists d; (split; [done|]);
    pose proof (proj1 (Forall_lookup _ _) Hds t d Hd) as [Hm Hdd];
    apply (bimonthly_day_spec d Hm Hdd); done.
Qed.

(** ** Witnesses on a concrete week *)

Definition sample_week : list date :=
  [mkDate 1 1 2020; mkDate 1 2 2020; mkDate 1 3 2020; mkDate 1 4 2020;
   mkDate 1 5 2020; mkDate 1 6 2020; mkDate 1 7 2020].

Lemma interval_fires_iff_witness :
  exists fl, node_run sample_week (mkInterval (mkDate 1 2 2020) 2 0 0 (Binary64.of_Z (-5)) "Gym") = Some fl /\
    (fl !! 3%nat = Some true <->
     exists j, last_occ (mkDate 1 2 2020) (take 4 sample_week) j /\ Z.of_nat (3 - j) mod period 2 = 0).
Proof.
  apply (interval_fires_iff sample_week (mkInterval (mkDate 1 2 2020) 2 0 0 (Binary64.of_Z (-5)) "Gym") 3);
    [reflexivity | unfold in_short, short_min, short_max; simpl; lia | simpl; lia].
Defined.

Lemma monthly_fires_iff_witness :
  exists fl, node_run sample_week (mkMonthly (mkDate 1 3 2020) 0 (Binary64.of_Z (-35)) "FastLane") = Some fl /\
    (fl !! 2%nat = Some true <->
     (exists j, (j <= 2)%nat /\ sample_week !! j = Some (mkDate 1 3 2020)) /\
     exists d, sample_week !! 2%nat = Some d /\ dd d = 3).
Proof.
  apply (monthly_fires_iff sample_week (mkMonthly (mkDate 1 3 2020) 0 (Binary64.of_Z (-35)) "FastLane") 2);
    [reflexivity | simpl; lia].
Defined.

Lemma bimonthly_fires_iff_witness :
  exists fl, node_run [mkDate 2 14 2004; mkDate 2 15 2004; mkDate 2 29 2004]
                (mkBimonthly (mkDate 2 14 2004) 0 (Binary64.of_Z 12) "Pay") = Some fl /\
    (fl !! 2%nat = Some true <->
     (exists j, (j <= 2)%nat /\ [mkDate 2 14 2004; mkDate 2 15 2004; mkDate 2 29 2004] !! j
                                 = Some (mkDate 2 14 2004)) /\
     exists d, [mkDate 2 14 2004; mkDate 2 15 2004; mkDate 2 29 2004] !! 2%nat = Some d /\
       (dd d = 15 \/ (dm d <> 2 /\ dd d = month_days (dy d) (dm d)))).
Proof.
  apply (bimonthly_fires_iff _ (mkBimonthly (mkDate 2 14 2004) 0 (Binary64.of_Z 12) "Pay") 2);
    [reflexivity | repeat constructor; simpl; lia | simpl; lia].
Defined.

End Transactions.
