(* ===== verification/Scheduler.v ===== *)
(** * Scheduler: the AddInAll traversals, one day's work and the main loop

    Models the four AddInAll functions of src/BillIntervals.cpp (lines
    610-729) as one traversal [add_in_all] over any [Schedulable] node
    kind, one day's work of [main] (lines 161-165), and the [while (!done)]
    loop of [main] (lines 149-169) as [main_loop] with fuel, together with
    the transition system [loop_step] of that loop.  Bills.csv is the list of
    [entry] values written so far ([BillsOut]); [Balance] is the [double]
    of line 138, set to [0.0] and updated by [Balance+=current->Amount] in
    binary64 ([Binary64.dadd]), and each line holds the two [double]s it
    writes.  The theorems: the loop stops at End after exactly
    [days_of End - days_of Begin] days when both dates are valid and Begin
    precedes End; it never stops when End is not a valid date; each line
    carries the binary64 running balance and the final [Balance] is the
    left-to-right binary64 sum of the amounts written.  The fuel
    interpreter agrees with the step relation, which [Invariants] uses. *)

From stdpp Require Import relations.
From S2P Require Import Prelude Binary64 Calendar Transactions.
Import Calendar Transactions.
Open Scope Z_scope.

Module Scheduler.

(** One line of Bills.csv: [Balance,Amount,Month-Day-Year,Description]
    ([BillsOut << Balance << ","] then [PrintTransaction], lines 602-607). *)
Record entry := mkEntry {
  EBalance : Binary64.double;
  EAmount : Binary64.double;
  EMonth : Z;
  EDay : Z;
  EYear : Z;
  EDescription : string }.

(** The [while (current != NULL)] loop of an AddInAll function: visit each
    node in list order; a node that fires adds its amount to [Balance]
    ([Balance+=current->Amount], a binary64 addition) and writes one line
    with the new balance.  [None] when a visit reads the month table out of
    bounds. *)
Fixpoint add_in_all {T} `{Schedulable T} (cur : date) (l : list T) (bal : Binary64.double)
  : option (list T * Binary64.double * list entry) :=
  match l with
  | [] => Some ([], bal, [])
  | n :: l' =>
      match visit cur n with
      | None => None
      | Some (n', fires) =>
          let bal' := if fires then Binary64.dadd bal (amount n') else bal in
          let out := if fires
                     then [mkEntry bal' (amount n') (dm cur) (dd cur) (dy cur) (description n')]
                     else [] in
          match add_in_all cur l' bal' with
          | None => None
          | Some (l'', bal'', out') => Some (n' :: l'', bal'', out ++ out')
          end
      end
  end.

Definition AddInAllOnce (cur : date) (l : list OnceLink) (bal : Binary64.double) :=
  add_in_all cur l bal.
Definition AddInAllInterval (cur : date) (l : list IntervalLink) (bal : Binary64.double) :=
  add_in_all cur l bal.
Definition AddInAllMonthly (cur : date) (l : list MonthlyLink) (bal : Binary64.double) :=
  add_in_all cur l bal.
Definition AddInAllBimonthly (cur : date) (l : list BimonthlyLink) (bal : Binary64.double) :=
  add_in_all cur l bal.

(** The variables of [main] that the loop reads and writes. *)
Record state := mkState {
  Curr : date;
  Balance : Binary64.double;
  headOnce : list OnceLink;
  headInterval : list IntervalLink;
  headMonthly : list MonthlyLink;
  headBimonthly : list BimonthlyLink;
  BillsOut : list entry }.

(** [// do day's work:] the four traversals in the source's order. *)
Definition day_work (s : state) : option state :=
  '(o, b1, e1) ← AddInAllOnce (Curr s) (headOnce s) (Balance s);
  '(i, b2, e2) ← AddInAllInterval (Curr s) (headInterval s) b1;
  '(m, b3, e3) ← AddInAllMonthly (Curr s) (headMonthly s) b2;
  '(bi, b4, e4) ← AddInAllBimonthly (Curr s) (headBimonthly s) b3;
  Some (mkState (Curr s) b4 o i m bi (BillsOut s ++ e1 ++ e2 ++ e3 ++ e4)).

Definition set_Curr (d : date) (s : state) : state :=
  mkState d (Balance s) (headOnce s) (headInterval s) (headMonthly s) (headBimonthly s) (BillsOut s).

(** How a run of the loop ends. *)
Inductive outcome :=
| Finished (s : state)
| Undefined
| OutOfFuel.

(** [while (!done) { day's work; AdvanceDate; if (Curr == End) done = 1; }] *)
Fixpoint main_loop (fuel : nat) (End : date) (s : state) : outcome :=
  match fuel with
  | O => OutOfFuel
  | S fuel' =>
      match day_work s with
      | None => Undefined
      | Some s1 =>
          match AdvanceDate (Curr s1) with
          | None => Undefined
          | Some d =>
              if same_date d End then Finished (set_Curr d s1)
              else main_loop fuel' End (set_Curr d s1)
          end
      end
  end.

(** [CurrM=BeginM; ...; Balance = 0.0;] with the lists read by [GetBills]. *)
Definition init_state (Begin : date) (o : list OnceLink) (i : list IntervalLink)
    (m : list MonthlyLink) (bi : list BimonthlyLink) : state :=
  mkState Begin (Binary64.of_Z 0) o i m bi [].

(** The loop as a transition system: [Running s] before a day's work,
    [Done s] once [done = 1], [Stuck] after undefined behaviour. *)
Inductive loop_state :=
| Running (s : state)
| Done (s : state)
| Stuck.

(** One iteration of [while (!done)], rule by rule. *)
Inductive loop_step (End : date) : loop_state -> loop_state -> Prop :=
| step_work_undefined s :
    day_work s = None -> loop_step End (Running s) Stuck
| step_advance_undefined s s1 :
    day_work s = Some s1 -> AdvanceDate (Curr s1) = None -> loop_step End (Running s) Stuck
| step_done s s1 d :
    day_work s = Some s1 -> AdvanceDate (Curr s1) = Some d -> same_date d End = true ->
    loop_step End (Running s) (Done (set_Curr d s1))
| step_next s s1 d :
    day_work s = Some s1 -> AdvanceDate (Curr s1) = Some d -> same_date d End = false ->
    loop_step End (Running s) (Running (set_Curr d s1)).

(** Spec section 8, scenario 1: Begin 01.01.2020, End 01.03.2020 and one
    Once transaction of 10.00 on 01.01.2020 give one line and balance 10.00. *)
Example scenario_once :
  main_loop 10 (mkDate 1 3 2020)
    (init_state (mkDate 1 1 2020) [mkOnce (mkDate 1 1 2020) (Binary64.of_Z 10) "Pay"] [] [] [])
  = Finished (mkState (mkDate 1 3 2020) (Binary64.of_Z 10)
                [mkOnce (mkDate 1 1 2020) (Binary64.of_Z 10) "Pay"] [] [] []
                [mkEntry (Binary64.of_Z 10) (Binary64.of_Z 10) 1 1 2020 "Pay"]).
Proof. vm_compute. reflexivity. Qed.

(** ** Totality of one day's work on dates with a month in 1..12 *)

Lemma add_in_all_some {T} `{Schedulable T} cur (l : list T) bal :
  1 <= dm cur <= 12 -> exists l' bal' out, add_in_all cur l bal = Some (l', bal', out).
Proof.
  intros Hm. revert bal. induction l as [|n l IH]; intros bal; simpl; [eauto|].
  destruct (visit_total cur n Hm) as [[n' b] ->].
  destruct (IH (if b then Binary64.dadd bal (amount n') else bal)) as (l' & bal' & out & ->). eauto.
Qed.

Lemma day_work_some s :
  1 <= dm (Curr s) <= 12 -> exists s1, day_work s = Some s1 /\ Curr s1 = Curr s.
Proof.
  intros Hm. unfold day_work, AddInAllOnce, AddInAllInterval, AddInAllMonthly, AddInAllBimonthly.
  destruct (add_in_all_some (Curr s) (headOnce s) (Balance s) Hm) as (? & b1 & ? & ->). simpl.
  destruct (add_in_all_some (Curr s) (headInterval s) b1 Hm) as (? & b2 & ? & ->). simpl.
  destruct (add_in_all_some (Curr s) (headMonthly s) b2 Hm) as (? & b3 & ? & ->). simpl.
  destruct (add_in_all_some (Curr s) (headBimonthly s) b3 Hm) as (? & b4 & ? & ->). simpl.
  eauto.
Qed.

Lemma valid_month d : valid_date d = true -> 1 <= dm d <= 12.
Proof. rewrite valid_date_spec. tauto. Qed.

(** [AdvanceDate] keeps every valid date valid, the last short year
    included (its 31 December wraps to 1 January of year -32768). *)
Lemma AdvanceDate_valid d :
  valid_date d = true -> exists d', AdvanceDate d = Some d' /\ valid_date d' = true.
Proof.
  intros V. destruct (decide (d = last_date)) as [-> | Hne].
  - exists (mkDate 1 1 short_min). split; reflexivity.
  - destruct (AdvanceDate_step d V Hne) as (d' & ? & ? & _). eauto.
Qed.

(** One iteration of the loop from a valid date. *)
Lemma main_loop_S fuel End s :
  valid_date (Curr s) = true ->
  exists s1 d, day_work s = Some s1 /\ Curr s1 = Curr s /\ AdvanceDate (Curr s) = Some d
    /\ valid_date d = true
    /\ main_loop (S fuel) End s =
       if same_date d End then Finished (set_Curr d s1) else main_loop fuel End (set_Curr d s1).
Proof.
  intros V. destruct (day_work_some s (valid_month _ V)) as (s1 & Hs1 & Hc).
  destruct (AdvanceDate_valid _ V) as (d & Hd & Vd).
  exists s1, d. simpl. rewrite Hs1, Hc, Hd. done.
Qed.

Lemma same_date_true a b : same_date a b = true <-> a = b.
Proof. destruct (same_date_spec a b); split; congruence. Qed.

(** The loop from a date [n+1] days before a valid End: it stops after
    exactly [n+1] iterations, at End. *)
Lemma main_loop_reaches n fuel End s :
  valid_date (Curr s) = true -> valid_date End = true ->
  days_of (Curr s) + Z.of_nat (S n) = days_of End ->
  (n < fuel)%nat -> exists s', main_loop fuel End s = Finished s' /\ Curr s' = End.
Proof.
  revert fuel s. induction n as [|n IH]; intros fuel s V VE Hd Hf;
    (destruct fuel as [|fuel]; [lia|]);
    pose proof (days_of_le_last End VE);
    assert (Curr s <> last_date) by (intros E; rewrite E in Hd; lia);
    destruct (AdvanceDate_step _ V H0) as (d & Hd' & Vd & Ed);
    destruct (main_loop_S fuel End s V) as (s1 & d' & _ & _ & Hd'' & _ & ->);
    rewrite Hd' in Hd''; injection Hd'' as <-.
  - assert (d = End) as <- by (apply days_of_inj; [done | done | lia]).
    rewrite (proj2 (same_date_true d d) eq_refl). eexists; split; reflexivity.
  - destruct (same_date_spec d End) as [<- | _]; [lia|].
    apply IH; [done | done | simpl; lia | lia].
Qed.

(** Before End is reached the loop asks for more fuel. *)
Lemma main_loop_short n fuel End s :
  valid_date (Curr s) = true -> valid_date End = true ->
  days_of (Curr s) + Z.of_nat (S n) = days_of End ->
  (fuel <= n)%nat -> main_loop fuel End s = OutOfFuel.
Proof.
  revert n s. induction fuel as [|fuel IH]; intros n s V VE Hd Hf; [done|].
  destruct (main_loop_S fuel End s V) as (s1 & d & _ & Hc & Hd' & Vd & ->).
  pose proof (days_of_le_last End VE).
  assert (Curr s <> last_date) by (intros E; rewrite E in Hd; lia).
  destruct (AdvanceDate_step _ V H0) as (d' & Hd'' & _ & Ed).
  rewrite Hd' in Hd''. injection Hd'' as <-.
  destruct (same_date_spec d End) as [<- | _]; [lia|].
  apply (IH (pred n)); [done | done | simpl; lia | lia].
Qed.

(** C1. With valid Begin and End dates and Begin before End, the main loop
    runs its body exactly [days_of End - days_of Begin] times and stops
    with [Curr] equal to End: with less fuel it is still running, with at
    least that much it has finished. *)
Theorem main_loop_terminates Begin End o i m bi fuel :
  valid_date Begin = true -> valid_date End = true -> days_of Begin < days_of End ->
  let N := Z.to_nat (days_of End - days_of Begin) in
  ((fuel < N)%nat -> main_loop fuel End (init_state Begin o i m bi) = OutOfFuel) /\
  ((N <= fuel)%nat ->
   exists s', main_loop fuel End (init_state Begin o i m bi) = Finished s' /\ Curr s' = End).
Proof.
  intros VB VE Hlt N.
  assert (HN : days_of Begin + Z.of_nat (S (pred N)) = days_of End) by (subst N; lia).
  split; intros Hf.
  - apply (main_loop_short (pred N)); [done | done | done | lia].
  - apply (main_loop_reaches (pred N)); [done | done | done | lia].
Qed.

(** The loop never stops on a date whose ordinal is above End's, as long
    as it has not passed [last_date]. *)
Lemma main_loop_past_end fuel End s :
  valid_date (Curr s) = true -> days_of End <= days_of (Curr s) ->
  days_of (Curr s) + Z.of_nat fuel <= days_of last_date ->
  main_loop fuel End s = OutOfFuel.
Proof.
  revert s. induction fuel as [|fuel IH]; intros s V Hle Hlast; [done|].
  destruct (main_loop_S fuel End s V) as (s1 & d & _ & Hc & Hd & Vd & ->).
  assert (Curr s <> last_date) by (intros E; rewrite E in Hlast; lia).
  destruct (AdvanceDate_step _ V H) as (d' & Hd' & _ & Ed).
  rewrite Hd in Hd'. injection Hd' as <-.
  destruct (same_date_spec d End) as [<- | _]; [lia|].
  apply IH; simpl; [done | lia | lia].
Qed.

(** C7. When End does not come after Begin (in particular when End equals
    Begin), the main loop does not stop at End: it is still running after
    every day up to 31 December 32767. *)
Theorem main_loop_end_not_after_begin Begin End o i m bi fuel :
  valid_date Begin = true -> days_of End <= days_of Begin ->
  Z.of_nat fuel <= days_of last_date - days_of Begin ->
  main_loop fuel End (init_state Begin o i m bi) = OutOfFuel.
Proof.
  intros VB Hle Hf. pose proof (days_of_le_last Begin VB).
  apply main_loop_past_end; simpl; [done | done | lia].
Qed.

(** C6. An End that is not a valid date (the parser accepts 02.30.2003 or
    13.01.2003) is never met: the main loop runs forever. *)
Theorem main_loop_diverges fuel End s :
  valid_date (Curr s) = true -> valid_date End = false ->
  main_loop fuel End s = OutOfFuel.
Proof.
  revert s. induction fuel as [|fuel IH]; intros s V VE; [done|].
  destruct (main_loop_S fuel End s V) as (s1 & d & _ & Hc & _ & Vd & ->).
  destruct (same_date_spec d End) as [<- | _]; [congruence|].
  apply IH; [done | done].
Qed.

(** ** The fuel interpreter and the step relation *)

Lemma loop_step_final End x y : loop_step End x y -> exists s, x = Running s.
Proof. intros []; eauto. Qed.

Lemma nsteps_final End k x y :
  nsteps (loop_step End) k x y -> (forall s, x <> Running s) -> y = x.
Proof.
  intros Hn Hx. destruct Hn as [|k' x' y' z Hs _]; [done|].
  destruct (loop_step_final _ _ _ Hs) as [s' ->]. exfalso; eapply Hx; done.
Qed.

(** The fuel interpreter [main_loop] agrees with the transition system of
    the loop: it finishes in state [s'] within [fuel] iterations exactly
    when [loop_step] leads from [Running s] to [Done s'] in at most [fuel]
    steps.  The invariants of [Invariants], proved on [loop_step], so hold
    of every run of [main_loop]. *)
Theorem main_loop_step_equiv fuel End s s' :
  main_loop fuel End s = Finished s' <->
  exists n, (n < fuel)%nat /\ nsteps (loop_step End) (S n) (Running s) (Done s').
Proof.
  revert s. induction fuel as [|f IH]; intros s; simpl.
  { split; [discriminate | intros (n & Hn & _); lia]. }
  split.
  - destruct (day_work s) as [s1|] eqn:W; [|discriminate].
    destruct (AdvanceDate (Curr s1)) as [d|] eqn:A; [|discriminate].
    destruct (same_date d End) eqn:E.
    + intros [= <-]. exists 0%nat. split; [lia|]. eapply nsteps_l; [econstructor; eauto | constructor].
    + intros H. apply IH in H as (n & Hn & Hs). exists (S n). split; [lia|].
      eapply nsteps_l; [eapply step_next; eauto | exact Hs].
  - intros (n & Hn & Hs). invc Hs. match goal with H : loop_step _ _ _ |- _ => invc H end;
      repeat match goal with H : ?a = _ |- context [?a] => rewrite H end.
    + apply nsteps_final in H1; [discriminate | intros ? [=]].
    + apply nsteps_final in H1; [discriminate | intros ? [=]].
    + apply nsteps_final in H1; [congruence | intros ? [=]].
    + destruct n as [|n]; [invc H1|]. apply IH. exists n. split; [lia | done].
Qed.

(** ** The balance column of Bills.csv *)

(** The accumulation [Balance+=current->Amount] over the lines [l], from
    [b]: a left fold of binary64 additions, the accumulator first. *)
Definition running (b : Binary64.double) (l : list entry) : Binary64.double :=
  fold_left (fun acc e => Binary64.dadd acc (EAmount e)) l b.

(** Each line's balance is the previous balance plus the line's amount,
    added in binary64. *)
Fixpoint ledger_ok (b : Binary64.double) (l : list entry) : Prop :=
  match l with
  | [] => True
  | e :: l' => EBalance e = Binary64.dadd b (EAmount e) /\ ledger_ok (EBalance e) l'
  end.

Lemma running_app b l1 l2 : running b (l1 ++ l2) = running (running b l1) l2.
Proof. apply fold_left_app. Qed.

Lemma running_cons b e l : running b (e :: l) = running (Binary64.dadd b (EAmount e)) l.
Proof. reflexivity. Qed.

Lemma ledger_ok_app b l1 l2 :
  ledger_ok b (l1 ++ l2) <-> ledger_ok b l1 /\ ledger_ok (running b l1) l2.
Proof.
  revert b. induction l1 as [|e l1 IH]; intros b; cbn [app ledger_ok].
  - tauto.
  - rewrite IH, running_cons.
    split; [intros (E & H1 & H2) | intros ((E & H1) & H2)]; rewrite <- E in *; tauto.
Qed.

#[export] Hint Rewrite running_app ledger_ok_app : bills_rw.

(** The lines an AddInAll writes continue the balance it was given, and
    the balance it returns is that balance with their amounts added. *)
Lemma add_in_all_ledger {T} `{Schedulable T} cur (l : list T) bal l' bal' out :
  add_in_all cur l bal = Some (l', bal', out) ->
  ledger_ok bal out /\ bal' = running bal out.
Proof.
  revert bal l' bal' out. induction l as [|n l IH]; intros bal l' bal' out Hr; simpl in Hr.
  - injection Hr as <- <- <-. done.
  - destruct (visit cur n) as [[n' b]|]; [|discriminate].
    destruct (add_in_all cur l _) as [[[l'' bal''] out']|] eqn:E; [|discriminate].
    injection Hr as <- <- <-. apply IH in E as [Hok ->].
    destruct b; cbn [app ledger_ok EBalance EAmount]; [rewrite running_cons|]; done.
Qed.

Definition balance_inv (s : state) : Prop :=
  ledger_ok (Binary64.of_Z 0) (BillsOut s) /\ Balance s = running (Binary64.of_Z 0) (BillsOut s).

(** Inversion of one day's work: the four traversals and the new state. *)
Lemma day_work_Some s s1 :
  day_work s = Some s1 ->
  exists o b1 e1 i b2 e2 m b3 e3 bi b4 e4,
    add_in_all (Curr s) (headOnce s) (Balance s) = Some (o, b1, e1) /\
    add_in_all (Curr s) (headInterval s) b1 = Some (i, b2, e2) /\
    add_in_all (Curr s) (headMonthly s) b2 = Some (m, b3, e3) /\
    add_in_all (Curr s) (headBimonthly s) b3 = Some (bi, b4, e4) /\
    s1 = mkState (Curr s) b4 o i m bi (BillsOut s ++ e1 ++ e2 ++ e3 ++ e4).
Proof.
  unfold day_work, AddInAllOnce, AddInAllInterval, AddInAllMonthly, AddInAllBimonthly. intros Hs.
  destruct (add_in_all _ (headOnce s) _) as [[[o b1] e1]|] eqn:E1; [|discriminate]. simpl in Hs.
  destruct (add_in_all _ (headInterval s) _) as [[[i b2] e2]|] eqn:E2; [|discriminate]. simpl in Hs.
  destruct (add_in_all _ (headMonthly s) _) as [[[m b3] e3]|] eqn:E3; [|discriminate]. simpl in Hs.
  destruct (add_in_all _ (headBimonthly s) _) as [[[bi b4] e4]|] eqn:E4; [|discriminate]. simpl in Hs.
  injection Hs as <-. do 12 eexists. repeat split; eassumption.
Qed.

Lemma day_work_inv s s1 : balance_inv s -> day_work s = Some s1 -> balance_inv s1.
Proof.
  unfold balance_inv. intros [Hok Hb] Hs.
  apply day_work_Some in Hs as (o & b1 & e1 & i & b2 & e2 & m & b3 & e3 & bi & b4 & e4 & E1 & E2 & E3 & E4 & ->).
  cbn [BillsOut Balance].
  apply add_in_all_ledger in E1 as [O1 ->], E2 as [O2 ->], E3 as [O3 ->], E4 as [O4 ->].
  autorewrite with bills_rw. rewrite <- Hb. tauto.
Qed.

(** Any property kept by one day's work and by moving to the next date
    holds of the state the loop finishes in. *)
Lemma main_loop_preserves (I : state -> Prop) fuel End s s' :
  (forall s s1, I s -> day_work s = Some s1 -> I s1) ->
  (forall s d, I s -> AdvanceDate (Curr s) = Some d -> I (set_Curr d s)) ->
  I s -> main_loop fuel End s = Finished s' -> I s'.
Proof.
  intros Hw Ha. revert s. induction fuel as [|fuel IH]; intros s Hi Hr; simpl in Hr; [discriminate|].
  destruct (day_work s) as [s1|] eqn:E; [|discriminate].
  apply (Hw s s1 Hi) in E.
  destruct (AdvanceDate (Curr s1)) as [d|] eqn:A; [|discriminate].
  apply (Ha _ _ E) in A.
  destruct (same_date d End); [injection Hr as <-; exact A | exact (IH _ A Hr)].
Qed.

Lemma main_loop_inv fuel End s s' :
  balance_inv s -> main_loop fuel End s = Finished s' -> balance_inv s'.
Proof. apply main_loop_preserves; [exact day_work_inv | intros s0 d H _; exact H]. Qed.

(** C2. When the main loop finishes, every line of Bills.csv carries the
    running balance as the program computes it: the previous line's
    balance (from [0.0]) plus the line's amount, added in binary64, and
    the final [Balance] is the left-to-right binary64 sum of the amounts
    written, in the order they were written. *)
Theorem main_loop_balance fuel Begin End o i m bi s' :
  main_loop fuel End (init_state Begin o i m bi) = Finished s' ->
  ledger_ok (Binary64.of_Z 0) (BillsOut s') /\ Balance s' = running (Binary64.of_Z 0) (BillsOut s').
Proof. apply main_loop_inv. split; done. Qed.

(** ** Witnesses *)

Lemma main_loop_terminates_witness :
  ((1 < 2)%nat -> main_loop 1 (mkDate 1 3 2020) (init_state (mkDate 1 1 2020) [] [] [] []) = OutOfFuel) /\
  ((2 <= 2)%nat -> exists s', main_loop 2 (mkDate 1 3 2020) (init_state (mkDate 1 1 2020) [] [] [] [])
                             = Finished s' /\ Curr s' = mkDate 1 3 2020).
Proof.
  split; intros Hf;
    [apply (main_loop_terminates (mkDate 1 1 2020) (mkDate 1 3 2020) [] [] [] [] 1)
    | apply (main_loop_terminates (mkDate 1 1 2020) (mkDate 1 3 2020) [] [] [] [] 2)];
    try reflexivity; try (unfold days_of, days_before_year, days_before_month; simpl; lia);
    simpl; lia.
Defined.

Lemma main_loop_end_not_after_begin_witness :
  main_loop 400 (mkDate 1 1 2020) (init_state (mkDate 1 1 2020) [] [] [] []) = OutOfFuel.
Proof.
  apply main_loop_end_not_after_begin; [reflexivity | lia |].
  vm_compute. discriminate.
Defined.

Lemma main_loop_diverges_witness :
  main_loop 1000 (mkDate 2 30 2003) (init_state (mkDate 1 1 2003) [] [] [] []) = OutOfFuel.
Proof. apply main_loop_diverges; reflexivity. Defined.

Lemma main_loop_balance_witness :
  ledger_ok (Binary64.of_Z 0) [mkEntry (Binary64.of_Z 10) (Binary64.of_Z 10) 1 1 2020 "Pay"]
  /\ Binary64.of_Z 10 = running (Binary64.of_Z 0) [mkEntry (Binary64.of_Z 10) (Binary64.of_Z 10) 1 1 2020 "Pay"].
Proof.
  apply (main_loop_balance 10 (mkDate 1 1 2020) (mkDate 1 3 2020)
           [mkOnce (mkDate 1 1 2020) (Binary64.of_Z 10) "Pay"] [] [] []
           (mkState (mkDate 1 3 2020) (Binary64.of_Z 10) [mkOnce (mkDate 1 1 2020) (Binary64.of_Z 10) "Pay"] [] [] []
              [mkEntry (Binary64.of_Z 10) (Binary64.of_Z 10) 1 1 2020 "Pay"])).
  vm_compute. reflexivity.
Defined.

End Scheduler.
