(* ===== verification/Ledger.v ===== *)
(** * Ledger: what Bills.csv holds, day by day and node by node

    The abstract ledger of the spec (section 4.3): for each simulated day,
    in the order Once, Interval, Monthly, Bimonthly, and within a kind in
    list order, one line [(amount, date, description)] for every node
    whose firing rule holds on that day.  A node's firing on day [t] of a
    run over the days [ds] is read off [node_run], the run of its own loop
    body over [ds] alone.  The refinement theorem shows that the lines the
    loop of [main] (src/BillIntervals.cpp, lines 159-169) writes through
    the four AddInAll functions (lines 610-729) are exactly that ledger
    over the days it visits: traversing the four lists day by day
    interleaves nothing else into Bills.csv, and no node's firing depends
    on the others.  For nodes as the loader builds them, that ledger is the
    one of the spec's table ([table_ledger]), whose rules are the abstract
    ones of [Transactions]; in it a Once transaction fires at most once,
    and over the run's days ([run_days], all distinct) the Interval,
    Monthly and Bimonthly rules become the calendar rules of the spec.
    Since each day's lines carry that day's date and the run's days
    strictly increase, Bills.csv is in calendar order. *)

From stdpp Require Import sorting.
From S2P Require Import Prelude Binary64 Calendar Transactions Scheduler.
Import Calendar Transactions Scheduler.
Open Scope Z_scope.

Module Ledger.

(** A ledger line without its balance column (the balance column is the
    binary64 running sum, see [Scheduler.ledger_ok]). *)
Definition line : Type := Binary64.double * date * string.

Definition line_of (e : entry) : line :=
  (EAmount e, mkDate (EMonth e) (EDay e) (EYear e), EDescription e).

(** The date column of a line, and of a Bills.csv entry. *)
Definition line_date (l : line) : date := snd (fst l).

Definition entry_date (e : entry) : date := mkDate (EMonth e) (EDay e) (EYear e).

(** The [k] days the loop visits from [d]: [d], [AdvanceDate d], ... *)
Fixpoint days_list (d : date) (k : nat) : list date :=
  match k with
  | O => []
  | S k' => d :: match AdvanceDate d with Some d' => days_list d' k' | None => [] end
  end.

Section Kind.
Context {T : Type} `{Schedulable T}.
Implicit Types (l : list T) (n : T) (ds : list date).

(** Whether node [n] fires on day [t] of a run over [ds]. *)
Definition fires_at ds n (t : nat) : bool :=
  match node_run ds n with
  | Some fl => bool_decide (fl !! t = Some true)
  | None => false
  end.

(** The lines of the nodes of [l] that fire on day [t], dated [d]. *)
Definition kind_lines ds l (t : nat) (d : date) : list line :=
  flat_map (fun n => if fires_at ds n t then [(amount n, d, description n)] else []) l.

End Kind.

(** The lines of day [t] (dated [d]) in the order of the day's work. *)
Definition day_lines (ds : list date) (o : list OnceLink) (i : list IntervalLink)
    (m : list MonthlyLink) (bi : list BimonthlyLink) (t : nat) (d : date) : list line :=
  kind_lines ds o t d ++ kind_lines ds i t d ++ kind_lines ds m t d ++ kind_lines ds bi t d.

(** The ledger the spec describes for a run over the days [ds]. *)
Definition spec_ledger (ds : list date) (o : list OnceLink) (i : list IntervalLink)
    (m : list MonthlyLink) (bi : list BimonthlyLink) : list line :=
  concat (imap (day_lines ds o i m bi) ds).

(** The ledger of the spec's firing table (section 4.3), for nodes as
    the loader builds them (not started): a Once node on its date; an
    Interval node when the days since the last occurrence of its start
    date are a multiple of its period; a Monthly node, once started, on
    its day of the month; a Bimonthly node, once started, on the 15th and
    on the day [length[CurrM-1]] of the month.  The rules are the abstract
    ones of [Transactions] ([interval_flags], [flag_flags]), which the
    firing theorems characterise. *)
Definition table_lines (ds : list date) (o : list OnceLink) (i : list IntervalLink)
    (m : list MonthlyLink) (bi : list BimonthlyLink) (t : nat) (d : date) : list line :=
  flat_map (fun n => if bool_decide (ds !! t = Some (OnceStart n))
                     then [(OnceAmount n, d, OnceDescription n)] else []) o
  ++ flat_map (fun n => if bool_decide (interval_flags (IntervalStart n) (Interval n) None ds !! t
                                        = Some true)
                        then [(IntervalAmount n, d, IntervalDescription n)] else []) i
  ++ flat_map (fun n => if bool_decide (flag_flags (MonthlyStart n)
                                          (fun d => dd d =? dd (MonthlyStart n)) false ds !! t
                                        = Some true)
                        then [(MonthlyAmount n, d, MonthlyDescription n)] else []) m
  ++ flat_map (fun n => if bool_decide (flag_flags (BimonthlyStart n) bimonthly_day false ds !! t
                                        = Some true)
                        then [(BimonthlyAmount n, d, BimonthlyDescription n)] else []) bi.

Definition table_ledger (ds : list date) (o : list OnceLink) (i : list IntervalLink)
    (m : list MonthlyLink) (bi : list BimonthlyLink) : list line :=
  concat (imap (table_lines ds o i m bi) ds).

(** Nodes as the loader builds them. *)
Definition loaded (i : list IntervalLink) (m : list MonthlyLink) (bi : list BimonthlyLink) : Prop :=
  Forall (fun n => IntervalHasStarted n = 0 /\ in_short (Interval n)) i
  /\ Forall (fun n => MonthlyHasStarted n = 0) m /\ Forall (fun n => BimonthlyHasStarted n = 0) bi.

(** The days [Curr] takes in the loop of [main] from Begin up to the day
    before End, one per iteration. *)
Definition run_days (Begin End : date) : list date :=
  days_list Begin (Z.to_nat (days_of End - days_of Begin)).

(** ** One list, one day *)

Section KindLemmas.
Context {T : Type} `{Schedulable T}.
Implicit Types (l : list T) (n : T) (ds : list date).

Definition months_ok (ds : list date) : Prop := Forall (fun d => 1 <= dm d <= 12) ds.

Lemma node_run_total ds n : months_ok ds -> is_Some (node_run ds n).
Proof.
  revert n. induction ds as [|d ds IH]; intros n Hm; [eexists; done|].
  unfold months_ok in Hm. forall_inv. simpl.
  destruct (visit_total d n HF) as [[n' b] ->].
  destruct (IH n' HF0) as [fl ->]. eexists; done.
Qed.

Lemma fires_at_cons d ds n n' b t :
  months_ok ds -> visit d n = Some (n', b) ->
  fires_at (d :: ds) n 0 = b /\ fires_at (d :: ds) n (S t) = fires_at ds n' t.
Proof.
  intros Hm Hv. unfold fires_at. simpl. rewrite Hv.
  destruct (node_run_total ds n' Hm) as [fl ->]. simpl.
  split; [destruct b; done | done].
Qed.

(** One traversal writes the lines of day 0 and leaves nodes whose later
    firings are those of the original nodes shifted by one day. *)
Lemma add_in_all_lines d ds l bal l' bal' out :
  months_ok ds -> add_in_all d l bal = Some (l', bal', out) ->
  map line_of out = kind_lines (d :: ds) l 0 d /\
  forall t d', kind_lines (d :: ds) l (S t) d' = kind_lines ds l' t d'.
Proof.
  intros Hm. revert bal l' bal' out.
  induction l as [|n l IH]; intros bal l' bal' out Hr; simpl in Hr.
  - injection Hr as <- <- <-. done.
  - destruct (visit d n) as [[n' b]|] eqn:Hv; [|discriminate].
    destruct (add_in_all d l _) as [[[l'' bal''] out']|] eqn:E; [|discriminate].
    injection Hr as <- <- <-. apply IH in E as [E1 E2].
    destruct (fires_at_cons d ds n n' b 0 Hm Hv) as [F0 _].
    unfold kind_lines in *. simpl. rewrite F0, map_app, E1.
    rewrite (visit_amount _ _ _ _ Hv), (visit_description _ _ _ _ Hv).
    split; [destruct b; [destruct d; reflexivity | reflexivity]|].
    intros t d'. rewrite E2. f_equal.
    rewrite (proj2 (fires_at_cons d ds n n' b t Hm Hv)).
    reflexivity.
Qed.

End KindLemmas.

(** ** The day's work and the loop *)

Lemma day_work_lines ds s s1 :
  months_ok ds -> day_work s = Some s1 ->
  map line_of (BillsOut s1) = map line_of (BillsOut s)
    ++ day_lines (Curr s :: ds) (headOnce s) (headInterval s) (headMonthly s) (headBimonthly s) 0 (Curr s)
  /\ forall t d',
    day_lines (Curr s :: ds) (headOnce s) (headInterval s) (headMonthly s) (headBimonthly s) (S t) d'
    = day_lines ds (headOnce s1) (headInterval s1) (headMonthly s1) (headBimonthly s1) t d'.
Proof.
  intros Hm Hs.
  apply day_work_Some in Hs as (o & b1 & e1 & i & b2 & e2 & m & b3 & e3 & bi & b4 & e4 & E1 & E2 & E3 & E4 & ->).
  cbn [BillsOut headOnce headInterval headMonthly headBimonthly].
  apply (add_in_all_lines _ ds) in E1 as [L1 S1], E2 as [L2 S2], E3 as [L3 S3], E4 as [L4 S4];
    try exact Hm.
  unfold day_lines. rewrite !map_app, L1, L2, L3, L4. split; [reflexivity|].
  intros t d'. rewrite S1, S2, S3, S4. reflexivity.
Qed.

Lemma spec_ledger_cons c ds o i m bi o' i' m' bi' :
  (forall t d', day_lines (c :: ds) o i m bi (S t) d' = day_lines ds o' i' m' bi' t d') ->
  spec_ledger (c :: ds) o i m bi = day_lines (c :: ds) o i m bi 0 c ++ spec_ledger ds o' i' m' bi'.
Proof.
  intros Hs. unfold spec_ledger. rewrite imap_cons. simpl. f_equal. f_equal.
  apply imap_ext. intros t d' _. apply Hs.
Qed.

Lemma days_list_S d d' k : AdvanceDate d = Some d' -> days_list d (S k) = d :: days_list d' k.
Proof. intros A. simpl. rewrite A. reflexivity. Qed.

Lemma days_list_valid d k : valid_date d = true -> Forall (fun e => valid_date e = true) (days_list d k).
Proof.
  revert d. induction k as [|k IH]; intros d V; simpl; [constructor|].
  constructor; [done|]. destruct (AdvanceDate_valid d V) as (d' & -> & V'). apply IH, V'.
Qed.

Lemma days_list_months d k : valid_date d = true -> months_ok (days_list d k).
Proof.
  intros V. eapply Forall_impl; [| exact (days_list_valid d k V)]. intros e. apply valid_month.
Qed.

(** The loop writes the spec's ledger over the days it visits: if it
    finishes after [S k] iterations, Bills.csv has grown by the ledger of
    the [S k] days from the current date. *)
Lemma main_loop_lines fuel End s s' :
  valid_date (Curr s) = true -> main_loop fuel End s = Finished s' ->
  exists k, (k < fuel)%nat /\ main_loop (S k) End s = Finished s' /\
    map line_of (BillsOut s') = map line_of (BillsOut s)
      ++ spec_ledger (days_list (Curr s) (S k)) (headOnce s) (headInterval s)
                     (headMonthly s) (headBimonthly s).
Proof.
  revert s. induction fuel as [|f IH]; intros s V Hr; [discriminate|].
  destruct (main_loop_S f End s V) as (s1 & d & W & Hc & A & Vd & Eq).
  destruct (same_date d End) eqn:E.
  - rewrite Eq in Hr. injection Hr as <-. exists 0%nat. split; [lia|].
    destruct (main_loop_S 0 End s V) as (s1' & d'' & W' & _ & A' & _ & ->).
    rewrite W in W'. injection W' as <-. rewrite A in A'. injection A' as <-. rewrite E.
    split; [done|]. simpl. rewrite A.
    destruct (day_work_lines [] s s1 (List.Forall_nil _) W) as [L _].
    rewrite L. unfold spec_ledger. simpl. rewrite app_nil_r. reflexivity.
  - rewrite Eq in Hr. apply IH in Hr as (k & Hk & Hrun & L); [|exact Vd].
    exists (S k). split; [lia|].
    split; [cbn [main_loop]; rewrite W, Hc, A, E; exact Hrun|].
    cbn [Curr BillsOut headOnce headInterval headMonthly headBimonthly set_Curr] in L.
    rewrite L, (days_list_S _ _ _ A).
    destruct (day_work_lines (days_list d (S k)) s s1 (days_list_months d (S k) Vd) W) as [L1 S1].
    rewrite L1, <- app_assoc. f_equal. rewrite (spec_ledger_cons _ _ _ _ _ _ _ _ _ _ S1).
    reflexivity.
Qed.


(** ** From the loop bodies to the spec's table *)

Lemma node_run_once ds (n : OnceLink) : node_run ds n = Some (same_date (OnceStart n) <$> ds).
Proof. induction ds as [|d ds IH]; [done|]. simpl. rewrite IH. reflexivity. Qed.

Lemma fires_at_table ds t (n : OnceLink) :
  fires_at ds n t = bool_decide (ds !! t = Some (OnceStart n)).
Proof.
  unfold fires_at. rewrite node_run_once. apply bool_decide_ext. rewrite list_lookup_fmap.
  destruct (ds !! t) as [d|]; simpl; [|split; discriminate].
  destruct (same_date_spec (OnceStart n) d) as [-> | Hne]; split; congruence.
Qed.

Lemma spec_ledger_table ds o i m bi :
  months_ok ds -> loaded i m bi -> spec_ledger ds o i m bi = table_ledger ds o i m bi.
Proof.
  intros Hm (Hi & Hmo & Hb). unfold spec_ledger, table_ledger. f_equal.
  apply imap_ext. intros t d _. unfold day_lines, table_lines, kind_lines.
  f_equal; [|f_equal; [|f_equal]].
  - apply flat_map_ext_Forall with (P := fun _ => True); [apply Forall_true; done|].
    intros n _. rewrite fires_at_table. reflexivity.
  - apply (flat_map_ext_Forall _ _ _ _ Hi). intros n [Hs Hsh]. unfold fires_at.
    rewrite (node_run_interval ds n None) by (split; done). reflexivity.
  - apply (flat_map_ext_Forall _ _ _ _ Hmo). intros n Hs. unfold fires_at.
    rewrite (node_run_monthly ds n false) by done. reflexivity.
  - apply (flat_map_ext_Forall _ _ _ _ Hb). intros n Hs. unfold fires_at.
    rewrite (node_run_bimonthly ds n false) by done. reflexivity.
Qed.

(** [days_list d k] lists the [k] consecutive calendar days from [d]. *)
Lemma days_list_lookup d k t :
  valid_date d = true -> days_of d + Z.of_nat k <= days_of last_date + 1 -> (t < k)%nat ->
  exists e, days_list d k !! t = Some e /\ valid_date e = true /\ days_of e = days_of d + Z.of_nat t.
Proof.
  revert d t. induction k as [|k IH]; intros d t V B Ht; [lia|].
  destruct t as [|t]; [exists d; simpl; split; [done | split; [done | lia]]|].
  assert (d <> last_date) as Hne by (intros ->; lia).
  destruct (AdvanceDate_step d V Hne) as (d' & A & V' & E).
  rewrite (days_list_S _ _ _ A). simpl.
  destruct (IH d' t V' ltac:(lia) ltac:(lia)) as (e & He & Ve & Ee).
  exists e. split; [done | split; [done | lia]].
Qed.

Lemma days_list_length d k : valid_date d = true -> length (days_list d k) = k.
Proof.
  revert d. induction k as [|k IH]; intros d V; [done|].
  destruct (AdvanceDate_valid d V) as (d' & A & V'). rewrite (days_list_S _ _ _ A). simpl.
  rewrite IH; done.
Qed.

(** The loop finishes after the days from Begin to End and writes the
    ledger of its loop bodies over exactly those days. *)
Lemma main_loop_spec_ledger Begin End o i m bi :
  valid_date Begin = true -> valid_date End = true -> days_of Begin < days_of End ->
  let N := Z.to_nat (days_of End - days_of Begin) in
  exists s, main_loop N End (init_state Begin o i m bi) = Finished s /\
    map line_of (BillsOut s) = spec_ledger (days_list Begin N) o i m bi.
Proof.
  intros VB VE Hlt N.
  assert (HN : days_of Begin + Z.of_nat (S (pred N)) = days_of End) by (subst N; lia).
  destruct (main_loop_reaches (pred N) N End (init_state Begin o i m bi) VB VE HN ltac:(lia))
    as (s & Hs & _).
  exists s. split; [done|].
  destruct (main_loop_lines N End (init_state Begin o i m bi) s VB Hs) as (k & Hk & Hrun & L).
  assert (S k = N) as <-.
  { destruct (Nat.lt_ge_cases (S k) N) as [Hlt' | Hge]; [|lia].
    rewrite (main_loop_short (pred N) (S k) End (init_state Begin o i m bi) VB VE HN ltac:(lia)) in Hrun.
    discriminate. }
  rewrite L. reflexivity.
Qed.

Lemma days_list_elem d k x :
  valid_date d = true -> days_of d + Z.of_nat k <= days_of last_date + 1 ->
  x ∈ days_list d k <-> valid_date x = true /\ days_of d <= days_of x < days_of d + Z.of_nat k.
Proof.
  intros V B. rewrite list_elem_of_lookup. split.
  - intros [t Ht]. pose proof (lookup_lt_Some _ _ _ Ht) as Hlt. rewrite days_list_length in Hlt by done.
    destruct (days_list_lookup d k t V B Hlt) as (e & He & Ve & Ee).
    rewrite Ht in He. injection He as ->. split; [done | lia].
  - intros (Vx & L & U). exists (Z.to_nat (days_of x - days_of d)).
    destruct (days_list_lookup d k (Z.to_nat (days_of x - days_of d)) V B ltac:(lia)) as (e & He & Ve & Ee).
    rewrite He. f_equal. apply days_of_inj; [done | done | lia].
Qed.

Lemma days_list_NoDup d k :
  valid_date d = true -> days_of d + Z.of_nat k <= days_of last_date + 1 -> NoDup (days_list d k).
Proof.
  intros V B. apply list.NoDup_alt. intros i j x Hi Hj.
  pose proof (lookup_lt_Some _ _ _ Hi) as Li. pose proof (lookup_lt_Some _ _ _ Hj) as Lj.
  rewrite days_list_length in Li, Lj by done.
  destruct (days_list_lookup d k i V B Li) as (e & He & _ & Ee).
  destruct (days_list_lookup d k j V B Lj) as (e' & He' & _ & Ee').
  rewrite Hi in He. rewrite Hj in He'. injection He as ->. injection He' as ->. lia.
Qed.

(** C24. A Once transaction fires at most once in a run (spec section
    4.3): over the days the loop visits from Begin to End, the loop body
    of [AddInAllOnce] (the date test of lines 616-618, run by [node_run])
    fires on exactly one day when the node's date is a valid date from
    Begin up to the day before End, and on none otherwise. *)
Theorem once_fires_once Begin End (n : OnceLink) :
  valid_date Begin = true -> valid_date End = true -> days_of Begin < days_of End ->
  length (filter (fun t => fires_at (run_days Begin End) n t = true)
            (seq 0 (length (run_days Begin End))))
  = if bool_decide (valid_date (OnceStart n) = true
                    /\ days_of Begin <= days_of (OnceStart n) < days_of End) then 1%nat else 0%nat.
Proof.
  intros VB VE Hlt. unfold run_days. set (N := Z.to_nat (days_of End - days_of Begin)).
  assert (B : days_of Begin + Z.of_nat N <= days_of last_date + 1)
    by (pose proof (days_of_le_last End VE); subst N; lia).
  rewrite (list_filter_iff _ (fun t => days_list Begin N !! t = Some (OnceStart n)))
    by (intros t; rewrite fires_at_table; apply bool_decide_eq_true).
  rewrite count_lookup_NoDup by (apply days_list_NoDup; done).
  erewrite bool_decide_ext; [reflexivity|].
  rewrite days_list_elem by done.
  assert (Z.of_nat N = days_of End - days_of Begin) as -> by (subst N; lia).
  split; intros (V & L & U); (split; [done | lia]).
Qed.

(** ** The firing rules on the calendar days of a run *)

Section Run.
Context (Begin End : date) (VB : valid_date Begin = true) (VE : valid_date End = true)
  (Hlt : days_of Begin < days_of End).

(** Day [j] of the run is the date [j] days after Begin. *)
Lemma run_days_index j st :
  run_days Begin End !! j = Some st <->
  valid_date st = true /\ days_of Begin <= days_of st < days_of End
  /\ Z.of_nat j = days_of st - days_of Begin.
Proof.
  unfold run_days. set (N := Z.to_nat (days_of End - days_of Begin)).
  assert (B : days_of Begin + Z.of_nat N <= days_of last_date + 1)
    by (pose proof (days_of_le_last End VE); subst N; lia).
  split.
  - intros Hj. pose proof (lookup_lt_Some _ _ _ Hj) as L. rewrite days_list_length in L by done.
    destruct (days_list_lookup Begin N j VB B L) as (e & He & Ve & Ee).
    rewrite Hj in He. injection He as <-. subst N. split; [done | lia].
  - intros (V & R & E).
    destruct (days_list_lookup Begin N j VB B ltac:(subst N; lia)) as (e & He & Ve & Ee).
    rewrite He. f_equal. apply days_of_inj; [done | done | lia].
Qed.

Lemma run_days_NoDup : NoDup (run_days Begin End).
Proof.
  apply days_list_NoDup; [done|]. pose proof (days_of_le_last End VE). lia.
Qed.

(** The start [st] has occurred by day [t] of the run, which is [d]. *)
Lemma run_started st t d :
  run_days Begin End !! t = Some d ->
  (exists j, (j <= t)%nat /\ run_days Begin End !! j = Some st) <->
  valid_date st = true /\ days_of Begin <= days_of st <= days_of d.
Proof.
  intros Ht. apply run_days_index in Ht as (Vd & Rd & Ed). split.
  - intros (j & Hj & Hs). apply run_days_index in Hs as (V & R & E). split; [done | lia].
  - intros (V & R). exists (Z.to_nat (days_of st - days_of Begin)).
    split; [lia|]. apply run_days_index. split; [done | lia].
Qed.

(** On the run's days, which are pairwise distinct, the last occurrence of
    the start among days [0..t] is its only one. *)
Lemma run_last_occ st t j :
  last_occ st (take (S t) (run_days Begin End)) j <->
  (j <= t)%nat /\ run_days Begin End !! j = Some st.
Proof.
  pose proof run_days_NoDup as Hnd. unfold last_occ. split.
  - intros [Hj _]. apply lookup_take_Some in Hj as [Hj Hl]. split; [lia | done].
  - intros [Hl Hj]. split; [apply lookup_take_Some; split; [done | lia]|].
    intros j' Hj' Hs. apply lookup_take_Some in Hs as [Hs _].
    pose proof (proj1 (list.NoDup_alt _) Hnd j j' st Hj Hs). lia.
Qed.

End Run.

(** C25. Over the calendar days of a run from Begin to End, an Interval
    node as the loader builds it fires on the day [d] visited at step [t]
    exactly when its start is a valid date from Begin up to [d] and the
    number of days from the start to [d] is a multiple of the period
    ([Interval], or [Interval + 65536] for a negative short): the spec's
    rule (section 4.3) "every [Interval] days from the start". *)
Theorem interval_fires_on_run Begin End (n : IntervalLink) t d :
  valid_date Begin = true -> valid_date End = true -> days_of Begin < days_of End ->
  IntervalHasStarted n = 0 -> in_short (Interval n) ->
  run_days Begin End !! t = Some d ->
  exists fl, node_run (run_days Begin End) n = Some fl /\
    (fl !! t = Some true <->
     valid_date (IntervalStart n) = true /\ days_of Begin <= days_of (IntervalStart n) <= days_of d
     /\ (days_of d - days_of (IntervalStart n)) mod period (Interval n) = 0).
Proof.
  intros VB VE Hlt Hs Hi Ht. eexists. split; [apply (node_run_interval _ n None); split; done|].
  rewrite interval_flags_iff by (eapply lookup_lt_Some; eauto).
  setoid_rewrite (run_last_occ Begin End VB VE Hlt).
  apply (run_days_index Begin End VB VE Hlt) in Ht as (Vd & Rd & Ed). split.
  - intros (j & [Hj Hst] & Hm). apply (run_days_index Begin End VB VE Hlt) in Hst as (V & R & E).
    split; [done|]. split; [lia|]. rewrite <- Hm. f_equal. lia.
  - intros (V & R & Hm). exists (Z.to_nat (days_of (IntervalStart n) - days_of Begin)).
    split; [split; [lia | apply run_days_index; [done .. | split; [done | lia]]]|].
    rewrite <- Hm. f_equal. lia.
Qed.

(** C26. Over the calendar days of a run, a Monthly node as the loader
    builds it fires on the day [d] visited at step [t] exactly when its
    start is a valid date from Begin up to [d] and [d] has the start's day
    of month; a start on the 29th to 31st therefore skips the months too
    short for it (spec section 4.3). *)
Theorem monthly_fires_on_run Begin End (n : MonthlyLink) t d :
  valid_date Begin = true -> valid_date End = true -> days_of Begin < days_of End ->
  MonthlyHasStarted n = 0 -> run_days Begin End !! t = Some d ->
  exists fl, node_run (run_days Begin End) n = Some fl /\
    (fl !! t = Some true <->
     valid_date (MonthlyStart n) = true /\ days_of Begin <= days_of (MonthlyStart n) <= days_of d
     /\ dd d = dd (MonthlyStart n)).
Proof.
  intros VB VE Hlt Hs Ht. eexists. split; [apply (node_run_monthly _ n false); done|].
  rewrite flag_flags_iff by (eapply lookup_lt_Some; eauto).
  rewrite (run_started Begin End VB VE Hlt _ t d Ht), Ht.
  split; [intros [S (d' & [= <-] & Hp)] | intros (V & R & Hp)].
  - apply Z.eqb_eq in Hp. tauto.
  - split; [done|]. exists d. split; [done | apply Z.eqb_eq, Hp].
Qed.

(** C27. Over the calendar days of a run, a Bimonthly node as the loader
    builds it fires on the day [d] visited at step [t] exactly when its
    start is a valid date from Begin up to [d] and [d] is the 15th or the
    last day of a month other than February (spec section 4.3). *)
Theorem bimonthly_fires_on_run Begin End (n : BimonthlyLink) t d :
  valid_date Begin = true -> valid_date End = true -> days_of Begin < days_of End ->
  BimonthlyHasStarted n = 0 -> run_days Begin End !! t = Some d ->
  exists fl, node_run (run_days Begin End) n = Some fl /\
    (fl !! t = Some true <->
     valid_date (BimonthlyStart n) = true /\ days_of Begin <= days_of (BimonthlyStart n) <= days_of d
     /\ (dd d = 15 \/ (dm d <> 2 /\ dd d = month_days (dy d) (dm d)))).
Proof.
  intros VB VE Hlt Hs Ht. eexists. split.
  { apply (node_run_bimonthly _ n false); [done|]. apply days_list_months, VB. }
  rewrite flag_flags_iff by (eapply lookup_lt_Some; eauto).
  rewrite (run_started Begin End VB VE Hlt _ t d Ht), Ht.
  pose proof (proj1 (run_days_index Begin End VB VE Hlt t d) Ht) as [Vd _].
  apply valid_date_spec in Vd as (Hm & Hd & _).
  rewrite <- (bimonthly_day_spec d Hm ltac:(lia)).
  split; [intros [S (d' & [= <-] & Hp)]; tauto | intros (V & R & Hp); split; [done | eauto]].
Qed.

(** ** Calendar order *)

Lemma days_list_sorted d k :
  valid_date d = true -> days_of d + Z.of_nat k <= days_of last_date + 1 ->
  StronglySorted (fun x y => days_of x < days_of y) (days_list d k).
Proof.
  revert d. induction k as [|[|k] IH]; intros d V B; [constructor | |].
  { cbn. destruct (AdvanceDate d); repeat constructor. }
  assert (d <> last_date) as Hne by (intros ->; lia).
  destruct (AdvanceDate_step d V Hne) as (d' & A & V' & E).
  rewrite (days_list_S _ _ _ A). apply StronglySorted_cons. split; [|apply IH; [done | lia]].
  apply list.Forall_forall. intros x Hx. apply days_list_elem in Hx as (_ & Hx & _); [lia | done | lia].
Qed.

Lemma same_day_sorted (l : list line) d :
  Forall (fun x => line_date x = d) l ->
  StronglySorted (fun x y => days_of (line_date x) <= days_of (line_date y)) l.
Proof.
  induction l as [|x l IH]; intros Hl; [constructor|]. inversion Hl as [|? ? Hx Hl']; subst.
  apply StronglySorted_cons. split; [|apply IH, Hl'].
  refine (List.Forall_impl _ _ Hl'). cbn. intros y Hy. rewrite Hy. lia.
Qed.

(** Concatenating the lines of each day of a run, each dated with its
    day, gives lines in calendar order whose dates are days of the run. *)
Lemma concat_imap_sorted (F : nat -> date -> list line) ds :
  StronglySorted (fun x y => days_of x < days_of y) ds ->
  (forall t d, Forall (fun x => line_date x = d) (F t d)) ->
  StronglySorted (fun x y => days_of (line_date x) <= days_of (line_date y)) (concat (imap F ds))
  /\ Forall (fun x => line_date x ∈ ds) (concat (imap F ds)).
Proof.
  revert F. induction ds as [|d ds IH]; intros F Hs HF; [split; constructor|].
  apply StronglySorted_cons in Hs as [Hd Hs].
  destruct (IH (F ∘ S) Hs (fun t => HF (S t))) as [IHs IHf].
  rewrite imap_cons. cbn [concat]. split.
  - apply StronglySorted_app_2; [| exact (same_day_sorted _ d (HF 0%nat d)) | exact IHs].
    intros x1 x2 H1 H2. rewrite list.Forall_forall in IHf. rewrite list.Forall_forall in Hd.
    pose proof (proj1 (list.Forall_forall _ _) (HF 0%nat d) x1 H1) as E1. cbn in E1. rewrite E1.
    specialize (Hd _ (IHf x2 H2)). lia.
  - apply Forall_app. split.
    + refine (List.Forall_impl _ _ (HF 0%nat d)). intros x ->. left.
    + refine (List.Forall_impl _ _ IHf). intros x Hx. right. exact Hx.
Qed.

Lemma Forall_flat_map_lines {B} (P : line -> Prop) (f : B -> list line) (l : list B) :
  (forall n, Forall P (f n)) -> Forall P (flat_map f l).
Proof. intros Hf. induction l as [|n l IH]; [constructor|]. cbn. apply Forall_app. done. Qed.

Lemma day_lines_dated ds o i m bi t d :
  Forall (fun x => line_date x = d) (day_lines ds o i m bi t d).
Proof.
  unfold day_lines, kind_lines. repeat (apply Forall_app; split);
    apply Forall_flat_map_lines; intros n; case_match; repeat constructor.
Qed.

Lemma StronglySorted_map_inv {A B} (R : B -> B -> Prop) (f : A -> B) l :
  StronglySorted R (map f l) -> StronglySorted (fun x y => R (f x) (f y)) l.
Proof.
  induction l as [|x l IH]; intros H; [constructor|]. cbn in H.
  apply StronglySorted_cons in H as [Hx H]. apply StronglySorted_cons. split; [|apply IH, H].
  exact (proj1 (List.Forall_map f (R (f x)) l) Hx).
Qed.

(** C20. Refinement of the spec's firing table (section 4.3): with valid
    Begin and End dates, Begin before End, and nodes as the loader builds
    them, the main loop finishes after the [N = days_of End - days_of
    Begin] days from Begin, and the lines of Bills.csv, balance column
    aside, are exactly the ledger of the spec's table over those days: day
    by day, the Once, Interval, Monthly and Bimonthly lists in turn, one
    line per node whose abstract firing rule holds that day. *)
Theorem main_loop_ledger Begin End o i m bi :
  valid_date Begin = true -> valid_date End = true -> days_of Begin < days_of End ->
  loaded i m bi ->
  let N := Z.to_nat (days_of End - days_of Begin) in
  exists s, main_loop N End (init_state Begin o i m bi) = Finished s /\
    map line_of (BillsOut s) = table_ledger (days_list Begin N) o i m bi.
Proof.
  intros VB VE Hlt Hl N.
  destruct (main_loop_spec_ledger Begin End o i m bi VB VE Hlt) as (s & Hs & L).
  exists s. split; [done|]. rewrite L. apply spec_ledger_table; [|done].
  apply days_list_months, VB.
Qed.

(** C37. Bills.csv is in calendar order (spec section 4.3, day by day):
    with valid Begin and End dates and Begin before End, whatever the
    four lists hold, the main loop finishes after the days from Begin to
    End, every line of Bills.csv is dated with a valid calendar day from
    Begin to the day before End, and each line's date is no earlier than
    that of any line written before it. *)
Theorem main_loop_dates_ordered Begin End o i m bi :
  valid_date Begin = true -> valid_date End = true -> days_of Begin < days_of End ->
  exists s, main_loop (Z.to_nat (days_of End - days_of Begin)) End (init_state Begin o i m bi) = Finished s
    /\ Forall (fun e => valid_date (entry_date e) = true
                        /\ days_of Begin <= days_of (entry_date e) < days_of End) (BillsOut s)
    /\ StronglySorted (fun e1 e2 => days_of (entry_date e1) <= days_of (entry_date e2)) (BillsOut s).
Proof.
  intros VB VE Hlt. destruct (main_loop_spec_ledger Begin End o i m bi VB VE Hlt) as (s & Hs & L).
  exists s. split; [exact Hs|].
  set (N := Z.to_nat (days_of End - days_of Begin)) in *.
  assert (B : days_of Begin + Z.of_nat N <= days_of last_date + 1)
    by (pose proof (days_of_le_last End VE); subst N; lia).
  destruct (concat_imap_sorted (day_lines (days_list Begin N) o i m bi) (days_list Begin N)
              (days_list_sorted Begin N VB B) (day_lines_dated _ o i m bi)) as [Ss Fs].
  unfold spec_ledger in L. rewrite <- L in Ss, Fs. split.
  - apply (proj1 (List.Forall_map _ _ _)) in Fs. refine (List.Forall_impl _ _ Fs). intros e He.
    apply days_list_elem in He; [| done | done]. unfold line_date, line_of, entry_date in *. cbn in He. subst N. destruct He as (V & L1 & L2). split; [exact V | lia].
  - exact (StronglySorted_map_inv _ line_of _ Ss).
Qed.

(** ** Witnesses *)

Lemma main_loop_ledger_witness :
  exists s, main_loop (Z.to_nat (days_of (mkDate 3 1 2020) - days_of (mkDate 1 1 2020)))
              (mkDate 3 1 2020)
              (init_state (mkDate 1 1 2020) [mkOnce (mkDate 1 1 2020) (Binary64.of_Z 10) "Pay"]
                 [mkInterval (mkDate 1 10 2020) 30 0 0 (Binary64.of_Z (-5)) "Filter"]
                 [mkMonthly (mkDate 1 15 2020) 0 (Binary64.of_Z (-35)) "Rent"]
                 [mkBimonthly (mkDate 1 2 2020) 0 (Binary64.of_Z (-1)) "Fee"]) = Finished s
    /\ map line_of (BillsOut s)
       = table_ledger (days_list (mkDate 1 1 2020)
                        (Z.to_nat (days_of (mkDate 3 1 2020) - days_of (mkDate 1 1 2020))))
                     [mkOnce (mkDate 1 1 2020) (Binary64.of_Z 10) "Pay"]
                     [mkInterval (mkDate 1 10 2020) 30 0 0 (Binary64.of_Z (-5)) "Filter"]
                     [mkMonthly (mkDate 1 15 2020) 0 (Binary64.of_Z (-35)) "Rent"]
                     [mkBimonthly (mkDate 1 2 2020) 0 (Binary64.of_Z (-1)) "Fee"].
Proof.
  apply main_loop_ledger; [vm_compute; reflexivity .. |].
  split; [|split];
    (apply List.Forall_cons; [cbn; unfold in_short, short_min, short_max; lia | apply List.Forall_nil]).
Defined.

Lemma once_fires_once_witness :
  length (filter (fun t => fires_at (run_days (mkDate 1 1 2020) (mkDate 3 1 2020))
                             (mkOnce (mkDate 1 15 2020) (Binary64.of_Z 10) "Pay") t = true)
            (seq 0 (length (run_days (mkDate 1 1 2020) (mkDate 3 1 2020)))))
  = if bool_decide (valid_date (OnceStart (mkOnce (mkDate 1 15 2020) (Binary64.of_Z 10) "Pay")) = true
                    /\ days_of (mkDate 1 1 2020) <= days_of (OnceStart (mkOnce (mkDate 1 15 2020) (Binary64.of_Z 10) "Pay"))
                       < days_of (mkDate 3 1 2020)) then 1%nat else 0%nat.
Proof. apply once_fires_once; vm_compute; reflexivity. Defined.

Lemma interval_fires_on_run_witness :
  exists fl, node_run (run_days (mkDate 1 1 2020) (mkDate 3 1 2020)) (mkInterval (mkDate 1 10 2020) 30 0 0 (Binary64.of_Z (-5)) "Filter") = Some fl /\
    (fl !! 39%nat = Some true <->
     valid_date (IntervalStart (mkInterval (mkDate 1 10 2020) 30 0 0 (Binary64.of_Z (-5)) "Filter")) = true
     /\ days_of (mkDate 1 1 2020) <= days_of (IntervalStart (mkInterval (mkDate 1 10 2020) 30 0 0 (Binary64.of_Z (-5)) "Filter")) <= days_of (mkDate 2 9 2020)
     /\ (days_of (mkDate 2 9 2020) - days_of (IntervalStart (mkInterval (mkDate 1 10 2020) 30 0 0 (Binary64.of_Z (-5)) "Filter"))) mod period (Interval (mkInterval (mkDate 1 10 2020) 30 0 0 (Binary64.of_Z (-5)) "Filter")) = 0).
Proof.
  apply (interval_fires_on_run (mkDate 1 1 2020) (mkDate 3 1 2020) (mkInterval (mkDate 1 10 2020) 30 0 0 (Binary64.of_Z (-5)) "Filter") 39 (mkDate 2 9 2020)); [vm_compute; reflexivity .. | cbn; unfold in_short, short_min, short_max; lia | vm_compute; reflexivity].
Defined.

Lemma monthly_fires_on_run_witness :
  exists fl, node_run (run_days (mkDate 1 1 2020) (mkDate 3 1 2020)) (mkMonthly (mkDate 1 31 2020) 0 (Binary64.of_Z (-35)) "Rent") = Some fl /\
    (fl !! 59%nat = Some true <->
     valid_date (MonthlyStart (mkMonthly (mkDate 1 31 2020) 0 (Binary64.of_Z (-35)) "Rent")) = true
     /\ days_of (mkDate 1 1 2020) <= days_of (MonthlyStart (mkMonthly (mkDate 1 31 2020) 0 (Binary64.of_Z (-35)) "Rent")) <= days_of (mkDate 2 29 2020)
     /\ dd (mkDate 2 29 2020) = dd (MonthlyStart (mkMonthly (mkDate 1 31 2020) 0 (Binary64.of_Z (-35)) "Rent"))).
Proof.
  apply (monthly_fires_on_run (mkDate 1 1 2020) (mkDate 3 1 2020) (mkMonthly (mkDate 1 31 2020) 0 (Binary64.of_Z (-35)) "Rent") 59 (mkDate 2 29 2020)); [vm_compute; reflexivity ..].
Defined.

Lemma bimonthly_fires_on_run_witness :
  exists fl, node_run (run_days (mkDate 1 1 2020) (mkDate 3 1 2020)) (mkBimonthly (mkDate 1 2 2020) 0 (Binary64.of_Z (-1)) "Fee") = Some fl /\
    (fl !! 30%nat = Some true <->
     valid_date (BimonthlyStart (mkBimonthly (mkDate 1 2 2020) 0 (Binary64.of_Z (-1)) "Fee")) = true
     /\ days_of (mkDate 1 1 2020) <= days_of (BimonthlyStart (mkBimonthly (mkDate 1 2 2020) 0 (Binary64.of_Z (-1)) "Fee")) <= days_of (mkDate 1 31 2020)
     /\ (dd (mkDate 1 31 2020) = 15 \/ (dm (mkDate 1 31 2020) <> 2 /\ dd (mkDate 1 31 2020) = month_days (dy (mkDate 1 31 2020)) (dm (mkDate 1 31 2020))))).
Proof.
  apply (bimonthly_fires_on_run (mkDate 1 1 2020) (mkDate 3 1 2020) (mkBimonthly (mkDate 1 2 2020) 0 (Binary64.of_Z (-1)) "Fee") 30 (mkDate 1 31 2020)); [vm_compute; reflexivity ..].
Defined.

Lemma main_loop_dates_ordered_witness :
  (valid_date (mkDate 1 1 2020) = true /\ valid_date (mkDate 1 4 2020) = true
   /\ days_of (mkDate 1 1 2020) < days_of (mkDate 1 4 2020))
  /\ exists s, main_loop (Z.to_nat (days_of (mkDate 1 4 2020) - days_of (mkDate 1 1 2020))) (mkDate 1 4 2020)
         (init_state (mkDate 1 1 2020) [mkOnce (mkDate 1 2 2020) (Binary64.of_Z 1500) "Pay"]
            [mkInterval (mkDate 1 1 2020) 1 0 0 (Binary64.of_Z (-35)) "Rent"] [] []) = Finished s
    /\ Forall (fun e => valid_date (entry_date e) = true
                        /\ days_of (mkDate 1 1 2020) <= days_of (entry_date e) < days_of (mkDate 1 4 2020))
         (BillsOut s)
    /\ StronglySorted (fun e1 e2 => days_of (entry_date e1) <= days_of (entry_date e2)) (BillsOut s).
Proof.
  assert (H : days_of (mkDate 1 1 2020) < days_of (mkDate 1 4 2020))
    by (unfold days_of, days_before_year, days_before_month; simpl; lia).
  split; [split; [reflexivity | split; [reflexivity | exact H]]|].
  exact (main_loop_dates_ordered (mkDate 1 1 2020) (mkDate 1 4 2020) _ _ _ _ eq_refl eq_refl H).
Defined.

End Ledger.
