(* ===== verification/Loader.v ===== *)
(** * Loader: [GetBills] over the tokens of BillMakerList.txt

    Models [GetBills] (src/BillIntervals.cpp, lines 289-559): two dates read
    into [line], then records of six tokens read into [line] .. [line5]
    until fewer than six tokens remain.  The six buffers persist from record
    to record (their stale bytes are part of the state), [nResult] keeps
    the last parser result ([rc], the [return 0] or [return -1] of a
    parser), and each record is pushed at the head of the list of its
    kind, with its [double] Amount computed as at lines 375-376
    ([amount_double]).  Every [return -1] is an error value naming the test
    that failed; [strcpy_s(Description, 99, line5)] on a description of 99
    characters or more violates its runtime constraint, whose default
    handler ends the process: [DescriptionTooLong] is that abnormal end,
    not a [return -1], and [Console.console] prints nothing after it.  A missing file is a stream with no tokens: the
    reads then leave the uninitialised buffers as they were.  A file
    well formed in the sense of the spec's section 6 ([records_wf]) always
    loads, completely ([GetBills_accepts]). *)

From S2P Require Import Prelude Binary64 Calendar Parse Transactions.
Import Calendar Parse Transactions.
Open Scope Z_scope.

Module Loader.

(** Why [GetBills] returned -1. *)
Inductive load_error :=
| BadBeginDate
| BadEndDate
| BadDate
| BadNumber
| BadDollars
| StaleResult
| BeforeBegin
| BadTag
| DescriptionTooLong (* [strcpy_s] aborts the process *).

(** [char line[100], line1[100], ..., line5[100];] *)
Record buffers := mkBuffers {
  line : buffer; line1 : buffer; line2 : buffer; line3 : buffer; line4 : buffer; line5 : buffer }.

(** The four list heads [GetBills] fills. *)
Record registry := mkRegistry {
  headOnce : list OnceLink;
  headInterval : list IntervalLink;
  headMonthly : list MonthlyLink;
  headBimonthly : list BimonthlyLink }.

Definition empty_registry : registry := mkRegistry [] [] [] [].

(** [BillMakerFile >> buf]: the next token, or no change when the stream
    has none left. *)
Definition read_into (toks : list string) (buf : buffer) : buffer * list string :=
  match toks with
  | [] => (buf, [])
  | t :: rest => (read_token t buf, rest)
  end.

(** [strcmp(tag, line1) == 0]. *)
Definition tag_is (tag : string) (l : buffer) : bool :=
  if list_eq_dec ascii_dec (c_string l) (list_ascii_of_string tag) then true else false.

(** [strcpy_s(Description, 99, line5)]: the C string of [line5], which must
    leave room for its terminator in 99 bytes; [None] is the violation of
    that runtime constraint, on which the process is aborted. *)
Definition copy_description (l : buffer) : option string :=
  let s := c_string l in
  if (length s <? 99)%nat then Some (string_of_list_ascii s) else None.

(** [(Year < BeginY) || (Year==BeginY && Month < BeginM) || (... && Day < BeginD)]. *)
Definition before_begin (d b : date) : bool :=
  (dy d <? dy b) || ((dy d =? dy b) && (dm d <? dm b))
  || ((dy d =? dy b) && (dm d =? dm b) && (dd d <? dd b)).

Definition opt_err {A} (o : option A) (e : load_error) : res load_error A :=
  match o with Some a => Ok a | None => Err e end.

(** The return value of a parser: [0] when it parsed, [-1] otherwise. *)
Definition rc {A} (o : option A) : Z := match o with Some _ => 0 | None => -1 end.

(** [Amount = (1.0-2.0*(Minus==1))*((double)Dollars+((double)Cents/100.0))]
    (lines 375-376 and their copies at 434, 487, 542), in binary64. *)
Definition amount_double (minus dollars cents : Z) : Binary64.double :=
  Binary64.dmul
    (Binary64.dsub (Binary64.of_Z 1) (Binary64.dmul (Binary64.of_Z 2) (Binary64.of_Z (if minus =? 1 then 1 else 0))))
    (Binary64.dadd (Binary64.of_Z dollars) (Binary64.ddiv (Binary64.of_Z cents) (Binary64.of_Z 100))).

(** [StringToDollars] and the [Amount] computed from its three results. *)
Definition dollars_amount (l : buffer) : option Binary64.double :=
  match StringToDollars l with
  | Some (minus, dollars, cents) => Some (amount_double minus dollars cents)
  | None => None
  end.

Local Open Scope bills_scope.

(** The [Once] branch (lines 345-379). *)
Definition load_once (b : buffers) (reg : registry) : res load_error registry :=
  d <- opt_err (StringToNums (line3 b)) BadDate ;;
  amt <- opt_err (dollars_amount (line4 b)) BadDollars ;;
  desc <- opt_err (copy_description (line5 b)) DescriptionTooLong ;;
  ret (mkRegistry (mkOnce d amt desc :: headOnce reg)
                  (headInterval reg) (headMonthly reg) (headBimonthly reg)).

(** The [Interval] branch (lines 380-437). *)
Definition load_interval (Begin : date) (b : buffers) (reg : registry) : res load_error registry :=
  iv <- opt_err (StringToNumber (line2 b)) BadNumber ;;
  d <- opt_err (StringToNums (line3 b)) BadDate ;;
  amt <- opt_err (dollars_amount (line4 b)) BadDollars ;;
  if before_begin d Begin then Err BeforeBegin else
  desc <- opt_err (copy_description (line5 b)) DescriptionTooLong ;;
  ret (mkRegistry (headOnce reg)
                  (mkInterval d iv 0 0 amt desc :: headInterval reg)
                  (headMonthly reg) (headBimonthly reg)).

(** The [Monthly] branch (lines 438-491). *)
Definition load_monthly (Begin : date) (nResult : Z) (b : buffers) (reg : registry)
  : res load_error registry :=
  if nResult =? -1 then Err StaleResult else
  d <- opt_err (StringToNums (line3 b)) BadDate ;;
  amt <- opt_err (dollars_amount (line4 b)) BadDollars ;;
  if before_begin d Begin then Err BeforeBegin else
  desc <- opt_err (copy_description (line5 b)) DescriptionTooLong ;;
  ret (mkRegistry (headOnce reg) (headInterval reg)
                  (mkMonthly d 0 amt desc :: headMonthly reg)
                  (headBimonthly reg)).

(** The [Bimonthly] branch (lines 493-546). *)
Definition load_bimonthly (Begin : date) (nResult : Z) (b : buffers) (reg : registry)
  : res load_error registry :=
  if nResult =? -1 then Err StaleResult else
  d <- opt_err (StringToNums (line3 b)) BadDate ;;
  amt <- opt_err (dollars_amount (line4 b)) BadDollars ;;
  if before_begin d Begin then Err BeforeBegin else
  desc <- opt_err (copy_description (line5 b)) DescriptionTooLong ;;
  ret (mkRegistry (headOnce reg) (headInterval reg) (headMonthly reg)
                  (mkBimonthly d 0 amt desc :: headBimonthly reg)).

(** The body of the record loop (lines 344-552) for one record already
    read into the buffers: the [strcmp] dispatch on [line1]. *)
Definition load_record (Begin : date) (nResult : Z) (b : buffers) (reg : registry)
  : res load_error registry :=
  if tag_is "Once" (line1 b) then load_once b reg
  else if tag_is "Interval" (line1 b) then load_interval Begin b reg
  else if tag_is "Monthly" (line1 b) then load_monthly Begin nResult b reg
  else if tag_is "Bimonthly" (line1 b) then load_bimonthly Begin nResult b reg
  else Err BadTag.

(** The six reads [BillMakerFile >> line ... >> line5] of one record. *)
Definition read_record (t0 t1 t2 t3 t4 t5 : string) (b : buffers) : buffers :=
  mkBuffers (read_token t0 (line b)) (read_token t1 (line1 b)) (read_token t2 (line2 b))
            (read_token t3 (line3 b)) (read_token t4 (line4 b)) (read_token t5 (line5 b)).

(** The [while (!done)] loop of [GetBills] (lines 329-555): six reads, and
    the end of the loop as soon as one of them fails.  Every branch that
    completes assigns [nResult] last from [StringToDollars(line4, ...)],
    so that result is the [nResult] the next record sees. *)
Fixpoint load_records (Begin : date) (nResult : Z) (toks : list string) (b : buffers)
    (reg : registry) : res load_error registry :=
  match toks with
  | t0 :: t1 :: t2 :: t3 :: t4 :: t5 :: rest =>
      let b' := read_record t0 t1 t2 t3 t4 t5 b in
      reg' <- load_record Begin nResult b' reg ;;
      load_records Begin (rc (StringToDollars (line4 b'))) rest b' reg'
  | _ => Ok reg
  end.

(** [int GetBills(...)]: Begin, End and the four lists. *)
Definition GetBills (toks : list string) (b : buffers) : res load_error (date * date * registry) :=
  let '(l, toks1) := read_into toks (line b) in
  Begin <- opt_err (StringToNums l) BadBeginDate ;;
  let '(l', toks2) := read_into toks1 l in
  End <- opt_err (StringToNums l') BadEndDate ;;
  reg <- load_records Begin (rc (StringToNums l')) toks2
           (mkBuffers l' (line1 b) (line2 b) (line3 b) (line4 b) (line5 b)) empty_registry ;;
  ret (Begin, End, reg).

Local Close Scope bills_scope.

(** ** The order of the loaded lists *)

(** The descriptions of the records of tag [tag], in file order. *)
Fixpoint tag_descs (tag : string) (toks : list string) : list string :=
  match toks with
  | t0 :: t1 :: t2 :: t3 :: t4 :: t5 :: rest =>
      (if String.eqb t1 tag then [t5] else []) ++ tag_descs tag rest
  | _ => []
  end.

Definition descs (reg : registry) : list string * list string * list string * list string :=
  (map OnceDescription (headOnce reg), map IntervalDescription (headInterval reg),
   map MonthlyDescription (headMonthly reg), map BimonthlyDescription (headBimonthly reg)).

Definition app4 {A} (x y : list A * list A * list A * list A) : list A * list A * list A * list A :=
  match x, y with
  | (a, b, c, d), (a', b', c', d') => (a ++ a', b ++ b', c ++ c', d ++ d')
  end.

(** The lists the spec describes: each kind in reverse file order. *)
Definition file_descs (toks : list string) : list string * list string * list string * list string :=
  (rev (tag_descs "Once" toks), rev (tag_descs "Interval" toks),
   rev (tag_descs "Monthly" toks), rev (tag_descs "Bimonthly" toks)).

(** ** Well-formed files (spec section 6) *)

(** [d] is on or after [Begin] in (year, month, day) order. *)
Definition on_or_after (Begin d : date) : Prop :=
  dy Begin < dy d \/ (dy Begin = dy d /\ (dm Begin < dm d \/ (dm Begin = dm d /\ dd Begin <= dd d))).

(** A date token: the [MM.DD.YYYY] form of [d] as its first ten characters. *)
Definition date_token (t : string) (d : date) : Prop :=
  date_in_format d /\ take 10 (list_ascii_of_string t) = format_date d.

(** A record of the spec's layout, after its separator: a known tag; for
    an Interval, a number of digits; a start date; an amount of the form
    [-?D*.DD]; a description that fits [Description[99]] with its
    terminator; and, for the repeating kinds, a start on or after Begin. *)
Definition record_wf (Begin : date) (t1 t2 t3 t4 t5 : string) : Prop :=
  (t1 = "Once" \/ t1 = "Interval" \/ t1 = "Monthly" \/ t1 = "Bimonthly")%string
  /\ (t1 = "Interval"%string -> is_Some (decimal (list_ascii_of_string t2) 0))
  /\ (exists d, date_token t3 d /\ (t1 <> "Once"%string -> on_or_after Begin d))
  /\ is_Some (dollars_grammar (list_ascii_of_string t4))
  /\ (length (list_ascii_of_string t5) < 99)%nat.

(** Every record of a token list is well formed; fewer than six tokens
    left are not a record. *)
Fixpoint records_wf (Begin : date) (toks : list string) : Prop :=
  match toks with
  | t0 :: t1 :: t2 :: t3 :: t4 :: t5 :: rest => record_wf Begin t1 t2 t3 t4 t5 /\ records_wf Begin rest
  | _ => True
  end.

(** Uninitialised buffers for the examples. *)
Definition garbage : buffers := mkBuffers stale stale stale stale stale stale.

Local Open Scope string_scope.

(** The sample file of the source's header comment (lines 14-33). *)
Definition sample_file : list string :=
  ["09.19.2002"; "01.01.2004";
   ","; "Once"; "x"; "09.23.2002"; "1637.29"; "CurrentBalance9.23.2002";
   ","; "Monthly"; "x"; "09.25.2002"; "-35.00"; "FastLane";
   ","; "Interval"; "180"; "10.01.2002"; "-80.00"; "CarServiceB"].

Example GetBills_sample :
  GetBills sample_file garbage =
  Ok (mkDate 9 19 2002, mkDate 1 1 2004,
      mkRegistry [mkOnce (mkDate 9 23 2002) (amount_double 0 1637 29) "CurrentBalance9.23.2002"]
                 [mkInterval (mkDate 10 1 2002) 180 0 0 (amount_double 1 80 0) "CarServiceB"]
                 [mkMonthly (mkDate 9 25 2002) 0 (amount_double 1 35 0) "FastLane"] []).
Proof. vm_compute. reflexivity. Qed.

(** ** The stale bytes of the buffers never matter *)

Definition tokens_ok (toks : list string) : Prop :=
  Forall (fun t => token_ok (list_ascii_of_string t)) toks.

(** Induction over the records of a token list: fewer than six tokens end
    the record loop, six more tokens are one record. *)
Lemma records_ind (P : list string -> Prop) :
  (forall toks, (length toks < 6)%nat -> P toks) ->
  (forall t0 t1 t2 t3 t4 t5 rest, P rest -> P (t0 :: t1 :: t2 :: t3 :: t4 :: t5 :: rest)) ->
  forall toks, P toks.
Proof.
  intros Hb Hs toks. remember (length toks) as k eqn:Hk. revert toks Hk.
  induction k as [k IH] using lt_wf_ind. intros toks ->.
  destruct toks as [|t0 [|t1 [|t2 [|t3 [|t4 [|t5 rest]]]]]]; try (apply Hb; simpl; lia).
  apply Hs, (IH (length rest)); [simpl; lia | done].
Qed.

Lemma load_records_short Begin toks n b reg :
  (length toks < 6)%nat -> load_records Begin n toks b reg = Ok reg.
Proof. intros Hl. destruct toks as [|? [|? [|? [|? [|? [|? ?]]]]]]; simpl in *; done || lia. Qed.


Lemma load_record_indep Begin n t0 t1 t2 t3 t4 t5 b1 b2 reg :
  tokens_ok [t0; t1; t2; t3; t4; t5] ->
  load_record Begin n (read_record t0 t1 t2 t3 t4 t5 b1) reg
  = load_record Begin n (read_record t0 t1 t2 t3 t4 t5 b2) reg.
Proof.
  intros Hok. unfold tokens_ok in Hok. forall_inv.
  unfold load_record, load_once, load_interval, load_monthly, load_bimonthly, read_record, tag_is, copy_description, dollars_amount, read_token.
  cbn [line line1 line2 line3 line4 line5].
  rewrite (c_string_indep _ (line1 b1) (line1 b2)), (c_string_indep _ (line5 b1) (line5 b2)),
    (StringToNums_indep _ (line3 b1) (line3 b2)), (StringToDollars_indep _ (line4 b1) (line4 b2)),
    (StringToNumber_indep _ (line2 b1) (line2 b2)) by done.
  reflexivity.
Qed.

Lemma load_records_indep Begin toks :
  tokens_ok toks ->
  forall n b1 b2 reg, load_records Begin n toks b1 reg = load_records Begin n toks b2 reg.
Proof.
  induction toks as [toks Hl | t0 t1 t2 t3 t4 t5 rest IH] using records_ind; intros Hok n b1 b2 reg.
  { rewrite !load_records_short by done. reflexivity. }
  pose proof Hok as Hok6. unfold tokens_ok in Hok. simpl. forall_inv.
  rewrite (load_record_indep Begin n t0 t1 t2 t3 t4 t5 b1 b2 reg)
    by (unfold tokens_ok; repeat (apply List.Forall_cons; [done|]); apply List.Forall_nil).
  destruct (load_record _ _ _ _) as [reg'|e]; [|reflexivity]. simpl.
  unfold read_token. rewrite (StringToDollars_indep _ (line4 b1) (line4 b2)) by done. apply IH. done.
Qed.

Lemma GetBills_indep toks b1 b2 :
  tokens_ok toks -> (2 <= length toks)%nat -> GetBills toks b1 = GetBills toks b2.
Proof.
  intros Hok Hl. destruct toks as [|t0 [|t1 rest]]; [simpl in Hl; lia | simpl in Hl; lia|].
  unfold GetBills, read_into, read_token.
  rewrite (StringToNums_indep _ (line b1) (line b2)),
    (StringToNums_indep _ (read_chars (list_ascii_of_string t0) (line b1))
       (read_chars (list_ascii_of_string t0) (line b2))).
  destruct (StringToNums _) as [Begin|]; [|reflexivity]. simpl.
  destruct (StringToNums _) as [End|]; [|reflexivity]. simpl.
  unfold tokens_ok in Hok. forall_inv.
  erewrite (load_records_indep Begin rest); [reflexivity | done].
Qed.

(** ** What the loaded lists hold *)

(** A repeating node as [GetBills] leaves it: not started, its counter at
    0, a short [Interval], and a start on or after Begin. *)
Definition reg_ok (Begin : date) (reg : registry) : Prop :=
  Forall (fun n => IntervalHasStarted n = 0 /\ Counter n = 0 /\ in_short (Interval n)
                   /\ before_begin (IntervalStart n) Begin = false) (headInterval reg) /\
  Forall (fun n => MonthlyHasStarted n = 0 /\ before_begin (MonthlyStart n) Begin = false)
         (headMonthly reg) /\
  Forall (fun n => BimonthlyHasStarted n = 0 /\ before_begin (BimonthlyStart n) Begin = false)
         (headBimonthly reg).

Lemma number_loop_short cs acc v : in_short acc -> number_loop cs acc = Some v -> in_short v.
Proof.
  revert acc. induction cs as [|c cs IH]; intros acc Ha H; simpl in H; [congruence|].
  destruct (not_digit c); [discriminate|]. exact (IH _ (to_short_range _) H).
Qed.

Lemma opt_err_ok {A} (o : option A) e a : opt_err o e = Ok a <-> o = Some a.
Proof. destruct o; simpl; split; congruence. Qed.

(** Peel one [x <- opt_err o e ;; k] off a hypothesis [... = Ok r]. *)
Ltac peel H :=
  match type of H with
  | res_bind (opt_err ?o ?e) _ = Ok _ =>
      let x := fresh "x" in let E := fresh "E" in
      destruct o as [x|] eqn:E; simpl in H; [|discriminate]
  end.

Ltac cut_if H := match type of H with
  | (if ?c then _ else _) = Ok _ => let E := fresh "G" in destruct c eqn:E; [discriminate|]
  end.

(** Evaluate the [strcmp] tests on a buffer freshly filled with a literal tag. *)
Ltac tag_eval_in H :=
  repeat match type of H with
  | context [tag_is ?t (read_token ?u ?l)] =>
      let v := eval vm_compute in (tag_is t (read_token u [])) in
      change (tag_is t (read_token u l)) with v in H; cbv iota beta in H
  end.

Ltac tag_eval :=
  repeat match goal with
  | |- context [tag_is ?t (read_token ?u ?l)] =>
      let v := eval vm_compute in (tag_is t (read_token u [])) in
      change (tag_is t (read_token u l)) with v; cbv iota beta
  end.

Ltac reg_simpl :=
  cbn [headOnce headInterval headMonthly headBimonthly IntervalHasStarted Counter Interval
       IntervalStart MonthlyHasStarted MonthlyStart BimonthlyHasStarted BimonthlyStart].

Lemma load_record_ok Begin n b reg reg' :
  reg_ok Begin reg -> load_record Begin n b reg = Ok reg' -> reg_ok Begin reg'.
Proof.
  unfold load_record, load_once, load_interval, load_monthly, load_bimonthly. intros (Hi & Hm & Hb) H.
  destruct (tag_is "Once" _); [|destruct (tag_is "Interval" _);
    [|destruct (tag_is "Monthly" _); [|destruct (tag_is "Bimonthly" _); [|discriminate]]]].
  - peel H. peel H. peel H. injection H as <-. reg_simpl. split; [|split]; done.
  - peel H. peel H. peel H. cut_if H. peel H. injection H as <-. reg_simpl.
    split; [|split; done]. constructor; [|done]. cbn.
    refine (conj eq_refl (conj eq_refl (conj _ G))).
    eapply number_loop_short; [| exact E]. done.
  - cut_if H. peel H. peel H. cut_if H. peel H. injection H as <-. reg_simpl.
    split; [done | split; [constructor; [split; done | done] | done]].
  - cut_if H. peel H. peel H. cut_if H. peel H. injection H as <-. reg_simpl.
    split; [done | split; [done | constructor; [split; done | done]]].
Qed.

(** Any property of the registry kept by one record, read from tokens
    satisfying [Q], holds after the record loop over tokens satisfying [Q]. *)
Lemma load_records_inv (Q : string -> Prop) (P : registry -> Prop) Begin toks :
  Forall Q toks ->
  (forall t0 t1 t2 t3 t4 t5 n b reg reg', Forall Q [t0; t1; t2; t3; t4; t5] -> P reg ->
     load_record Begin n (read_record t0 t1 t2 t3 t4 t5 b) reg = Ok reg' -> P reg') ->
  forall n b reg reg', P reg -> load_records Begin n toks b reg = Ok reg' -> P reg'.
Proof.
  intros Hq Hstep. induction toks as [toks Hl | t0 t1 t2 t3 t4 t5 rest IH] using records_ind;
    intros n b reg reg' Hr H.
  { rewrite load_records_short in H by done. injection H as <-. done. }
  simpl in H. destruct (load_record _ _ _ _) as [r|] eqn:E; [|discriminate]. simpl in H.
  pose proof Hq as Hq6. forall_inv.
  apply IH in H; [done | done |].
  eapply Hstep; [| exact Hr | exact E]. repeat constructor; done.
Qed.

Lemma load_records_ok Begin toks : forall n b reg reg',
  reg_ok Begin reg -> load_records Begin n toks b reg = Ok reg' -> reg_ok Begin reg'.
Proof.
  apply (load_records_inv (fun _ => True)); [apply Forall_true; done|].
  intros until reg'. intros _. apply load_record_ok.
Qed.

(** The description [strcpy_s] copies from a freshly read token is the token. *)
Lemma copy_description_token t l desc :
  ~ In NUL (list_ascii_of_string t) -> copy_description (read_token t l) = Some desc -> desc = t.
Proof.
  unfold copy_description, read_token. intros Hn. rewrite c_string_read by done.
  destruct (_ <? 99)%nat; [|discriminate]. intros [= <-]. apply string_of_list_ascii_of_string.
Qed.

(** The registry [GetBills] returns holds nodes as the loader builds them. *)
Lemma GetBills_reg_ok toks b Begin End reg :
  GetBills toks b = Ok (Begin, End, reg) -> reg_ok Begin reg.
Proof.
  unfold GetBills. destruct (read_into toks (line b)) as [l toks1].
  intros H. peel H. destruct (read_into toks1 l) as [l' toks2]. peel H.
  destruct (load_records _ _ _ _ _) as [r|] eqn:Er; [|discriminate]. simpl in H.
  injection H as -> -> ->. eapply (load_records_ok Begin toks2 0); [|exact Er].
  split; [constructor | split; constructor].
Qed.

(** C15. The repeating nodes [GetBills] loads meet what the scheduler's
    firing theorems assume: every Interval node is not started, has its
    counter at 0 and a short [Interval]; every Monthly and Bimonthly node
    is not started; and every one of them starts on or after Begin (the
    check of lines 407-417, 464-474 and 519-529). *)
Theorem GetBills_nodes_ready toks b Begin End reg :
  GetBills toks b = Ok (Begin, End, reg) -> reg_ok Begin reg.
Proof. apply GetBills_reg_ok. Qed.

(** C16. Fail-fast validation: a repeating record whose start date parses
    but precedes Begin makes the record loop fail with [BeforeBegin],
    whatever tokens follow it; no registry is returned. *)
Theorem load_records_before_begin Begin n tag t0 t2 t3 t4 t5 rest b reg d :
  n <> -1 -> In tag ["Interval"; "Monthly"; "Bimonthly"]%string ->
  (tag = "Interval"%string -> StringToNumber (read_token t2 (line2 b)) <> None) ->
  StringToNums (read_token t3 (line3 b)) = Some d ->
  dollars_amount (read_token t4 (line4 b)) <> None ->
  before_begin d Begin = true ->
  load_records Begin n (t0 :: tag :: t2 :: t3 :: t4 :: t5 :: rest) b reg = Err BeforeBegin.
Proof.
  intros Hn Htag Hi Hd Ha Hb. apply Z.eqb_neq in Hn.
  cbn [load_records]. unfold read_record at 1. unfold load_record, load_once, load_interval, load_monthly, load_bimonthly. cbn [line1 line2 line3 line4 line5].
  destruct (dollars_amount _) as [amt|]; [|congruence].
  destruct Htag as [<- | [<- | [<- | []]]]; tag_eval.
  - destruct (StringToNumber _) as [iv|]; [|exfalso; apply Hi; done]. simpl.
    rewrite Hd. simpl. rewrite Hb. reflexivity.
  - rewrite Hn. simpl. rewrite Hd. simpl. rewrite Hb. reflexivity.
  - rewrite Hn. simpl. rewrite Hd. simpl. rewrite Hb. reflexivity.
Qed.

Lemma load_records_partial Begin partial :
  (length partial < 6)%nat ->
  forall k toks n b reg, length toks = (6 * k)%nat ->
  load_records Begin n (toks ++ partial) b reg = load_records Begin n toks b reg.
Proof.
  intros Hp k. induction k as [|k IH]; intros toks n b reg Hl.
  - destruct toks; [|simpl in Hl; lia]. simpl.
    destruct partial as [|? [|? [|? [|? [|? [|? ?]]]]]]; try reflexivity. simpl in Hp; lia.
  - destruct toks as [|t0 [|t1 [|t2 [|t3 [|t4 [|t5 rest]]]]]]; simpl in Hl; try lia.
    simpl. destruct (load_record _ _ _ _); [|reflexivity]. simpl. apply IH. lia.
Qed.

(** A load that fails on its complete records fails the same way whatever
    follows them: the loop stops at the first failing record. *)
Lemma load_records_error_app Begin rest :
  forall k toks n b reg e, length toks = (6 * k)%nat ->
  load_records Begin n toks b reg = Err e -> load_records Begin n (toks ++ rest) b reg = Err e.
Proof.
  induction k as [|k IH]; intros toks n b reg e Hl H.
  - destruct toks; [discriminate | simpl in Hl; lia].
  - destruct toks as [|t0 [|t1 [|t2 [|t3 [|t4 [|t5 toks]]]]]]; simpl in Hl; try lia.
    simpl in *. destruct (load_record _ _ _ _); simpl in *; [apply IH; [lia | done] | done].
Qed.

(** C17. End of file inside a record is the normal end of the load: a
    trailing incomplete record (fewer than six tokens) is ignored. *)
Theorem GetBills_partial_record toks partial b k :
  (length partial < 6)%nat -> length toks = (2 + 6 * k)%nat ->
  GetBills (toks ++ partial) b = GetBills toks b.
Proof.
  intros Hp Hl. destruct toks as [|t0 [|t1 rest]]; simpl in Hl; try lia.
  unfold GetBills. simpl. destruct (StringToNums _); [|reflexivity]. simpl.
  destruct (StringToNums _); [|reflexivity]. simpl.
  rewrite (load_records_partial _ _ Hp k) by lia. reflexivity.
Qed.

(** C28. Loading fails fast (spec sections 4.2 and 7): when the file's two dates
    and its first [k] complete records make [GetBills] fail with an error,
    any text after them leaves that error unchanged, so the records after
    the first failing one are never looked at. *)
Theorem GetBills_error_final toks rest b k e :
  length toks = (2 + 6 * k)%nat -> GetBills toks b = Err e -> GetBills (toks ++ rest) b = Err e.
Proof.
  intros Hl. destruct toks as [|t0 [|t1 toks]]; simpl in Hl; try lia.
  unfold GetBills. simpl. destruct (StringToNums _); [|done]. simpl.
  destruct (StringToNums _); [|done]. simpl.
  destruct (load_records _ _ toks _ _) as [reg|e'] eqn:L; [discriminate|]. intros [= <-].
  rewrite (load_records_error_app _ _ k toks _ _ _ e') by (done || lia). reflexivity.
Qed.

(** C18. The period of an Interval node loaded from a record whose number
    token is the digits of value [v] is [v] taken modulo 65536, with 65536
    for a multiple of 65536: an interval of 70000 days repeats every 4464
    days and an interval of 0 days every 65536 days. *)
Theorem interval_period_of_token Begin n t0 t2 t3 t4 t5 b reg reg' v :
  ~ In NUL (list_ascii_of_string t2) -> decimal (list_ascii_of_string t2) 0 = Some v ->
  load_record Begin n (read_record t0 "Interval" t2 t3 t4 t5 b) reg = Ok reg' ->
  exists node, headInterval reg' = node :: headInterval reg /\
    period (Interval node) = (if v mod 2 ^ 16 =? 0 then 2 ^ 16 else v mod 2 ^ 16)%Z.
Proof.
  intros Hn Hd H. unfold load_record, load_once, load_interval, load_monthly, load_bimonthly, read_record in H. cbn [line1 line2] in H. tag_eval_in H.
  unfold StringToNumber, read_token in H.
  rewrite c_string_read, number_loop_decimal_0, Hd in H by done. simpl in H.
  repeat peel H. cut_if H. peel H. injection H as <-. eexists. split; [reflexivity|].
  pose proof (decimal_ge _ 0 v ltac:(lia) Hd).
  unfold period, to_short. cbn [Interval]. zcase; zlia.
Qed.

(** ** Witnesses *)

Lemma GetBills_nodes_ready_witness :
  reg_ok (mkDate 9 19 2002)
    (mkRegistry [mkOnce (mkDate 9 23 2002) (amount_double 0 1637 29) "CurrentBalance9.23.2002"]
                [mkInterval (mkDate 10 1 2002) 180 0 0 (amount_double 1 80 0) "CarServiceB"]
                [mkMonthly (mkDate 9 25 2002) 0 (amount_double 1 35 0) "FastLane"] []).
Proof. apply (GetBills_nodes_ready sample_file garbage _ (mkDate 1 1 2004)). vm_compute. reflexivity. Defined.

Lemma load_records_before_begin_witness :
  load_records (mkDate 9 19 2002) 0 [","; "Monthly"; "x"; "09.01.2002"; "-35.00"; "FastLane"]
    garbage empty_registry = Err BeforeBegin.
Proof.
  apply (load_records_before_begin _ _ _ _ _ _ _ _ [] _ _ (mkDate 9 1 2002));
    [lia | simpl; tauto | discriminate | reflexivity | discriminate | reflexivity].
Defined.

Lemma GetBills_partial_record_witness :
  GetBills (sample_file ++ [","; "Once"; "x"]) garbage = GetBills sample_file garbage.
Proof. apply (GetBills_partial_record _ _ _ 3); simpl; lia. Defined.

Lemma interval_period_of_token_witness :
  exists node, headInterval (mkRegistry [] [mkInterval (mkDate 1 1 2021) 4464 0 0 (amount_double 0 1 0) "Long"] [] [])
               = node :: headInterval empty_registry /\
    period (Interval node) = (if 70000 mod 2 ^ 16 =? 0 then 2 ^ 16 else 70000 mod 2 ^ 16)%Z.
Proof.
  apply (interval_period_of_token (mkDate 1 1 2020) 0 "," "70000" "01.01.2021" "1.00" "Long"
           garbage empty_registry); [no_nul | reflexivity | vm_compute; reflexivity].
Defined.

(** ** Dead code: the [nResult == -1] test of the Monthly and Bimonthly branches *)

Lemma load_record_not_stale Begin n b reg :
  n <> -1 -> load_record Begin n b reg <> Err StaleResult.
Proof.
  intros Hn. apply Z.eqb_neq in Hn.
  unfold load_record, load_once, load_interval, load_monthly, load_bimonthly, res_bind, opt_err.
  rewrite Hn. repeat case_match; congruence.
Qed.

(** A record that loads parsed its amount: the [nResult] it leaves is 0. *)
Lemma load_record_dollars Begin n b reg r :
  load_record Begin n b reg = Ok r -> rc (StringToDollars (line4 b)) = 0.
Proof.
  unfold load_record, load_once, load_interval, load_monthly, load_bimonthly, dollars_amount.
  destruct (StringToDollars (line4 b)) as [[[? ?] ?]|]; [reflexivity|].
  unfold opt_err, res_bind. repeat case_match; congruence.
Qed.

Lemma load_records_not_stale Begin toks :
  forall n b reg, n <> -1 -> load_records Begin n toks b reg <> Err StaleResult.
Proof.
  induction toks as [toks Hl | t0 t1 t2 t3 t4 t5 rest IH] using records_ind; intros n b reg Hn.
  { rewrite load_records_short by done. discriminate. }
  cbn [load_records]. destruct (load_record _ _ _ _) as [r|e] eqn:E; cbn [res_bind].
  - rewrite (load_record_dollars _ _ _ _ _ E). apply IH. lia.
  - intros [= ->]. exact (load_record_not_stale _ _ _ _ Hn E).
Qed.

(** C21. The [nResult == -1] tests at the head of the Monthly and
    Bimonthly branches (lines 443 and 498) are dead code: the [nResult] a
    record sees is the value the End date's [StringToNums] or the previous
    record's [StringToDollars] returned, and each of them returned 0, since
    a -1 from either makes [GetBills] return at once.  So [GetBills] never
    fails with [StaleResult], whatever the file and the buffers. *)
Theorem GetBills_never_stale toks b : GetBills toks b <> Err StaleResult.
Proof.
  unfold GetBills. destruct (read_into toks (line b)) as [l toks1].
  destruct (StringToNums l) as [Begin|]; simpl; [|discriminate].
  destruct (read_into toks1 l) as [l' toks2].
  destruct (StringToNums l') as [End|]; simpl; [|discriminate].
  destruct (load_records _ _ _ _ _) as [r|e] eqn:E; simpl; [discriminate|].
  intros [= ->]. exact (load_records_not_stale _ _ 0 _ _ ltac:(lia) E).
Qed.

(** ** Reverse file order *)

Lemma tag_is_token tag t l :
  ~ In NUL (list_ascii_of_string t) -> tag_is tag (read_token t l) = String.eqb t tag.
Proof.
  intros Hn. unfold tag_is, read_token. rewrite c_string_read by done.
  destruct (list_eq_dec _ _ _) as [E|E]; destruct (String.eqb_spec t tag) as [->|Ne]; try done.
  exfalso. apply Ne. rewrite <- (string_of_list_ascii_of_string t), E.
  apply string_of_list_ascii_of_string.
Qed.

Lemma app4_assoc {A} (x y z : list A * list A * list A * list A) :
  app4 x (app4 y z) = app4 (app4 x y) z.
Proof. destruct x as [[[] ] ], y as [[[] ] ], z as [[[] ] ]. simpl. rewrite !app_assoc. done. Qed.

Lemma file_descs_cons t0 t1 t2 t3 t4 t5 rest :
  file_descs (t0 :: t1 :: t2 :: t3 :: t4 :: t5 :: rest)
  = app4 (file_descs rest) (file_descs [t0; t1; t2; t3; t4; t5]).
Proof. unfold file_descs. cbn [tag_descs app4]. rewrite !rev_app_distr, ?app_nil_r. reflexivity. Qed.

Lemma load_record_descs Begin n t0 t1 t2 t3 t4 t5 b reg reg' :
  ~ In NUL (list_ascii_of_string t1) -> ~ In NUL (list_ascii_of_string t5) ->
  load_record Begin n (read_record t0 t1 t2 t3 t4 t5 b) reg = Ok reg' ->
  descs reg' = app4 (file_descs [t0; t1; t2; t3; t4; t5]) (descs reg).
Proof.
  intros N1 N5 H. unfold load_record, load_once, load_interval, load_monthly, load_bimonthly,
    read_record in H. cbn [line1 line2 line3 line4 line5] in H.
  rewrite !(tag_is_token _ t1) in H by done. unfold file_descs. simpl.
  destruct (String.eqb_spec t1 "Once") as [->|N0]; [|destruct (String.eqb_spec t1 "Interval") as [->|Ni];
    [|destruct (String.eqb_spec t1 "Monthly") as [->|Nm];
      [|destruct (String.eqb_spec t1 "Bimonthly") as [->|Nb]; [|discriminate]]]]; simpl in H.
  - peel H. peel H. peel H. injection H as <-. apply copy_description_token in E1 as ->; done.
  - peel H. peel H. peel H. cut_if H. peel H. injection H as <-.
    apply copy_description_token in E2 as ->; done.
  - cut_if H. peel H. peel H. cut_if H. peel H. injection H as <-.
    apply copy_description_token in E1 as ->; done.
  - cut_if H. peel H. peel H. cut_if H. peel H. injection H as <-.
    apply copy_description_token in E1 as ->; done.
Qed.

Lemma load_records_descs Begin toks :
  Forall (fun t => ~ In NUL (list_ascii_of_string t)) toks ->
  forall n b reg reg', load_records Begin n toks b reg = Ok reg' ->
  descs reg' = app4 (file_descs toks) (descs reg).
Proof.
  induction toks as [toks Hl | t0 t1 t2 t3 t4 t5 rest IH] using records_ind; intros Ht n b reg reg' H.
  { rewrite load_records_short in H by done. injection H as <-.
    destruct toks as [|? [|? [|? [|? [|? [|? ?]]]]]]; simpl in Hl; try lia; destruct (descs reg) as [[[] ] ]; done. }
  simpl in H. destruct (load_record _ _ _ _) as [r|] eqn:E; [|discriminate]. simpl in H.
  forall_inv.
  rewrite (IH ltac:(assumption) _ _ _ _ H),
    (load_record_descs Begin n t0 t1 t2 t3 t4 t5 b reg r ltac:(assumption) ltac:(assumption) E).
  rewrite app4_assoc, <- file_descs_cons. reflexivity.
Qed.

(** C22. The loader builds each list in reverse file order (spec section
    3, "insertion order is reverse-of-file-order"): on a file whose
    tokens have no NUL byte, the descriptions of the Once, Interval,
    Monthly and Bimonthly lists are those of the file's records of that
    kind, last record first. *)
Theorem GetBills_reverse_order toks b Begin End reg :
  Forall (fun t => ~ In NUL (list_ascii_of_string t)) toks ->
  GetBills toks b = Ok (Begin, End, reg) -> descs reg = file_descs (drop 2 toks).
Proof.
  intros Ht. unfold GetBills. destruct (read_into toks (line b)) as [l toks1] eqn:R1.
  intros H. peel H. destruct (read_into toks1 l) as [l' toks2] eqn:R2. peel H.
  destruct (load_records _ _ _ _ _) as [r|] eqn:Er; [|discriminate]. simpl in H.
  injection H as -> -> ->.
  assert (toks2 = drop 2 toks) as ->.
  { unfold read_into in R1, R2. destruct toks as [|t0 [|t1 toks]]; simplify_eq; done. }
  rewrite (load_records_descs _ _ (Forall_drop _ _ _ Ht) _ _ _ _ Er).
  destruct (file_descs (drop 2 toks)) as [[[] ] ]. simpl. rewrite !app_nil_r. done.
Qed.

(** C23. An unrecognised type tag aborts the load (spec section 4.2): a
    record whose tag token is none of [Once], [Interval], [Monthly],
    [Bimonthly] makes the record loop fail with [BadTag], whatever tokens
    follow it. *)
Theorem load_records_bad_tag Begin n t0 t1 t2 t3 t4 t5 rest b reg :
  ~ In NUL (list_ascii_of_string t1) ->
  ~ In t1 ["Once"; "Interval"; "Monthly"; "Bimonthly"]%string ->
  load_records Begin n (t0 :: t1 :: t2 :: t3 :: t4 :: t5 :: rest) b reg = Err BadTag.
Proof.
  intros Hn Ht. simpl. unfold load_record, read_record. cbn [line1].
  rewrite !(tag_is_token _ t1) by done.
  destruct (String.eqb_spec t1 "Once") as [->|_]; [exfalso; apply Ht; left; done|].
  destruct (String.eqb_spec t1 "Interval") as [->|_]; [exfalso; apply Ht; right; left; done|].
  destruct (String.eqb_spec t1 "Monthly") as [->|_]; [exfalso; apply Ht; do 2 right; left; done|].
  destruct (String.eqb_spec t1 "Bimonthly") as [->|_]; [exfalso; apply Ht; do 3 right; left; done|].
  reflexivity.
Qed.

(** ** Well-formed files load *)

Lemma before_begin_on_or_after Begin d : on_or_after Begin d -> before_begin d Begin = false.
Proof.
  unfold on_or_after, before_begin. intros H.
  destruct (Z.ltb_spec (dy d) (dy Begin)), (Z.eqb_spec (dy d) (dy Begin)),
    (Z.ltb_spec (dm d) (dm Begin)), (Z.eqb_spec (dm d) (dm Begin)), (Z.ltb_spec (dd d) (dd Begin));
    cbn; first [reflexivity | exfalso; lia].
Qed.

Lemma nums_token t l d : date_token t d -> StringToNums (read_token t l) = Some d.
Proof. intros H. apply StringToNums_spec. exact H. Qed.

Lemma dollars_token t l :
  token_ok (list_ascii_of_string t) -> is_Some (dollars_grammar (list_ascii_of_string t)) ->
  is_Some (dollars_amount (read_token t l)).
Proof.
  intros [Hn Hl] [[[m D] C] E]. unfold dollars_amount, read_token.
  rewrite StringToDollars_grammar, E by done. eexists; reflexivity.
Qed.

Lemma number_token t l :
  ~ In NUL (list_ascii_of_string t) -> is_Some (decimal (list_ascii_of_string t) 0) ->
  is_Some (StringToNumber (read_token t l)).
Proof. intros Hn [v E]. unfold read_token. rewrite StringToNumber_spec, E by done. eexists; reflexivity. Qed.

Lemma description_token t l :
  ~ In NUL (list_ascii_of_string t) -> (length (list_ascii_of_string t) < 99)%nat ->
  copy_description (read_token t l) = Some t.
Proof.
  intros Hn Hl. unfold copy_description, read_token. rewrite c_string_read by done.
  apply Nat.ltb_lt in Hl. rewrite Hl, string_of_list_ascii_of_string. reflexivity.
Qed.

(** One well-formed record loads, whatever the buffers held, as long as
    the [nResult] it sees is not -1. *)
Lemma load_record_wf Begin n t0 t1 t2 t3 t4 t5 b reg :
  tokens_ok [t0; t1; t2; t3; t4; t5] -> record_wf Begin t1 t2 t3 t4 t5 -> n <> -1 ->
  exists r, load_record Begin n (read_record t0 t1 t2 t3 t4 t5 b) reg = Ok r.
Proof.
  intros Hok (Ht & Hi & (d & Hd & Hb) & Ha & Hl) Hn. unfold tokens_ok in Hok. forall_inv.
  match goal with H : token_ok (list_ascii_of_string t2) |- _ => destruct H as [N2 _] end.
  match goal with H : token_ok (list_ascii_of_string t4) |- _ => rename H into T4 end.
  match goal with H : token_ok (list_ascii_of_string t5) |- _ => destruct H as [N5 _] end.
  match goal with H : token_ok (list_ascii_of_string t1) |- _ => destruct H as [N1 _] end.
  apply Z.eqb_neq in Hn.
  unfold load_record, load_once, load_interval, load_monthly, load_bimonthly, read_record.
  cbn [line1 line2 line3 line4 line5]. rewrite !(tag_is_token _ t1) by done.
  destruct (dollars_token t4 (line4 b) T4 Ha) as [a Ea].
  rewrite (nums_token t3 _ d Hd), Ea, (description_token t5) by done.
  destruct Ht as [-> | [-> | [-> | ->]]]; cbn; rewrite ?Hn; cbn.
  - eexists; reflexivity.
  - destruct (number_token t2 (line2 b) N2 (Hi eq_refl)) as [v Ev]. rewrite Ev. cbn.
    rewrite before_begin_on_or_after by (apply Hb; discriminate). eexists; reflexivity.
  - rewrite before_begin_on_or_after by (apply Hb; discriminate). eexists; reflexivity.
  - rewrite before_begin_on_or_after by (apply Hb; discriminate). eexists; reflexivity.
Qed.

Lemma load_records_wf Begin toks :
  tokens_ok toks -> records_wf Begin toks ->
  forall n b reg, n <> -1 -> exists r, load_records Begin n toks b reg = Ok r.
Proof.
  induction toks as [toks Hl | t0 t1 t2 t3 t4 t5 rest IH] using records_ind; intros Hok Hw n b reg Hn.
  { rewrite load_records_short by done. eexists; reflexivity. }
  destruct Hw as [Hr Hw].
  change (tokens_ok ([t0; t1; t2; t3; t4; t5] ++ rest)) in Hok.
  unfold tokens_ok in Hok. apply Forall_app in Hok as [H6 Hrest].
  destruct (load_record_wf Begin n t0 t1 t2 t3 t4 t5 b reg H6 Hr Hn) as [r Er].
  cbn [load_records]. rewrite Er. cbn [res_bind].
  apply IH; [exact Hrest | exact Hw |]. rewrite (load_record_dollars _ _ _ _ _ Er). lia.
Qed.

(** C35. Completeness of the loader (spec section 6): on a file of tokens
    without NUL bytes and shorter than 100 characters, whose first two
    tokens are dates in the [MM.DD.YYYY] form and whose records are all
    well formed (a known tag, a number of digits for an Interval, a start
    date, an amount [-?D*.DD], a description of fewer than 99 characters,
    a repeating start on or after Begin), [GetBills] succeeds, whatever
    the buffers held, with the two dates read, and loads every record:
    the descriptions of each list are those of the file's records of its
    kind, last record first. *)
Theorem GetBills_accepts tB tE rest b Begin End :
  tokens_ok (tB :: tE :: rest) -> date_token tB Begin -> date_token tE End -> records_wf Begin rest ->
  exists reg, GetBills (tB :: tE :: rest) b = Ok (Begin, End, reg) /\ descs reg = file_descs rest.
Proof.
  intros Hok HB HE Hw. unfold GetBills. cbn [read_into].
  rewrite (nums_token tB _ Begin HB). cbn [opt_err res_bind read_into].
  rewrite (nums_token tE _ End HE). cbn [opt_err res_bind rc].
  inversion Hok as [|? ? _ Hok']; subst. inversion Hok' as [|? ? _ Hr]; subst.
  edestruct (load_records_wf Begin rest Hr Hw 0) as [reg Er]; [lia|].
  rewrite Er. exists reg. split; [reflexivity|].
  assert (Hn : Forall (fun t => ~ In NUL (list_ascii_of_string t)) rest)
    by exact (List.Forall_impl _ (fun t (H : token_ok _) => proj1 H) Hr).
  rewrite (load_records_descs Begin rest Hn _ _ _ _ Er).
  destruct (file_descs rest) as [[[] ] ]. cbn. rewrite !app_nil_r. reflexivity.
Qed.

Lemma load_records_bad_tag_witness :
  load_records (mkDate 1 1 2020) 0 [","; "Weekly"; "x"; "01.01.2020"; "1.00"; "Pay"] garbage
    empty_registry = Err BadTag.
Proof.
  apply load_records_bad_tag; [no_nul|]. simpl. intros H. intuition discriminate.
Defined.

Lemma GetBills_error_final_witness :
  GetBills (["01.01.2020"; "03.01.2020"; ","; "Weekly"; "x"; "01.01.2020"; "1.00"; "Pay"]
            ++ [","; "Once"; "x"; "01.15.2020"; "5.00"; "Gift"]) garbage = Err BadTag.
Proof. apply (GetBills_error_final _ _ _ 1); [reflexivity | vm_compute; reflexivity]. Defined.

Lemma GetBills_reverse_order_witness :
  descs (mkRegistry [mkOnce (mkDate 9 23 2002) (amount_double 0 1637 29) "CurrentBalance9.23.2002"]
                    [mkInterval (mkDate 10 1 2002) 180 0 0 (amount_double 1 80 0) "CarServiceB"]
                    [mkMonthly (mkDate 9 25 2002) 0 (amount_double 1 35 0) "FastLane"] [])
  = file_descs (drop 2 sample_file).
Proof.
  apply (GetBills_reverse_order sample_file garbage (mkDate 9 19 2002) (mkDate 1 1 2004)).
  - unfold sample_file. repeat constructor; no_nul.
  - vm_compute. reflexivity.
Defined.

Lemma GetBills_accepts_witness :
  (tokens_ok sample_file /\ date_token "09.19.2002" (mkDate 9 19 2002)
   /\ date_token "01.01.2004" (mkDate 1 1 2004) /\ records_wf (mkDate 9 19 2002) (drop 2 sample_file))
  /\ exists reg, GetBills sample_file garbage = Ok (mkDate 9 19 2002, mkDate 1 1 2004, reg)
       /\ descs reg = file_descs (drop 2 sample_file).
Proof.
  assert (Hok : tokens_ok sample_file).
  { unfold tokens_ok, sample_file.
    repeat (apply List.Forall_cons; [split; [no_nul | simpl; lia]|]). apply List.Forall_nil. }
  assert (HB : date_token "09.19.2002" (mkDate 9 19 2002)) by (split; [unfold date_in_format; cbn; lia | reflexivity]).
  assert (HE : date_token "01.01.2004" (mkDate 1 1 2004)) by (split; [unfold date_in_format; cbn; lia | reflexivity]).
  assert (Hw : records_wf (mkDate 9 19 2002) (drop 2 sample_file)).
  { cbn. split; [|split; [|split; [|exact I]]]; (split; [|split; [|split; [|split]]]).
    - left; reflexivity.
    - discriminate.
    - exists (mkDate 9 23 2002). split; [split; [unfold date_in_format; cbn; lia | reflexivity] | intros []; reflexivity].
    - eexists; reflexivity.
    - cbn; lia.
    - right; right; left; reflexivity.
    - discriminate.
    - exists (mkDate 9 25 2002). split; [split; [unfold date_in_format; cbn; lia | reflexivity] | intros _; unfold on_or_after; cbn; lia].
    - eexists; reflexivity.
    - cbn; lia.
    - right; left; reflexivity.
    - intros _; eexists; reflexivity.
    - exists (mkDate 10 1 2002). split; [split; [unfold date_in_format; cbn; lia | reflexivity] | intros _; unfold on_or_after; cbn; lia].
    - eexists; reflexivity.
    - cbn; lia. }
  split; [split; [exact Hok | split; [exact HB | split; [exact HE | exact Hw]]]|].
  exact (GetBills_accepts _ _ _ garbage _ _ Hok HB HE Hw).
Defined.

End Loader.
