(* ===== verification/Money.v ===== *)
(** * Money: the [double] Amount of a record and its text

    [GetBills] stores a record's amount as the double
    [(1.0-2.0*(Minus==1))*((double)Dollars+((double)Cents/100.0))]
    (src/BillIntervals.cpp, lines 375-376, and likewise 434-435,
    487-488, 542-543): [Loader.amount_double], evaluated in binary64 with
    the rounding of [Binary64].  [dbl_of_cents c] is that double for a
    token of [c] cents ([Parse.amount_of], the exact value); it is the
    double the loader stores whenever the dollars did not wrap around and
    the token is not [-0.00] ([amount_double_cents]).

    The theorems of this file: for every amount below 10000.00 in
    absolute value, the text [ostream << double] writes for that double is
    the text [Csv.print_amount] writes for the exact cents; so the Amount
    column of Bills.csv repeats the token's digits, [-0.00] giving [-0].
    The double is within a
    few units of [2^-52] (relative) of the exact value, far inside the
    twentieth of a unit of the sixth digit [Gformat.g_pos_cents] needs;
    the 99 quotients [Cents/100.0] are checked by evaluation. *)

From Stdlib Require Import Floats.SpecFloat.
From S2P Require Import Prelude Binary64 Calendar Parse Csv Gformat Transactions Loader.
Import Parse Csv Binary64 Gformat Loader.
Open Scope Z_scope.

Module Money.

(** The double stored for an amount of [c] cents read from its token. *)
Definition dbl_of_cents (c : Z) : double :=
  amount_double (if c <? 0 then 1 else 0) (Z.abs c / 100) (Z.abs c mod 100).

(** [Cents/100.0] is a normal double within half a unit in the last place
    of [Cents/100], with exponent between -59 and -53. *)
Definition cents_quot_ok (C : Z) : bool :=
  match ddiv (of_Z C) (of_Z 100) with
  | S754_finite false m e =>
      (2 ^ 52 <=? Zpos m) && (Zpos m <? 2 ^ 53) && (-60 <=? e) && (e <=? -53)
      && (Z.abs (100 * Zpos m - C * 2 ^ (- e)) <=? 50)
  | _ => false
  end.

Lemma cents_quot C :
  0 < C < 100 ->
  exists m e, ddiv (of_Z C) (of_Z 100) = S754_finite false m e
    /\ 2 ^ 52 <= Zpos m < 2 ^ 53 /\ -60 <= e <= -53 /\ Z.abs (100 * Zpos m - C * 2 ^ (- e)) <= 50.
Proof.
  intros HC.
  assert (H : forallb cents_quot_ok (map Z.of_nat (seq 1 99)) = true) by (vm_compute; reflexivity).
  rewrite forallb_forall in H.
  specialize (H C ltac:(apply in_map_iff; exists (Z.to_nat C); split; [lia | apply in_seq; lia])).
  unfold cents_quot_ok in H. destruct (ddiv (of_Z C) (of_Z 100)) as [s|s| |s m e]; try discriminate.
  destruct s; [discriminate|]. exists m, e. split; [done|].
  repeat rewrite andb_true_iff in H. rewrite !Z.leb_le, !Z.ltb_lt in H. lia.
Qed.

(** The loader's double is the one of its exact cents, unless the dollars
    wrapped around ([Dollars < 0]) or the token is [-0.00]. *)
Lemma amount_double_cents minus D C :
  0 <= D -> 0 <= C < 100 -> ~ (minus = 1 /\ D = 0 /\ C = 0) ->
  amount_double minus D C = dbl_of_cents (amount_of minus D C).
Proof.
  intros HD HC Hz. unfold dbl_of_cents, amount_of.
  assert (A : Z.abs ((if minus =? 1 then -1 else 1) * (100 * D + C)) = 100 * D + C)
    by (destruct (Z.eqb_spec minus 1); lia).
  rewrite A. replace ((100 * D + C) / 100) with D by zlia. replace ((100 * D + C) mod 100) with C by zlia.
  destruct (Z.eqb_spec minus 1) as [-> | Ne].
  - replace (-1 * (100 * D + C) <? 0) with true by (symmetry; apply Z.ltb_lt; lia). reflexivity.
  - replace (1 * (100 * D + C) <? 0) with false by (symmetry; apply Z.ltb_ge; lia).
    unfold amount_double. replace (minus =? 1) with false by (symmetry; apply Z.eqb_neq; done).
    reflexivity.
Qed.

Lemma unit_plus : dsub (of_Z 1) (dmul (of_Z 2) (of_Z 0)) = S754_finite false (2 ^ 52) (-52).
Proof. reflexivity. Qed.

Lemma unit_minus : dsub (of_Z 1) (dmul (of_Z 2) (of_Z 1)) = S754_finite true (2 ^ 52) (-52).
Proof. reflexivity. Qed.

(** [(double)Dollars + (double)Cents/100.0] for a positive amount below
    10000.00: a normal double [m * 2^e], [e < 0], within a relative
    [1 / (2 * 10^7)] of the exact amount. *)
Lemma sum_close D C :
  0 <= D < 10 ^ 4 -> 0 <= C < 100 -> 0 < 100 * D + C ->
  exists m e, dadd (of_Z D) (ddiv (of_Z C) (of_Z 100)) = S754_finite false m e
    /\ 2 ^ 52 <= Zpos m < 2 ^ 53 /\ -1074 <= e < 0
    /\ 2 * 10 ^ 7 * Z.abs (100 * Zpos m - (100 * D + C) * 2 ^ (- e)) < (100 * D + C) * 2 ^ (- e).
Proof.
  intros HD HC Hp.
  destruct (Z.eq_dec C 0) as [-> | NC].
  - (* whole dollars: [(double)Dollars] exactly *)
    assert (Z0 : ddiv (of_Z 0) (of_Z 100) = S754_zero false) by reflexivity. rewrite Z0.
    rewrite (of_Z_finite D) by lia. replace (D <? 0) with false by (symmetry; apply Z.ltb_ge; lia).
    rewrite Z.abs_eq by lia. cbn [dadd SFadd].
    pose proof (log2_bounds D ltac:(lia)) as B.
    assert (L : Z.log2 D < 14) by (apply Z.log2_lt_pow2; cbn in HD |- *; lia).
    pose proof (Z.log2_nonneg D).
    assert (P1 : 2 ^ Z.log2 D * 2 ^ (52 - Z.log2 D) = 2 ^ 52) by (rewrite <- Z.pow_add_r by lia; f_equal; lia).
    assert (P2 : 2 ^ (Z.log2 D + 1) * 2 ^ (52 - Z.log2 D) = 2 ^ 53) by (rewrite <- Z.pow_add_r by lia; f_equal; lia).
    assert (0 < 2 ^ (52 - Z.log2 D)) by (apply Z.pow_pos_nonneg; lia).
    eexists _, _. split; [reflexivity|]. rewrite Z2Pos.id by nia.
    split; [nia|]. split; [lia|].
    replace (- (Z.log2 D - 52)) with (52 - Z.log2 D) by lia.
    replace (100 * (D * 2 ^ (52 - Z.log2 D)) - (100 * D + 0) * 2 ^ (52 - Z.log2 D)) with 0 by ring.
    cbn [Z.abs]. nia.
  - destruct (cents_quot C ltac:(lia)) as (mC & eC & Q & BmC & BeC & EC). rewrite Q.
    destruct (Z.eq_dec D 0) as [-> | ND].
    + (* below one dollar: [Cents/100.0] itself *)
      rewrite of_Z_0. cbn [dadd SFadd]. exists mC, eC. split; [done|]. split; [done|]. split; [lia|].
      replace (100 * 0 + C) with C by lia.
      assert (2 ^ 53 <= 2 ^ (- eC)) by (apply Z.pow_le_mono_r; lia).
      cbn in BmC. nia.
    + (* the general case: one rounding of the exact sum *)
      rewrite (of_Z_finite D) by lia. replace (D <? 0) with false by (symmetry; apply Z.ltb_ge; lia).
      rewrite Z.abs_eq by lia. rewrite dadd_finite.
      pose proof (log2_bounds D ltac:(lia)) as B.
      assert (L : Z.log2 D < 14) by (apply Z.log2_lt_pow2; cbn in HD |- *; lia).
      pose proof (Z.log2_nonneg D).
      replace (Z.min (Z.log2 D - 52) eC) with eC by lia.
      set (K := 2 ^ (- eC)).
      assert (HK : 2 ^ 53 <= K) by (apply Z.pow_le_mono_r; lia).
      assert (ES : cond_Zopp false (Zpos (Z.to_pos (D * 2 ^ (52 - Z.log2 D))) * 2 ^ (Z.log2 D - 52 - eC))
                   + cond_Zopp false (Zpos mC * 2 ^ (eC - eC)) = D * K + Zpos mC).
      { cbn [cond_Zopp]. rewrite Z.sub_diag, Z.pow_0_r, Z.mul_1_r.
        assert (0 < 2 ^ (52 - Z.log2 D)) by (apply Z.pow_pos_nonneg; lia).
        rewrite Z2Pos.id by nia. rewrite <- Z.mul_assoc, <- Z.pow_add_r by lia.
        subst K. do 3 f_equal. lia. }
      rewrite ES. set (S := D * K + Zpos mC).
      assert (SK : K <= S) by (subst S; nia).
      assert (LS : 53 <= Z.log2 S).
      { apply (Z.le_trans _ (Z.log2 K)); [subst K; rewrite Z.log2_pow2; lia | apply Z.log2_le_mono; lia]. }
      assert (US : Z.log2 S < 75).
      { apply Z.log2_lt_pow2; [lia|]. subst S K.
        assert (2 ^ (- eC) <= 2 ^ 60) by (apply Z.pow_le_mono_r; lia). cbn in HD, BmC |- *. nia. }
      destruct (binary_normalize_pos S eC) as (m' & e' & R & Bm' & Be' & Er); [lia | lia | lia | lia |].
      rewrite R. exists m', e'. split; [done|]. split; [done|]. split; [lia|].
      (* compare at the scale [2^-eC] *)
      set (W := 2 ^ (e' - eC)). set (T := 2 ^ (Z.log2 S + 1 - 53)).
      assert (HW : 0 < W) by (apply Z.pow_pos_nonneg; lia).
      assert (EW : 2 ^ (- e') * W = K) by (subst W K; rewrite <- Z.pow_add_r by lia; f_equal; lia).
      assert (ET : T * 2 ^ 52 <= S).
      { subst T. rewrite <- Z.pow_add_r by lia. replace (Z.log2 S + 1 - 53 + 52) with (Z.log2 S) by lia.
        apply log2_bounds. lia. }
      assert (Hmain : 2 * 10 ^ 7 * Z.abs (100 * (Zpos m' * W) - (100 * D + C) * K) < (100 * D + C) * K).
      { assert (Z.abs (100 * (Zpos m' * W) - (100 * D + C) * K)
                <= 100 * Z.abs (Zpos m' * W - S) + Z.abs (100 * Zpos mC - C * K)).
        { replace (100 * (Zpos m' * W) - (100 * D + C) * K)
            with (100 * (Zpos m' * W - S) + (100 * Zpos mC - C * K)) by (subst S; ring).
          lia. }
        assert (DK : K <= D * K)
          by (rewrite <- (Z.mul_1_l K) at 1; apply Z.mul_le_mono_nonneg_r; lia).
        assert (0 <= C * K) by (apply Z.mul_nonneg_nonneg; lia).
        cbn in BmC. cbn. lia. }
      rewrite <- EW in Hmain.
      replace (100 * (Zpos m' * W) - (100 * D + C) * (2 ^ (- e') * W))
        with (W * (100 * Zpos m' - (100 * D + C) * 2 ^ (- e'))) in Hmain by ring.
      replace ((100 * D + C) * (2 ^ (- e') * W)) with (W * ((100 * D + C) * 2 ^ (- e'))) in Hmain by ring.
      rewrite Z.abs_mul, (Z.abs_eq W) in Hmain by lia.
      apply (Z.mul_lt_mono_pos_l W); [exact HW|].
      replace (W * (2 * 10 ^ 7 * Z.abs (100 * Zpos m' - (100 * D + C) * 2 ^ (- e'))))
        with (2 * 10 ^ 7 * (W * Z.abs (100 * Zpos m' - (100 * D + C) * 2 ^ (- e')))) by ring.
      exact Hmain.
Qed.

Lemma dbl_of_cents_close c :
  c <> 0 -> Z.abs c < 10 ^ 6 ->
  exists m e, dbl_of_cents c = S754_finite (c <? 0) m e
    /\ e < 0 /\ 2 * 10 ^ 7 * Z.abs (100 * Zpos m - Z.abs c * 2 ^ (- e)) < Z.abs c * 2 ^ (- e).
Proof.
  intros Hc Hb. unfold dbl_of_cents, amount_double.
  destruct (sum_close (Z.abs c / 100) (Z.abs c mod 100)) as (m & e & R & Bm & Be & Er);
    [cbn in Hb |- *; zlia | apply Z.mod_pos_bound; lia | zlia |].
  rewrite R. replace (100 * (Z.abs c / 100) + Z.abs c mod 100) with (Z.abs c) in Er by zlia.
  exists m, e. split; [|split; [lia | exact Er]].
  destruct (Z.ltb_spec c 0).
  - change (1 =? 1) with true. cbv iota. rewrite unit_minus. apply dmul_unit; lia.
  - change (0 =? 1) with false. cbv iota. rewrite unit_plus. apply dmul_unit; lia.
Qed.

(** [ostream << double] on the double read for [c] cents writes the
    text of its exact cents. *)
Lemma print_double_cents c :
  Z.abs c < 10 ^ 6 -> print_amount c = Some (print_double (dbl_of_cents c)).
Proof.
  intros Hb. destruct (Z.eq_dec c 0) as [-> | Hc]; [reflexivity|].
  destruct (dbl_of_cents_close c Hc Hb) as (m & e & -> & He & Er).
  rewrite print_amount_cents_g by done. f_equal. unfold print_double.
  destruct (Z.leb_spec 0 e); [lia|]. f_equal. symmetry.
  apply g_pos_cents; [cbn in Hb |- *; lia | lia | apply Z.pow_pos_nonneg; lia | exact Er].
Qed.

Lemma unit_sign (b : bool) :
  dsub (of_Z 1) (dmul (of_Z 2) (of_Z (if (if b then 1 else 0) =? 1 then 1 else 0)))
  = S754_finite b (2 ^ 52) (-52).
Proof. destruct b; reflexivity. Qed.

(** A whole number of dollars is read as the double of that integer: the
    [Cents/100.0] term is [+0.0] and the sign factor is exact. *)
Lemma dbl_of_cents_dollars v :
  Z.abs v < 2 ^ 53 -> dbl_of_cents (100 * v) = of_Z v.
Proof.
  intros Hb. destruct (Z.eq_dec v 0) as [-> | Hv]; [reflexivity|].
  destruct (of_Z_normal v Hv Hb) as (m & e & Hm & He & Ew).
  unfold dbl_of_cents. replace (Z.abs (100 * v)) with (Z.abs v * 100) by lia.
  rewrite Z.div_mul, Z.mod_mul by lia.
  unfold amount_double. rewrite (Ew (Z.abs v)), (Ew v) by lia.
  change (ddiv (of_Z 0) (of_Z 100)) with (S754_zero false).
  replace (Z.abs v <? 0) with false by (symmetry; apply Z.ltb_ge; lia).
  change (dadd (S754_finite false m e) (S754_zero false)) with (S754_finite false m e).
  replace (100 * v <? 0) with (v <? 0) by (destruct (Z.ltb_spec (100 * v) 0), (Z.ltb_spec v 0); lia).
  rewrite unit_sign, dmul_unit, Bool.xorb_false_r by lia. reflexivity.
Qed.



(** The text of a whole number of dollars is that of the double of the
    integer. *)
Lemma dollars_text v t : print_amount (100 * v) = Some t -> print_double (of_Z v) = t.
Proof.
  intros Ht. assert (R : Z.abs (100 * v) < 10 ^ 6)
    by (unfold print_amount in Ht; destruct (Z.leb_spec 1000000 (Z.abs (100 * v))); [discriminate | cbn; lia]).
  rewrite print_double_cents in Ht by done. rewrite dbl_of_cents_dollars in Ht by (cbn in *; lia).
  congruence.
Qed.

(** C32. The Amount column of Bills.csv repeats the amount token: for
    every amount below 10000.00 that [StringToDollars] accepts (a sign
    [Minus] of 0 or 1, [Dollars] and two-digit [Cents]), [ostream <<
    double] on the double of lines 375-376 writes the sign, the dollars
    and the cents without their trailing zeros; a [-0.00] token is written
    [-0], since [(1.0-2.0)*0.0] is negative zero. *)
Theorem amount_token_text minus D C :
  (minus = 0 \/ minus = 1) -> 0 <= D < 10 ^ 4 -> 0 <= C < 100 ->
  print_double (amount_double minus D C)
  = (if minus =? 1 then [dash] else []) ++ decimal_text D ++ cents_text C.
Proof.
  intros Hm HD HC.
  destruct (decide (minus = 1 /\ D = 0 /\ C = 0)) as [(-> & -> & ->) | Hz]; [reflexivity|].
  rewrite amount_double_cents by (done || lia).
  assert (A : Z.abs (amount_of minus D C) = 100 * D + C)
    by (unfold amount_of; destruct (Z.eqb_spec minus 1); lia).
  pose proof (print_double_cents (amount_of minus D C) ltac:(rewrite A; cbn in *; lia)) as P.
  unfold print_amount in P. rewrite A in P.
  destruct (Z.leb_spec 1000000 (100 * D + C)); [cbn in *; lia|]. injection P as <-.
  replace ((100 * D + C) / 100) with D by zlia. replace ((100 * D + C) mod 100) with C by zlia.
  f_equal. unfold amount_of. destruct Hm as [-> | ->].
  - replace ((if 0 =? 1 then -1 else 1) * (100 * D + C) <? 0) with false
      by (symmetry; apply Z.ltb_ge; cbn; lia). reflexivity.
  - replace ((if 1 =? 1 then -1 else 1) * (100 * D + C) <? 0) with true
      by (symmetry; apply Z.ltb_lt; cbn; lia). reflexivity.
Qed.

Lemma amount_token_text_witness :
  ((1 = 0 \/ 1 = 1) /\ 0 <= 0 < 10 ^ 4 /\ 0 <= 0 < 100)
  /\ print_double (amount_double 1 0 0) = [dash] ++ decimal_text 0 ++ cents_text 0.
Proof.
  split; [split; [right; reflexivity | split; cbn; lia] | apply (amount_token_text 1 0 0); [right; reflexivity | cbn; lia | lia]].
Defined.

(** From 10000.00 on, six significant digits drop cents: 12345.67 is
    written [12345.7], beyond the range of [Csv.print_amount]. *)
Example amount_text_large :
  print_double (dbl_of_cents 1234567) = list_ascii_of_string "12345.7"
  /\ print_double (dbl_of_cents (-1234567)) = list_ascii_of_string "-12345.7"
  /\ print_amount 1234567 = None.
Proof. vm_compute. repeat split. Qed.

End Money.
