(* ===== verification/Bills.v ===== *)
(** * Bills: the text of Bills.csv

    Each firing writes [BillsOut << Balance << ","] (src/BillIntervals.cpp,
    lines 621, 651, 683, 720) and then [PrintTransaction] (lines 602-607),
    [Amount << "," << Month << "-" << Day << "-" << Year << "," <<
    Description << std::endl]: the two [double]s in the [%g] format of
    [Gformat.print_double], the three shorts in decimal.  [bills_csv] is
    the text of the whole file, its lines in the order they were written.

    The theorem: a run whose amounts are whole numbers of dollars, with
    every amount and every running balance below 10000.00, has no
    rounding at all (sums of integers below [2^53] are exact in binary64),
    so every balance it writes, and its final [Balance], is the text of
    the exact sum in cents.  With cents the binary64 running sum can
    differ from the exact one ([Main.balance_drift]). *)

From S2P Require Import Prelude Binary64 Calendar Parse Csv Gformat Transactions Scheduler Loader Money.
Import Calendar Csv Binary64 Gformat Transactions Scheduler Money.
Open Scope Z_scope.

Module Bills.

(** One line: [Balance,Amount,Month-Day-Year,Description] and [endl]. *)
Definition csv_line (e : entry) : list ascii :=
  print_double (EBalance e) ++ comma :: print_double (EAmount e) ++ comma
  :: print_short (EMonth e) ++ dash :: print_short (EDay e) ++ dash :: print_short (EYear e)
  ++ comma :: list_ascii_of_string (EDescription e) ++ [newline].

(** The whole file. *)
Definition bills_csv (out : list entry) : list ascii := flat_map csv_line out.

(** ** Whole dollars *)

(** The exact running sums of the integers [ks] from [acc]. *)
Fixpoint prefix_sums (acc : Z) (ks : list Z) : list Z :=
  match ks with
  | [] => []
  | k :: ks' => (acc + k) :: prefix_sums (acc + k) ks'
  end.

Lemma dollars_print K : Z.abs K < 10 ^ 4 -> print_amount (100 * K) = Some (print_double (of_Z K)).
Proof.
  intros HK. rewrite print_double_cents by (cbn in *; lia).
  rewrite dbl_of_cents_dollars by (cbn in *; lia). reflexivity.
Qed.

(** Binary64 running sums of integer amounts stay exact while every
    amount and every partial sum is below 10000 in absolute value. *)
Lemma ledger_dollars B l ks :
  Z.abs B < 10 ^ 4 -> ledger_ok (of_Z B) l -> map EAmount l = map of_Z ks ->
  Forall (fun k => Z.abs k < 10 ^ 4) (ks ++ prefix_sums B ks) ->
  map EBalance l = map of_Z (prefix_sums B ks) /\ running (of_Z B) l = of_Z (B + fold_right Z.add 0 ks).
Proof.
  revert B ks. induction l as [|e l IH]; intros B [|k ks] HB Hl Ha Hf; try discriminate.
  - cbn. rewrite Z.add_0_r. done.
  - cbn in Ha. injection Ha as Ea Ha. destruct Hl as [Eb Hl].
    cbn [app prefix_sums] in Hf. inversion Hf as [|? ? Hk Hf']; subst.
    apply Forall_app in Hf' as [Hks Hp]. inversion Hp as [|? ? HBk Hp']; subst.
    assert (S : dadd (of_Z B) (of_Z k) = of_Z (B + k)) by (apply dadd_of_Z; cbn in *; lia).
    rewrite Ea, S in Eb. rewrite Eb in Hl.
    destruct (IH (B + k) ks HBk Hl Ha ltac:(apply Forall_app; split; done)) as [IHm IHr].
    cbn [map prefix_sums fold_right]. rewrite Eb, IHm, running_cons, Ea, S, IHr.
    split; [reflexivity | f_equal; lia].
Qed.

Lemma prefix_sums_in B ks :
  ks <> [] -> In (B + fold_right Z.add 0 ks) (prefix_sums B ks).
Proof.
  revert B. induction ks as [|k ks IH]; intros B Hne; [done|].
  destruct ks as [|k' ks']; [left; cbn; lia|].
  right. replace (B + fold_right Z.add 0 (k :: k' :: ks')) with (B + k + fold_right Z.add 0 (k' :: ks'))
    by (cbn; lia).
  apply IH. done.
Qed.

(** Balances that are the doubles of integers below 10000 are written as
    the text of those integers in cents. *)
Lemma balances_text l Ks :
  map EBalance l = map of_Z Ks -> Forall (fun K => Z.abs K < 10 ^ 4) Ks ->
  Forall2 (fun e K => print_amount (100 * K) = Some (print_double (EBalance e))) l Ks.
Proof.
  revert Ks. induction l as [|e l IH]; intros [|K Ks] Hm HK; try discriminate; [constructor|].
  injection Hm as E Hm. inversion HK; subst.
  constructor; [rewrite E; apply dollars_print; done | apply IH; done].
Qed.

(** C33. Whole-dollar ledgers are written exactly: when the main loop
    finishes and the amounts it wrote are the integers [ks] (whole
    dollars), each below 10000 as is each running sum, then every
    balance of Bills.csv is the binary64 double of the exact running sum
    and is written as the exact cents text, and so is the final
    [Balance] that [main] prints. *)
Theorem whole_dollars_exact fuel Begin End o i m bi s ks :
  main_loop fuel End (init_state Begin o i m bi) = Finished s ->
  map EAmount (BillsOut s) = map of_Z ks ->
  Forall (fun k => Z.abs k < 10 ^ 4) (ks ++ prefix_sums 0 ks) ->
  map EBalance (BillsOut s) = map of_Z (prefix_sums 0 ks)
  /\ Forall2 (fun e K => print_amount (100 * K) = Some (print_double (EBalance e)))
       (BillsOut s) (prefix_sums 0 ks)
  /\ print_amount (100 * fold_right Z.add 0 ks) = Some (print_double (Balance s)).
Proof.
  intros Hr Ha Hf.
  assert (Hi : balance_inv (init_state Begin o i m bi)) by (split; [exact I | reflexivity]).
  destruct (main_loop_inv _ _ _ _ Hi Hr) as [Hl Hb].
  destruct (ledger_dollars 0 (BillsOut s) ks ltac:(cbn; lia) Hl Ha Hf) as [Hm Hs].
  rewrite Z.add_0_l in Hs. rewrite Hb, Hs.
  apply Forall_app in Hf as [Hk Hp].
  split; [done | split].
  - apply balances_text; done.
  - destruct ks as [|k ks']; [reflexivity|].
    apply dollars_print. pose proof (prefix_sums_in 0 (k :: ks') ltac:(done)) as L.
    rewrite Z.add_0_l in L. rewrite Forall_forall in Hp. exact (Hp _ L).
Qed.

Lemma whole_dollars_exact_witness :
  exists s, main_loop 3 (mkDate 1 4 2020)
      (init_state (mkDate 1 1 2020) [mkOnce (mkDate 1 2 2020) (of_Z 1500) "Pay"]
         [mkInterval (mkDate 1 1 2020) 1 0 0 (of_Z (-35)) "Rent"] [] []) = Finished s
    /\ map EAmount (BillsOut s) = map of_Z [-35; 1500; -35; -35]
    /\ Forall (fun k => Z.abs k < 10 ^ 4) ([-35; 1500; -35; -35] ++ prefix_sums 0 [-35; 1500; -35; -35])
    /\ map EBalance (BillsOut s) = map of_Z (prefix_sums 0 [-35; 1500; -35; -35])
    /\ Forall2 (fun e K => print_amount (100 * K) = Some (print_double (EBalance e)))
         (BillsOut s) (prefix_sums 0 [-35; 1500; -35; -35])
    /\ print_amount (100 * fold_right Z.add 0 [-35; 1500; -35; -35]) = Some (print_double (Balance s)).
Proof.
  lazymatch eval vm_compute in
    (main_loop 3 (mkDate 1 4 2020)
      (init_state (mkDate 1 1 2020) [mkOnce (mkDate 1 2 2020) (of_Z 1500) "Pay"]
         [mkInterval (mkDate 1 1 2020) 1 0 0 (of_Z (-35)) "Rent"] [] [])) with
  | Finished ?s =>
      exists s;
      assert (Hr : main_loop 3 (mkDate 1 4 2020)
        (init_state (mkDate 1 1 2020) [mkOnce (mkDate 1 2 2020) (of_Z 1500) "Pay"]
           [mkInterval (mkDate 1 1 2020) 1 0 0 (of_Z (-35)) "Rent"] [] []) = Finished s)
        by (vm_compute; reflexivity);
      assert (Ha : map EAmount (BillsOut s) = map of_Z [-35; 1500; -35; -35]) by (vm_compute; reflexivity);
      assert (Hf : Forall (fun k => Z.abs k < 10 ^ 4) ([-35; 1500; -35; -35] ++ prefix_sums 0 [-35; 1500; -35; -35]))
        by (vm_compute; repeat constructor);
      split; [exact Hr | split; [exact Ha | split; [exact Hf |]]];
      exact (whole_dollars_exact _ _ _ _ _ _ _ _ _ Hr Ha Hf)
  end.
Defined.

End Bills.
