(* ===== verification/Accuracy.v ===== *)
(** * Accuracy: the binary64 balance against the exact sum of the amounts

    [main] keeps [Balance] in a [double] and adds each firing node's
    [Amount] to it with [Balance+=Amount] (src/BillIntervals.cpp, lines
    619, 650, 682 and 719), so every balance written to Bills.csv is
    rounded once more.  This file gives doubles their value as rationals
    ([dval], [m * 2^e] with its sign), shows that one binary64 addition
    whose result is finite is within the unit roundoff [2^-53] of the
    exact sum relative to its result (round to nearest, ties to even;
    exact below the normal range), and sums these errors over the ledger:
    the final [Balance] differs from the exact sum of the amounts written
    by at most [2^-53] times the sum of the magnitudes of the balances
    Bills.csv shows, whenever none of them overflowed.  This is the
    classical bound for recursive summation, in the program's own
    arithmetic; [Main.balance_drift] shows the error is not zero. *)

From Stdlib Require Import QArith Qabs Qpower Lqa.
From Stdlib Require Import Floats.SpecFloat.
From S2P Require Import Prelude Binary64 Calendar Parse Transactions Scheduler Loader.
Import Binary64 Calendar Transactions Scheduler.
Open Scope Q_scope.

Module Accuracy.

(** ** The value of a double *)

Definition two : Q := 2 # 1.

(** [(-1)^s * m * 2^e] for a finite double, 0 for a zero; infinities and
    NaN are excluded by the hypotheses of the theorems. *)
Definition dval (x : double) : Q :=
  match x with
  | S754_finite s m e => inject_Z (cond_Zopp s (Zpos m)) * two ^ e
  | _ => 0
  end.

(** A finite double as the operations produce it: zero, or a finite
    value whose exponent is at least the smallest one, [-1074]. *)
Definition dfinite (x : double) : Prop :=
  match x with
  | S754_zero _ => True
  | S754_finite _ _ e => (-1074 <= e)%Z
  | _ => False
  end.

(** Not an infinity or a NaN. *)
Definition is_fin (x : double) : bool :=
  match x with
  | S754_zero _ | S754_finite _ _ _ => true
  | _ => false
  end.

(** The unit roundoff of binary64, [2^-53]. *)
Definition u : Q := 1 # 9007199254740992.

Definition qsum (l : list Q) : Q := fold_right Qplus 0 l.

(** ** Powers of two *)

Lemma two_pow_pos k : 0 < two ^ k.
Proof. apply Qpower_0_lt. reflexivity. Qed.

Lemma two_pow_add a k : (0 <= k)%Z -> two ^ (a + k) == inject_Z (2 ^ k) * two ^ a.
Proof.
  intros Hk. rewrite Qpower_plus by discriminate. rewrite Zpower_Qpower by done.
  change (inject_Z 2) with two. ring.
Qed.

Lemma Qz_shift n a k :
  (0 <= k)%Z -> inject_Z n * two ^ (a + k) == inject_Z (n * 2 ^ k) * two ^ a.
Proof. intros Hk. rewrite two_pow_add, inject_Z_mult by done. ring. Qed.

Lemma Qabs_inject z : Qabs (inject_Z z) == inject_Z (Z.abs z).
Proof. unfold inject_Z. rewrite <- Zabs_Qabs. reflexivity. Qed.

Lemma cond_Zopp_mul s a k : cond_Zopp s (a * k) = (cond_Zopp s a * k)%Z.
Proof. destruct s; cbn; lia. Qed.

(** [A * 2^b] is within a relative [2^-53] of [B * 2^b] when the integers
    are. *)
Lemma rel_err A B v :
  0 < v -> (2 ^ 53 * Z.abs (A - B) <= Z.abs A)%Z ->
  Qabs (inject_Z A * v - inject_Z B * v) <= u * Qabs (inject_Z A * v).
Proof.
  intros Hv H.
  assert (E : inject_Z A * v - inject_Z B * v == inject_Z (A - B) * v)
    by (unfold Z.sub; rewrite inject_Z_plus, inject_Z_opp; ring).
  rewrite E, !Qabs_Qmult, (Qabs_pos v) by (apply Qlt_le_weak; done).
  rewrite !Qabs_inject.
  rewrite Zle_Qle, inject_Z_mult in H. change (inject_Z (2 ^ 53)) with (9007199254740992 # 1) in H.
  assert (H' : inject_Z (Z.abs (A - B)) <= u * inject_Z (Z.abs A)) by (unfold u; lra).
  rewrite Qmult_assoc.
  apply Qmult_le_compat_r; [exact H' | apply Qlt_le_weak; exact Hv].
Qed.

Lemma u_nonneg : 0 <= u.
Proof. unfold u. discriminate. Qed.

(** ** One rounding *)

(** [round_at] at the exponent [L] of the normal range: a mantissa in
    [2^52, 2^53] within half a unit of the exact value, so within a
    relative [2^-53]. *)
Lemma round_at_err p e :
  let L := (Z.log2 (Zpos p) + 1 + e - 53)%Z in
  let q := round_at (Zpos p) e L in
  let b := Z.min e L in
  (2 ^ 52 <= q <= 2 ^ 53)%Z
  /\ (2 ^ 53 * Z.abs (q * 2 ^ (L - b) - Zpos p * 2 ^ (e - b)) <= q * 2 ^ (L - b))%Z.
Proof.
  intros L q b. pose proof (log2_bounds (Zpos p) ltac:(lia)) as Bp.
  pose proof (Z.log2_nonneg (Zpos p)). unfold q, round_at, b.
  destruct (Z.ltb_spec e L) as [Lt | Ge].
  - rewrite Z.min_l by lia. rewrite Z.sub_diag, Z.mul_1_r.
    assert (Bq : (2 ^ 52 <= rne_shift (Zpos p) (L - e) <= 2 ^ 53)%Z).
    { apply rne_shift_bounds; [lia|]. rewrite <- !Z.pow_add_r by lia.
      split; [apply (Z.le_trans _ (2 ^ Z.log2 (Zpos p))); [apply Z.pow_le_mono_r; lia | lia]|].
      apply (Z.lt_le_trans _ (2 ^ (Z.log2 (Zpos p) + 1))); [lia | apply Z.pow_le_mono_r; lia]. }
    pose proof (rne_shift_error (Zpos p) (L - e) ltac:(lia)) as Er.
    assert (0 < 2 ^ (L - e))%Z by (apply Z.pow_pos_nonneg; lia).
    split; [exact Bq|]. change (2 ^ 53)%Z with (2 * 2 ^ 52)%Z. nia.
  - rewrite Z.min_r by lia. rewrite Z.sub_diag, Z.pow_0_r, Z.mul_1_r.
    assert (E : (e - L = 52 - Z.log2 (Zpos p))%Z) by (unfold L; lia).
    assert (P : (2 ^ 52 = 2 ^ Z.log2 (Zpos p) * 2 ^ (e - L))%Z)
      by (rewrite <- Z.pow_add_r by lia; f_equal; lia).
    assert (P' : (2 ^ 53 = 2 ^ (Z.log2 (Zpos p) + 1) * 2 ^ (e - L))%Z)
      by (rewrite <- Z.pow_add_r by lia; f_equal; lia).
    assert (0 < 2 ^ (e - L))%Z by (apply Z.pow_pos_nonneg; lia).
    split; [split; nia|]. rewrite Z.sub_diag, Z.abs_0. nia.
Qed.


(** A finite double as [m * 2^(e-b)] at any smaller exponent [b]. *)
Lemma dval_at s m e b :
  (b <= e)%Z -> dval (S754_finite s m e) == inject_Z (cond_Zopp s (Zpos m * 2 ^ (e - b))) * two ^ b.
Proof.
  intros H. cbn [dval]. rewrite cond_Zopp_mul, <- Qz_shift by lia.
  replace (b + (e - b))%Z with e by lia. reflexivity.
Qed.

Lemma cond_Zopp_err s X Y :
  (0 <= X)%Z -> (2 ^ 53 * Z.abs (X - Y) <= X)%Z ->
  (2 ^ 53 * Z.abs (cond_Zopp s X - cond_Zopp s Y) <= Z.abs (cond_Zopp s X))%Z.
Proof. intros HX H. destruct s; cbn [cond_Zopp]; lia. Qed.

Lemma zero_err z : Qabs 0 <= u * Qabs z.
Proof. change (Qabs 0) with 0. apply Qmult_le_0_compat; [apply u_nonneg | apply Qabs_nonneg]. Qed.

(** [binary_round] of a value whose exponent is at least [-1074]: when the
    result is finite, it is a double as the operations produce it and lies
    within [2^-53] of the value, relative to itself. *)
Lemma binary_round_err sx p e :
  (-1074 <= e)%Z -> is_fin (binary_round prec emax sx p e) = true ->
  dfinite (binary_round prec emax sx p e)
  /\ Qabs (dval (binary_round prec emax sx p e) - dval (S754_finite sx p e))
     <= u * Qabs (dval (binary_round prec emax sx p e)).
Proof.
  intros He. pose proof (Z.log2_nonneg (Zpos p)).
  destruct (Z_lt_le_dec (Z.log2 (Zpos p) + 1 + e - 53) (-1074)) as [Hs | Hn].
  - rewrite binary_round_sub by lia. intros _. split; [cbn; lia|].
    assert (P : (0 < Zpos p * 2 ^ (e + 1074))%Z) by (apply Z.mul_pos_pos; [lia | apply Z.pow_pos_nonneg; lia]).
    rewrite (dval_at sx p e (-1074)) by lia. cbn [dval]. rewrite Z2Pos.id by exact P.
    replace (e - -1074)%Z with (e + 1074)%Z by lia.
    assert (E : forall x : Q, x - x == 0) by (intros; ring). rewrite E. apply zero_err.
  - rewrite binary_round_gen by lia.
    destruct (round_at_err p e) as [Bq Er].
    set (L := (Z.log2 (Zpos p) + 1 + e - 53)%Z) in *.
    set (q := round_at (Zpos p) e L) in *. set (b := Z.min e L) in *.
    rewrite (dval_at sx p e b) by lia.
    assert (HX : (0 <= q * 2 ^ (L - b))%Z) by (apply Z.mul_nonneg_nonneg; [lia | apply Z.pow_nonneg; lia]).
    unfold canon_fin. destruct (Z.eqb_spec q (2 ^ 53)) as [Eq | Ne].
    + destruct (Z.leb_spec (L + 1) (emax - prec)); intros Hf; [|discriminate].
      split; [cbn; lia|]. rewrite (dval_at sx _ (L + 1) b) by lia.
      replace (Zpos (2 ^ 52) * 2 ^ (L + 1 - b))%Z with (q * 2 ^ (L - b))%Z
        by (rewrite Eq; replace (L + 1 - b)%Z with (1 + (L - b))%Z by lia;
            rewrite Z.pow_add_r by lia; cbn; lia).
      apply rel_err; [apply two_pow_pos | apply cond_Zopp_err; done].
    + destruct (Z.leb_spec L (emax - prec)); intros Hf; [|discriminate].
      split; [cbn; lia|]. rewrite (dval_at sx _ L b) by lia. rewrite Z2Pos.id by lia.
      apply rel_err; [apply two_pow_pos | apply cond_Zopp_err; done].
Qed.

Lemma binary_normalize_err M e :
  (-1074 <= e)%Z -> is_fin (binary_normalize prec emax M e false) = true ->
  dfinite (binary_normalize prec emax M e false)
  /\ Qabs (dval (binary_normalize prec emax M e false) - inject_Z M * two ^ e)
     <= u * Qabs (dval (binary_normalize prec emax M e false)).
Proof.
  destruct M as [|p|p]; cbn [binary_normalize]; intros He Hf.
  - split; [exact I|]. cbn [dval]. assert (E : 0 - inject_Z 0 * two ^ e == 0) by ring.
    rewrite E. apply zero_err.
  - exact (binary_round_err false p e He Hf).
  - exact (binary_round_err true p e He Hf).
Qed.

(** ** One addition *)

(** [Balance+=Amount]: a finite result is within [2^-53] of the exact sum,
    relative to itself. *)
Lemma dadd_err x y :
  dfinite x -> dfinite y -> is_fin (dadd x y) = true ->
  dfinite (dadd x y) /\ Qabs (dval (dadd x y) - (dval x + dval y)) <= u * Qabs (dval (dadd x y)).
Proof.
  destruct x as [sx| | |sx mx ex], y as [sy| | |sy my ey]; cbn [dfinite]; intros Hx Hy; try contradiction.
  - unfold dadd, SFadd. intros _. split; [destruct sx, sy; exact I|].
    destruct sx, sy; cbn [dval]; change (Qabs (0 - (0 + 0))) with (Qabs 0); apply zero_err.
  - intros _. split; [exact Hy|]. unfold dadd, SFadd.
    assert (E : dval (S754_finite sy my ey) - (dval (S754_zero sx) + dval (S754_finite sy my ey)) == 0)
      by (cbn [dval]; ring).
    rewrite E. apply zero_err.
  - intros _. split; [exact Hx|]. unfold dadd, SFadd.
    assert (E : dval (S754_finite sx mx ex) - (dval (S754_finite sx mx ex) + dval (S754_zero sy)) == 0)
      by (cbn [dval]; ring).
    rewrite E. apply zero_err.
  - rewrite dadd_finite. intros Hf.
    destruct (binary_normalize_err _ (Z.min ex ey) ltac:(lia) Hf) as [Hd He]. split; [exact Hd|].
    rewrite (dval_at sx mx ex (Z.min ex ey)), (dval_at sy my ey (Z.min ex ey)) by lia.
    assert (S : forall A B t, inject_Z A * t + inject_Z B * t == inject_Z (A + B) * t)
      by (intros; rewrite inject_Z_plus; ring).
    rewrite S. exact He.
Qed.

(** ** The running balance *)

(** The error of the running sum [running b l] against the exact sum of
    [b] and the amounts of [l] is at most [2^-53] times the sum of the
    magnitudes of the balances written, when none of them overflowed. *)
Lemma running_error b l :
  dfinite b -> ledger_ok b l ->
  Forall (fun e => dfinite (EAmount e) /\ is_fin (EBalance e) = true) l ->
  dfinite (running b l)
  /\ Qabs (dval (running b l) - (dval b + qsum (map (fun e => dval (EAmount e)) l)))
     <= u * qsum (map (fun e => Qabs (dval (EBalance e))) l).
Proof.
  revert b. induction l as [|e l IH]; intros b Hb Hl Hf.
  - unfold running, qsum. cbn [fold_left map fold_right]. split; [exact Hb|].
    assert (E : dval b - (dval b + 0) == 0) by ring.
    rewrite E, Qmult_0_r. apply Qle_refl.
  - destruct Hl as [Eb Hl]. inversion Hf as [|? ? [Ha Hfin] Hf']; subst.
    rewrite Eb in Hfin. destruct (dadd_err b (EAmount e) Hb Ha Hfin) as [Hd Herr].
    rewrite <- Eb in Hd, Herr.
    destruct (IH (EBalance e) Hd Hl Hf') as [Hr IHe].
    rewrite running_cons, <- Eb. split; [exact Hr|]. cbn [map qsum fold_right] in *.
    set (R := dval (running (EBalance e) l)) in *.
    set (S := fold_right Qplus 0 (map (fun e0 => dval (EAmount e0)) l)) in *.
    assert (E : R - (dval b + (dval (EAmount e) + S))
                == (R - (dval (EBalance e) + S)) + (dval (EBalance e) - (dval b + dval (EAmount e))))
      by ring.
    rewrite E. eapply Qle_trans; [apply Qabs_triangle|]. unfold qsum in IHe. unfold S, u in *. lra.
Qed.

(** C38. Accuracy of the balance (lines 619, 650, 682, 719): when the
    main loop finishes with every amount written a finite double and no
    balance overflowed, the final [double] [Balance] differs from the
    exact sum of the amounts written by at most [2^-53] times the sum of
    the magnitudes of the balances written to Bills.csv: the error of
    recursive summation in binary64, each [Balance+=Amount] rounding to
    nearest once. *)
Theorem main_loop_balance_error fuel Begin End o i m bi s :
  main_loop fuel End (init_state Begin o i m bi) = Finished s ->
  Forall (fun e => dfinite (EAmount e) /\ is_fin (EBalance e) = true) (BillsOut s) ->
  Qabs (dval (Balance s) - qsum (map (fun e => dval (EAmount e)) (BillsOut s)))
  <= u * qsum (map (fun e => Qabs (dval (EBalance e))) (BillsOut s)).
Proof.
  intros Hr Hf. assert (Hi : balance_inv (init_state Begin o i m bi)) by (split; [exact I | reflexivity]).
  destruct (main_loop_inv _ _ _ _ Hi Hr) as [Hl Hb]. rewrite Hb.
  rewrite of_Z_0 in Hl |- *.
  destruct (running_error (S754_zero false) _ I Hl Hf) as [_ H]. cbn [dval] in H.
  rewrite Qplus_0_l in H. exact H.
Qed.

(** The drift run: 0.10, 0.20 and -0.30 added in this order.  The
    balance ends at [5.55112e-17] while the exact sum of the three
    doubles is [2.77556e-17]; the bound allows [4.44e-17]. *)
Lemma main_loop_balance_error_witness :
  exists s, main_loop 1 (mkDate 1 2 2020)
      (init_state (mkDate 1 1 2020)
         [mkOnce (mkDate 1 1 2020) (Loader.amount_double 0 0 10) "A";
          mkOnce (mkDate 1 1 2020) (Loader.amount_double 0 0 20) "B";
          mkOnce (mkDate 1 1 2020) (Loader.amount_double 1 0 30) "C"] [] [] []) = Finished s
    /\ Forall (fun e => dfinite (EAmount e) /\ is_fin (EBalance e) = true) (BillsOut s)
    /\ Qabs (dval (Balance s) - qsum (map (fun e => dval (EAmount e)) (BillsOut s)))
       <= u * qsum (map (fun e => Qabs (dval (EBalance e))) (BillsOut s)).
Proof.
  lazymatch eval vm_compute in
    (main_loop 1 (mkDate 1 2 2020)
      (init_state (mkDate 1 1 2020)
         [mkOnce (mkDate 1 1 2020) (Loader.amount_double 0 0 10) "A";
          mkOnce (mkDate 1 1 2020) (Loader.amount_double 0 0 20) "B";
          mkOnce (mkDate 1 1 2020) (Loader.amount_double 1 0 30) "C"] [] [] [])) with
  | Finished ?s =>
      exists s;
      assert (Hr : main_loop 1 (mkDate 1 2 2020)
        (init_state (mkDate 1 1 2020)
           [mkOnce (mkDate 1 1 2020) (Loader.amount_double 0 0 10) "A";
            mkOnce (mkDate 1 1 2020) (Loader.amount_double 0 0 20) "B";
            mkOnce (mkDate 1 1 2020) (Loader.amount_double 1 0 30) "C"] [] [] []) = Finished s)
        by (vm_compute; reflexivity);
      assert (Hf : Forall (fun e => dfinite (EAmount e) /\ is_fin (EBalance e) = true) (BillsOut s))
        by (vm_compute; repeat constructor; discriminate);
      split; [exact Hr | split; [exact Hf | exact (main_loop_balance_error _ _ _ _ _ _ _ _ Hr Hf)]]
  end.
Defined.

End Accuracy.
