(* ===== verification/Invariants.v ===== *)
(** * Invariants: the counter of an Interval node

    [AddInAllInterval] (src/BillIntervals.cpp, lines 645-657) increments
    the short [Counter] of a started Interval node every day and resets it
    when it reaches [Interval].  This file shows, by rule induction on the
    reflexive-transitive closure of the loop's transition system
    [Scheduler.loop_step], that from nodes as [GetBills] leaves them
    ([Counter = 0]) the counter of a node with a positive [Interval] stays
    in [0, Interval) in every state the loop reaches: the increment never
    overflows the short and the reset always happens.  The generic lemma
    [loop_reachable_inv] carries any property of the lists kept by one
    day's work to every reachable state. *)

From stdpp Require Import relations.
From S2P Require Import Prelude Binary64 Calendar Transactions Scheduler.
Import Calendar Transactions Scheduler.
Open Scope Z_scope.

Module Invariants.

(** An invariant of the state, on the running and finished loop states. *)
Definition loop_inv (I : state -> Prop) (x : loop_state) : Prop :=
  match x with
  | Running s | Done s => I s
  | Stuck => True
  end.

(** The counter of an Interval node with a positive [Interval] counts from
    0 to [Interval - 1]: [++Counter] then never leaves the short range. *)
Definition counter_ok (n : IntervalLink) : Prop :=
  in_short (Interval n) /\ (0 < Interval n -> 0 <= Counter n < Interval n).

(** A node kind whose loop body keeps a predicate [P] of the nodes. *)
Section Traversal.
Context {T : Type} `{Schedulable T} (P : T -> Prop).
Hypothesis visit_wf : forall d n n' b, visit d n = Some (n', b) -> P n -> P n'.

Lemma add_in_all_Forall cur l bal l' bal' out :
  Forall P l -> add_in_all cur l bal = Some (l', bal', out) -> Forall P l'.
Proof.
  revert bal l' bal' out.
  induction l as [|n l IH]; intros bal l' bal' out Hl Hr; simpl in Hr.
  - injection Hr as <- <- <-. done.
  - forall_inv. destruct (visit cur n) as [[n' b]|] eqn:Hv; [|discriminate].
    destruct (add_in_all cur l _) as [[[l'' bal''] out']|] eqn:E; [|discriminate].
    injection Hr as <- <- <-. constructor; [exact (visit_wf _ _ _ _ Hv HF) | exact (IH _ _ _ _ HF0 E)].
Qed.

End Traversal.

(** Any property kept by one day's work and by moving to the next date
    holds in every state the loop's transition system reaches. *)
Lemma loop_reachable_inv (I : state -> Prop) End s x :
  (forall s s1, I s -> day_work s = Some s1 -> I s1) ->
  (forall s d, I s -> AdvanceDate (Curr s) = Some d -> I (set_Curr d s)) ->
  I s -> rtc (loop_step End) (Running s) x -> loop_inv I x.
Proof.
  intros Hw Ha Hs Hr. change (loop_inv I (Running s)) in Hs. revert Hs.
  induction Hr as [x | x y z Hxy _ IH]; intros Hx; [done|]. apply IH.
  destruct Hxy as [s' Hw' | s' s1 Hw' _ | s' s1 d Hw' A _ | s' s1 d Hw' A _]; cbn in *; try done;
    exact (Ha _ _ (Hw _ _ Hx Hw') A).
Qed.

Lemma visit_interval_counter d n n' b :
  visit_interval d n = Some (n', b) -> counter_ok n -> counter_ok n'.
Proof.
  destruct n as [st i hs c am de]. unfold visit_interval, counter_ok. cbn.
  intros H [Hi Hc]. unfold in_short, short_min, short_max in Hi.
  repeat (case_match; cbn in *; simplify_eq); cbn; split; try done; intros Hp;
    try (unfold to_short in *; zcase; zlia).
Qed.

Lemma day_work_counter s s1 :
  Forall counter_ok (headInterval s) -> day_work s = Some s1 -> Forall counter_ok (headInterval s1).
Proof.
  intros Hi Hs.
  apply day_work_Some in Hs as (o & b1 & e1 & i & b2 & e2 & m & b3 & e3 & bi & b4 & e4 & E1 & E2 & E3 & E4 & ->).
  exact (@add_in_all_Forall IntervalLink Schedulable_interval counter_ok visit_interval_counter _ _ _ _ _ _ Hi E2).
Qed.

(** C30. Bounds of the interval counter (lines 645-657): from a state
    whose Interval nodes have a short [Interval] and, when it is positive,
    a [Counter] in [0, Interval) (as [GetBills] leaves them, with
    [Counter = 0]), every state the loop reaches keeps each such counter in
    [0, Interval): [++Counter] never overflows the short and the reset at
    [Counter == Interval] always happens. *)
Theorem interval_counter_bounds End s x :
  Forall counter_ok (headInterval s) -> rtc (loop_step End) (Running s) x ->
  loop_inv (fun s' => Forall counter_ok (headInterval s')) x.
Proof.
  apply (loop_reachable_inv (fun s' => Forall counter_ok (headInterval s')));
    [exact day_work_counter | intros s' d H _; exact H].
Qed.

(** ** Witnesses *)

(** One step of the loop from a concrete state, the next state computed. *)
Ltac loop_step_eval :=
  eapply rtc_l;
  [ lazymatch goal with
    | |- loop_step ?E (Running ?s) _ =>
        let r := eval vm_compute in (day_work s) in
        lazymatch r with
        | Some ?s1 =>
            let a := eval vm_compute in (AdvanceDate (Curr s1)) in
            lazymatch a with
            | Some ?d =>
                first [ apply (step_next E s s1 d); vm_compute; reflexivity
                      | apply (step_done E s s1 d); vm_compute; reflexivity ]
            end
        end
    end
  | ].

Lemma interval_counter_bounds_witness :
  loop_inv (fun s' => Forall counter_ok (headInterval s'))
    (Done (mkState (mkDate 1 4 2020) (Binary64.of_Z (-10)) [] [mkInterval (mkDate 1 1 2020) 2 1 1 (Binary64.of_Z (-5)) "Gym"] [] []
             [mkEntry (Binary64.of_Z (-5)) (Binary64.of_Z (-5)) 1 1 2020 "Gym";
              mkEntry (Binary64.of_Z (-10)) (Binary64.of_Z (-5)) 1 3 2020 "Gym"])).
Proof.
  apply (interval_counter_bounds (mkDate 1 4 2020)
           (init_state (mkDate 1 1 2020) [] [mkInterval (mkDate 1 1 2020) 2 0 0 (Binary64.of_Z (-5)) "Gym"] [] [])).
  - cbn. constructor; [|constructor]. unfold counter_ok, in_short, short_min, short_max; cbn; lia.
  - do 3 loop_step_eval. vm_compute. apply rtc_refl.
Defined.

End Invariants.
