(* ===== verification/Main.v ===== *)
(** * Main: [main] composed from [GetBills] and the simulation loop

    Models [int main] (src/BillIntervals.cpp, lines 127-178).  It loads the
    file with [GetBills], returns -1 (here the loader's error) if that
    fails, sets [Curr] to Begin and [Balance] to [0.0] with the four
    loaded lists, and runs the [while (!done)] loop.  The theorems are
    about the whole program: its result depends on the tokens of the file
    only, not on the uninitialised buffers, and on a file with valid Begin
    before a valid End it stops at End with a ledger whose balance column
    is the binary64 running sum, whose lines are the ledger of the spec's
    firing table for the lists it loaded.  The examples replay scenarios 2
    to 4 of the spec as the text of Bills.csv, and a file on which the
    binary64 balance drifts from the exact sum of the amounts. *)

From S2P Require Import Prelude Binary64 Calendar Parse Csv Gformat Transactions Scheduler Ledger Loader Money Bills.
Import Calendar Parse Transactions Csv Gformat Loader Scheduler Bills.
Open Scope Z_scope.

Module Main.

Local Open Scope bills_scope.

(** [nResult=GetBills(...); if (nResult==-1) return -1;], the
    initialisation of lines 149-155, and the loop of lines 159-169. *)
Definition main (toks : list string) (b : buffers) (fuel : nat) : res load_error outcome :=
  r <- GetBills toks b ;;
  let '(Begin, End, reg) := r in
  ret (main_loop fuel End
         (init_state Begin (Loader.headOnce reg) (Loader.headInterval reg)
            (Loader.headMonthly reg) (Loader.headBimonthly reg))).

Local Close Scope bills_scope.

(** The text of Bills.csv and of the final balance of a finished run. *)
Definition run_text (r : res load_error outcome) : option (list ascii * list ascii) :=
  match r with
  | Ok (Finished s) => Some (bills_csv (BillsOut s), print_double (Balance s))
  | _ => None
  end.

(** Lines of text, each ended by a line break. *)
Definition text_lines (ls : list string) : list ascii :=
  flat_map (fun l => list_ascii_of_string l ++ [newline]) ls.

Local Open Scope string_scope.

(** Spec section 8, scenario 2: a Monthly transaction of -35.00 from
    01.15.2020, simulated through 03.01.2020, fires on 01.15 and 02.15. *)
Example scenario_monthly :
  run_text (main ["01.01.2020"; "03.01.2020";
                  ","; "Monthly"; "x"; "01.15.2020"; "-35.00"; "Rent"] garbage 100)
  = Some (text_lines ["-35,-35,1-15-2020,Rent"; "-70,-35,2-15-2020,Rent"],
          list_ascii_of_string "-70").
Proof. vm_compute. reflexivity. Qed.

(** Spec section 8, scenario 3: an Interval transaction of 180 days from
    09.23.2002 fires on 09.23.2002 and 180 days later, on 03.22.2003. *)
Example scenario_interval :
  run_text (main ["09.23.2002"; "09.01.2003";
                  ","; "Interval"; "180"; "09.23.2002"; "-80.00"; "CarService"] garbage 400)
  = Some (text_lines ["-80,-80,9-23-2002,CarService"; "-160,-80,3-22-2003,CarService"],
          list_ascii_of_string "-160").
Proof. vm_compute. reflexivity. Qed.

(** Spec section 8, scenario 4: a malformed date aborts the load, and no
    ledger is written. *)
Example scenario_bad_date :
  main ["01.01.2020"; "03.01.2020"; ","; "Once"; "x"; "13.99.abcd"; "1.00"; "Bad"] garbage 100
  = Err BadDate.
Proof. vm_compute. reflexivity. Qed.

(** The balance column drifts from the exact sum: three one-time
    transactions of 0.10, 0.20 and -0.30 on 1 January 2020 (listed last
    first, as [GetBills] pushes each record on the head) sum to 0.00, but
    [Balance+=Amount] in binary64 leaves 5.55112e-17, which Bills.csv and
    the final balance show. *)
Example balance_drift :
  run_text (main ["01.01.2020"; "01.02.2020";
                  ","; "Once"; "x"; "01.01.2020"; "-0.30"; "C";
                  ","; "Once"; "x"; "01.01.2020"; "0.20"; "B";
                  ","; "Once"; "x"; "01.01.2020"; "0.10"; "A"] garbage 1)
  = Some (text_lines ["0.1,0.1,1-1-2020,A"; "0.3,0.2,1-1-2020,B"; "5.55112e-17,-0.3,1-1-2020,C"],
          list_ascii_of_string "5.55112e-17").
Proof. vm_compute. reflexivity. Qed.

Local Close Scope string_scope.

(** C14. The program is a function of the tokens of its input file (spec
    section 8, idempotence): whatever the uninitialised buffers hold, two
    runs on a file of at least two tokens, each without NUL bytes and
    shorter than 100 characters, give the same ledger and balance. *)
Theorem main_buffers_indep toks b1 b2 fuel :
  tokens_ok toks -> (2 <= length toks)%nat -> main toks b1 fuel = main toks b2 fuel.
Proof. intros Hok Hl. unfold main. rewrite (GetBills_indep toks b1 b2 Hok Hl). reflexivity. Qed.

(** C19. On a file that loads with a valid Begin before a valid End, the
    program stops after [days_of End - days_of Begin] days with [Curr] at
    End, every line of Bills.csv carries the running balance as the
    program computes it (the previous balance from [0.0] plus the line's
    amount, in binary64), and the final balance is the binary64 sum of the
    amounts written, in order. *)
Theorem main_finishes toks b Begin End reg :
  GetBills toks b = Ok (Begin, End, reg) ->
  valid_date Begin = true -> valid_date End = true -> days_of Begin < days_of End ->
  exists s, main toks b (Z.to_nat (days_of End - days_of Begin)) = Ok (Finished s) /\
    Curr s = End /\ ledger_ok (Binary64.of_Z 0) (BillsOut s)
    /\ Balance s = running (Binary64.of_Z 0) (BillsOut s).
Proof.
  intros HG VB VE Hlt. unfold main. rewrite HG. simpl.
  set (s0 := init_state Begin (Loader.headOnce reg) (Loader.headInterval reg)
               (Loader.headMonthly reg) (Loader.headBimonthly reg)).
  edestruct (main_loop_reaches (pred (Z.to_nat (days_of End - days_of Begin)))
               (Z.to_nat (days_of End - days_of Begin)) End s0)
    as (s & Hs & Hc); [exact VB | exact VE | simpl; lia | lia |].
  exists s. rewrite Hs. split; [done|]. split; [done|].
  eapply main_loop_inv; [| exact Hs]. done.
Qed.

(** C29. The whole program against the spec's firing table (section 4.3):
    on a file that loads with a valid Begin before a valid End, the run
    stops at End and the lines of Bills.csv, balance column aside, are
    the table's ledger over the days from Begin to the day before End,
    for the four lists as [GetBills] loaded them (each in reverse file
    order). *)
Theorem main_table_ledger toks b Begin End reg :
  GetBills toks b = Ok (Begin, End, reg) ->
  valid_date Begin = true -> valid_date End = true -> days_of Begin < days_of End ->
  exists s, main toks b (Z.to_nat (days_of End - days_of Begin)) = Ok (Finished s) /\
    map Ledger.line_of (BillsOut s)
    = Ledger.table_ledger (Ledger.run_days Begin End) (Loader.headOnce reg)
        (Loader.headInterval reg) (Loader.headMonthly reg) (Loader.headBimonthly reg).
Proof.
  intros HG VB VE Hlt. unfold main. rewrite HG. simpl.
  destruct (Ledger.main_loop_spec_ledger Begin End (Loader.headOnce reg) (Loader.headInterval reg)
              (Loader.headMonthly reg) (Loader.headBimonthly reg) VB VE Hlt) as (s & Hs & L).
  exists s. rewrite Hs. split; [done|]. rewrite L.
  apply Ledger.spec_ledger_table; [apply Ledger.days_list_months, VB|].
  destruct (GetBills_reg_ok _ _ _ _ _ HG) as (Hi & Hm & Hb).
  split; [|split]; (eapply Forall_impl; [| eassumption]); naive_solver.
Qed.

(** ** Witnesses *)

Lemma main_buffers_indep_witness :
  main sample_file garbage 10 = main sample_file (mkBuffers [] [] [] [] [] []) 10.
Proof.
  apply main_buffers_indep; [|simpl; lia].
  unfold tokens_ok, sample_file.
  repeat (apply List.Forall_cons; [split; [no_nul | simpl; lia]|]). apply List.Forall_nil.
Defined.

Lemma main_finishes_witness :
  exists s, main sample_file garbage
              (Z.to_nat (days_of (mkDate 1 1 2004) - days_of (mkDate 9 19 2002)))
            = Ok (Finished s) /\
    Curr s = mkDate 1 1 2004 /\ ledger_ok (Binary64.of_Z 0) (BillsOut s)
    /\ Balance s = running (Binary64.of_Z 0) (BillsOut s).
Proof.
  apply (main_finishes _ _ _ _
           (mkRegistry [mkOnce (mkDate 9 23 2002) (amount_double 0 1637 29) "CurrentBalance9.23.2002"]
                       [mkInterval (mkDate 10 1 2002) 180 0 0 (amount_double 1 80 0) "CarServiceB"]
                       [mkMonthly (mkDate 9 25 2002) 0 (amount_double 1 35 0) "FastLane"] []));
    [vm_compute; reflexivity | reflexivity | reflexivity | vm_compute; reflexivity].
Defined.

Lemma main_table_ledger_witness :
  exists s, main sample_file garbage
              (Z.to_nat (days_of (mkDate 1 1 2004) - days_of (mkDate 9 19 2002)))
            = Ok (Finished s) /\
    map Ledger.line_of (BillsOut s)
    = Ledger.table_ledger (Ledger.run_days (mkDate 9 19 2002) (mkDate 1 1 2004))
        [mkOnce (mkDate 9 23 2002) (amount_double 0 1637 29) "CurrentBalance9.23.2002"]
        [mkInterval (mkDate 10 1 2002) 180 0 0 (amount_double 1 80 0) "CarServiceB"]
        [mkMonthly (mkDate 9 25 2002) 0 (amount_double 1 35 0) "FastLane"] [].
Proof.
  apply (main_table_ledger _ _ _ _
           (mkRegistry [mkOnce (mkDate 9 23 2002) (amount_double 0 1637 29) "CurrentBalance9.23.2002"]
                       [mkInterval (mkDate 10 1 2002) 180 0 0 (amount_double 1 80 0) "CarServiceB"]
                       [mkMonthly (mkDate 9 25 2002) 0 (amount_double 1 35 0) "FastLane"] []));
    [vm_compute; reflexivity | reflexivity | reflexivity | vm_compute; reflexivity].
Defined.

End Main.
