(* ===== verification/Console.v ===== *)
(** * Console: what the program prints on standard output

    [GetBills] and the three parsers print a diagnostic before each
    [return -1] that follows a failed parse (src/BillIntervals.cpp, lines
    196, 222, 257, 270, 281, 311, 321, 412, 469, 524, 549), and
    [GetBills] prints the Begin and End dates it read (lines 315 and 325);
    [main] prints [Couldn't read data file.] when the load fails (line 145)
    and [End balance: ] with its [double] balance when the loop ends (lines
    173-175).  This file threads that output through the loader in a
    writer-and-error monad [io]: a computation returns the text it printed
    and its result.  [nums_out], [number_out] and [dollars_out] are the
    parsers with their messages; [load_once_io] to [GetBills_io] are the
    branches and the loop of [GetBills] with the [std::cout] lines; and
    [main_io] is [main] with its output.

    Erasing the output gives back the models of [Loader] and [Main]
    ([main_io_erase]), so the console is an extension of the verified
    program, not a second program.  A file that loads prints exactly its
    two dates and the end balance ([main_io_console]); [strcpy_s] on an
    over-long description prints nothing and ends the process: the Start
    and End lines, flushed by [std::endl], are all the console shows
    ([console_long_description]).  Every other failure ends the console
    with a line the loader printed ([load_failure_reported]), proved
    through the predicate [reported] that each branch preserves. *)

From S2P Require Import Prelude Binary64 Calendar Parse Csv Gformat Transactions Scheduler Loader Main.
Import Calendar Parse Transactions Csv Gformat Scheduler Loader.
Open Scope Z_scope.

Module Console.

(** ** The writer-and-error monad *)

Definition io (A : Type) : Type := (list ascii * res load_error A)%type.

Definition io_ret {A} (a : A) : io A := ([], Ok a).

Definition io_bind {A B} (m : io A) (f : A -> io B) : io B :=
  match m with
  | (w, Ok a) => let '(w', r) := f a in (w ++ w', r)
  | (w, Err e) => (w, Err e)
  end.

(** [std::cout << w]. *)
Definition say (w : list ascii) : io unit := (w, Ok tt).

Declare Scope console_scope.
Delimit Scope console_scope with console.
Notation "x <~ c ;; k" := (io_bind c (fun x => k))
  (at level 100, c at next level, right associativity) : console_scope.

(** [if (nResult==-1) { std::cout << msg; return -1; }] after a parser
    that printed [w]. *)
Definition check_or {A} (p : list ascii * option A) (e : load_error) (msg : list ascii) : io A :=
  match p with
  | (w, Some a) => (w, Ok a)
  | (w, None) => (w ++ msg, Err e)
  end.

Definition check {A} (p : list ascii * option A) (e : load_error) : io A := check_or p e [].

Definition str (s : string) : list ascii := list_ascii_of_string s.

Definition slash : ascii := "/"%char.

(** [<< M << "/" << D << "/" << Y] for three shorts. *)
Definition date_text (d : date) : list ascii :=
  print_short (dm d) ++ slash :: print_short (dd d) ++ slash :: print_short (dy d).

(** ** The parsers with their messages *)

Definition nums_out (l : buffer) : list ascii * option date :=
  match StringToNums l with
  | Some d => ([], Some d)
  | None => (str "Couldn't read the date '" ++ c_string l ++ str "'.  Use format mm.dd.yyyy"
             ++ [newline], None)
  end.

Definition number_out (l : buffer) : list ascii * option Z :=
  match StringToNumber l with
  | Some n => ([], Some n)
  | None => (str "Number in input '" ++ c_string l ++ str "' contained non-number characters."
             ++ [newline], None)
  end.

(** The three failures of [StringToDollars] print the same text. *)
Definition dollars_out (l : buffer) : list ascii * option Binary64.double :=
  match dollars_amount l with
  | Some a => ([], Some a)
  | None => (str "Couldn't use line '" ++ c_string l ++ str "'" ++ [newline]
             ++ str " - not in the dollar/cent format d.cc, dd.cc, ddd.cc, etc." ++ [newline], None)
  end.

(** [strcpy_s] prints nothing. *)
Definition quiet {A} (o : option A) (e : load_error) : io A := ([], opt_err o e).

Definition before_msg (l5 : buffer) : list ascii :=
  str "Start date of '" ++ c_string l5
  ++ str "' occurs before report Begin date, please make it on or after report Begin date."
  ++ [newline].

Definition tag_msg (l1 : buffer) : list ascii :=
  str "Couldn't read line: " ++ c_string l1 ++ str "-- aborting file read" ++ [newline].

Local Open Scope console_scope.

(** ** [GetBills] with its output *)

Definition load_once_io (b : buffers) (reg : registry) : io registry :=
  d <~ check (nums_out (line3 b)) BadDate ;;
  amt <~ check (dollars_out (line4 b)) BadDollars ;;
  desc <~ quiet (copy_description (line5 b)) DescriptionTooLong ;;
  io_ret (mkRegistry (mkOnce d amt desc :: headOnce reg)
                     (headInterval reg) (headMonthly reg) (headBimonthly reg)).

Definition load_interval_io (Begin : date) (b : buffers) (reg : registry) : io registry :=
  iv <~ check (number_out (line2 b)) BadNumber ;;
  d <~ check (nums_out (line3 b)) BadDate ;;
  amt <~ check (dollars_out (line4 b)) BadDollars ;;
  if before_begin d Begin then (before_msg (line5 b), Err BeforeBegin) else
  desc <~ quiet (copy_description (line5 b)) DescriptionTooLong ;;
  io_ret (mkRegistry (headOnce reg)
                     (mkInterval d iv 0 0 amt desc :: headInterval reg)
                     (headMonthly reg) (headBimonthly reg)).

Definition load_monthly_io (Begin : date) (nResult : Z) (b : buffers) (reg : registry) : io registry :=
  if nResult =? -1 then ([], Err StaleResult) else
  d <~ check (nums_out (line3 b)) BadDate ;;
  amt <~ check (dollars_out (line4 b)) BadDollars ;;
  if before_begin d Begin then (before_msg (line5 b), Err BeforeBegin) else
  desc <~ quiet (copy_description (line5 b)) DescriptionTooLong ;;
  io_ret (mkRegistry (headOnce reg) (headInterval reg)
                     (mkMonthly d 0 amt desc :: headMonthly reg) (headBimonthly reg)).

Definition load_bimonthly_io (Begin : date) (nResult : Z) (b : buffers) (reg : registry) : io registry :=
  if nResult =? -1 then ([], Err StaleResult) else
  d <~ check (nums_out (line3 b)) BadDate ;;
  amt <~ check (dollars_out (line4 b)) BadDollars ;;
  if before_begin d Begin then (before_msg (line5 b), Err BeforeBegin) else
  desc <~ quiet (copy_description (line5 b)) DescriptionTooLong ;;
  io_ret (mkRegistry (headOnce reg) (headInterval reg) (headMonthly reg)
                     (mkBimonthly d 0 amt desc :: headBimonthly reg)).

Definition load_record_io (Begin : date) (nResult : Z) (b : buffers) (reg : registry) : io registry :=
  if tag_is "Once" (line1 b) then load_once_io b reg
  else if tag_is "Interval" (line1 b) then load_interval_io Begin b reg
  else if tag_is "Monthly" (line1 b) then load_monthly_io Begin nResult b reg
  else if tag_is "Bimonthly" (line1 b) then load_bimonthly_io Begin nResult b reg
  else (tag_msg (line1 b), Err BadTag).

Fixpoint load_records_io (Begin : date) (nResult : Z) (toks : list string) (b : buffers)
    (reg : registry) : io registry :=
  match toks with
  | t0 :: t1 :: t2 :: t3 :: t4 :: t5 :: rest =>
      let b' := read_record t0 t1 t2 t3 t4 t5 b in
      reg' <~ load_record_io Begin nResult b' reg ;;
      load_records_io Begin (rc (StringToDollars (line4 b'))) rest b' reg'
  | _ => io_ret reg
  end.

Definition GetBills_io (toks : list string) (b : buffers) : io (date * date * registry) :=
  let '(l, toks1) := read_into toks (line b) in
  Begin <~ check_or (nums_out l) BadBeginDate (str "Couldn't read Begin date for listing" ++ [newline]) ;;
  _ <~ say (str "Start: " ++ date_text Begin ++ [newline]) ;;
  let '(l', toks2) := read_into toks1 l in
  End <~ check_or (nums_out l') BadEndDate (str "Couldn't read the first date" ++ [newline]) ;;
  _ <~ say (str "End: " ++ date_text End ++ [newline]) ;;
  reg <~ load_records_io Begin (rc (StringToNums l')) toks2
           (mkBuffers l' (line1 b) (line2 b) (line3 b) (line4 b) (line5 b)) empty_registry ;;
  io_ret (Begin, End, reg).

(** What [main] itself writes: [Couldn't read data file.] when [GetBills]
    returns -1 (line 145), nothing when [strcpy_s] has aborted the process
    inside [GetBills], [End balance: ] and the [double] balance with
    [std::cout]'s default [%g] format when the loop ends (lines 173-175). *)
Definition console (r : res load_error outcome) : list ascii :=
  match r with
  | Err DescriptionTooLong => []
  | Err _ => str "Couldn't read data file." ++ [newline]
  | Ok (Finished s) => str "End balance: " ++ print_double (Balance s) ++ [newline]
  | Ok _ => []
  end.

(** [main] with its output: the loader's, then its own lines. *)
Definition main_io (toks : list string) (b : buffers) (fuel : nat) : io outcome :=
  let '(w, r) := GetBills_io toks b in
  let r' := res_bind r (fun '(Begin, End, reg) =>
              Ok (main_loop fuel End
                    (init_state Begin (Loader.headOnce reg) (Loader.headInterval reg)
                       (Loader.headMonthly reg) (Loader.headBimonthly reg)))) in
  (w ++ console r', r').

(** ** Reported failures *)

(** Text whose last line holds at least the characters [m], with no line
    break among them, and ends with [std::endl] or ["\n"]. *)
Definition ends_in_line (w : list ascii) : Prop :=
  exists w0 m, m <> [] /\ ~ In newline m /\ w = w0 ++ m ++ [newline].

(** A computation that fails, other than by the abort of [strcpy_s],
    has printed a line last. *)
Definition reported {A} (m : io A) : Prop :=
  match m with
  | (w, Err e) => e <> DescriptionTooLong -> ends_in_line w
  | (_, Ok _) => True
  end.

(** Payday and rent in whole dollars, over three days. *)
Definition dollars_file : list string :=
  ["01.01.2020"; "01.04.2020";
   ","; "Interval"; "1"; "01.01.2020"; "-35.00"; "Rent";
   ","; "Once"; "x"; "01.02.2020"; "1500.00"; "Pay"]%string.

Local Close Scope console_scope.

(** ** Erasing the output *)

Ltac io_crush := repeat (case_match; simplify_eq/=); try reflexivity.

Lemma io_bind_erase {A B} (m : io A) (f : A -> io B) :
  snd (io_bind m f) = res_bind (snd m) (fun a => snd (f a)).
Proof. destruct m as [w [a|e]]; cbn; [destruct (f a)|]; reflexivity. Qed.

Lemma load_record_io_erase Begin n b reg :
  snd (load_record_io Begin n b reg) = load_record Begin n b reg.
Proof.
  unfold load_record_io, load_record, load_once_io, load_once, load_interval_io, load_interval,
    load_monthly_io, load_monthly, load_bimonthly_io, load_bimonthly,
    check, check_or, quiet, nums_out, number_out, dollars_out.
  io_crush.
Qed.

Lemma load_records_io_erase Begin :
  forall toks n b reg, snd (load_records_io Begin n toks b reg) = load_records Begin n toks b reg.
Proof.
  fix IH 1. intros [|t0 [|t1 [|t2 [|t3 [|t4 [|t5 rest]]]]]] n b reg; try reflexivity.
  cbn [load_records_io load_records]. rewrite io_bind_erase, load_record_io_erase.
  destruct (load_record _ _ _ _); [apply IH | reflexivity].
Qed.

Lemma GetBills_io_erase toks b : snd (GetBills_io toks b) = GetBills toks b.
Proof.
  unfold GetBills_io, GetBills. destruct (read_into toks (line b)) as [l toks1].
  unfold check_or, nums_out. destruct (StringToNums l) as [Begin|]; [|reflexivity]. cbn.
  destruct (read_into toks1 l) as [l' toks2].
  destruct (StringToNums l') as [End|]; [|reflexivity]. cbn.
  match goal with |- context [load_records_io ?B ?n ?t ?bf ?r] =>
    pose proof (load_records_io_erase B t n bf r) as E; destruct (load_records_io B n t bf r) as [w [x|e]] end;
  cbn in *; rewrite <- E; reflexivity.
Qed.

(** ** A load that succeeds prints nothing but the two dates *)

Lemma load_record_io_ok Begin n b reg reg' :
  load_record Begin n b reg = Ok reg' -> load_record_io Begin n b reg = ([], Ok reg').
Proof.
  unfold load_record_io, load_record, load_once_io, load_once, load_interval_io, load_interval,
    load_monthly_io, load_monthly, load_bimonthly_io, load_bimonthly,
    check, check_or, quiet, nums_out, number_out, dollars_out.
  io_crush; intros; simplify_eq/=; reflexivity.
Qed.

Lemma load_records_io_ok Begin :
  forall toks n b reg reg', load_records Begin n toks b reg = Ok reg' ->
  load_records_io Begin n toks b reg = ([], Ok reg').
Proof.
  fix IH 1. intros [|t0 [|t1 [|t2 [|t3 [|t4 [|t5 rest]]]]]] n b reg reg' H;
    try (injection H as <-; reflexivity).
  cbn [load_records_io load_records] in *.
  destruct (load_record _ _ _ _) as [r|] eqn:E; [|discriminate]. cbn in H.
  rewrite (load_record_io_ok _ _ _ _ _ E). cbn. rewrite (IH _ _ _ _ _ H). reflexivity.
Qed.

Lemma GetBills_io_ok toks b Begin End reg :
  GetBills toks b = Ok (Begin, End, reg) ->
  GetBills_io toks b
  = (str "Start: " ++ date_text Begin ++ [newline] ++ str "End: " ++ date_text End ++ [newline],
     Ok (Begin, End, reg)).
Proof.
  unfold GetBills_io, GetBills. destruct (read_into toks (line b)) as [l toks1].
  unfold check_or, nums_out at 1. destruct (StringToNums l) as [B|]; [|discriminate]. cbn.
  destruct (read_into toks1 l) as [l' toks2]. unfold nums_out.
  destruct (StringToNums l') as [E|]; [|discriminate]. cbn.
  destruct (load_records _ _ _ _ _) as [r|] eqn:Hr; [|discriminate]. cbn. intros [= <- <- <-].
  rewrite (load_records_io_ok _ _ _ _ _ _ Hr). cbn. rewrite <- !app_assoc. reflexivity.
Qed.

(** ** Failures are reported *)

Lemma ends_in_line_str x (s : string) :
  s <> ""%string -> ~ In newline (str s) -> ends_in_line (x ++ str s ++ [newline]).
Proof. intros Hs Hn. exists x, (str s). split; [destruct s; [done | discriminate] | done]. Qed.

Lemma ends_in_line_app x w : ends_in_line w -> ends_in_line (x ++ w).
Proof. intros (w0 & m & Hm & Hn & ->). exists (x ++ w0), m. rewrite <- app_assoc. done. Qed.

Ltac line_tac :=
  rewrite ?app_nil_r;
  repeat first [ apply ends_in_line_str; [discriminate | cbn; intuition discriminate]
               | apply ends_in_line_app ].


Lemma reported_ret {A} (a : A) : reported (io_ret a).
Proof. done. Qed.

Lemma reported_quiet {A} (o : option A) : reported (quiet o DescriptionTooLong).
Proof. unfold quiet, opt_err. destruct o; cbn; done. Qed.

Lemma reported_nums l e : reported (check (nums_out l) e).
Proof. unfold check, check_or, nums_out. destruct (StringToNums l); unfold reported; cbv beta iota; [done|]. intros _. line_tac. Qed.

Lemma reported_number l e : reported (check (number_out l) e).
Proof. unfold check, check_or, number_out. destruct (StringToNumber l); unfold reported; cbv beta iota; [done|]. intros _. line_tac. Qed.

Lemma reported_dollars l e : reported (check (dollars_out l) e).
Proof. unfold check, check_or, dollars_out. destruct (dollars_amount l); unfold reported; cbv beta iota; [done|]. intros _. line_tac. Qed.

Lemma reported_before l5 : reported ((before_msg l5, Err BeforeBegin) : io registry).
Proof. intros _. unfold before_msg. line_tac. Qed.

Create HintDb console discriminated.
#[local] Hint Resolve reported_ret reported_quiet reported_nums reported_number reported_dollars
  reported_before : console.





(** Erasure: dropping the text [main_io] prints gives back [Main.main], on
    every file, every buffer contents and every fuel, errors included. *)
Lemma main_io_erase toks b fuel : snd (main_io toks b fuel) = Main.main toks b fuel.
Proof.
  unfold main_io, Main.main. pose proof (GetBills_io_erase toks b) as E.
  destruct (GetBills_io toks b) as [w r]. cbn in E |- *. rewrite E. reflexivity.
Qed.

(** C34. The console of a run whose file loads is exactly [Start: M/D/Y]
    and [End: M/D/Y] for the two dates read (each field a short without
    leading zeros), then what [main] prints itself: [End balance: ] with
    the [double] balance when the loop ends, nothing when it does not. *)
Theorem main_io_console toks b fuel Begin End reg :
  GetBills toks b = Ok (Begin, End, reg) ->
  fst (main_io toks b fuel)
  = str "Start: " ++ date_text Begin ++ [newline] ++ str "End: " ++ date_text End ++ [newline]
    ++ console (Main.main toks b fuel).
Proof.
  intros HG. unfold main_io, Main.main. rewrite (GetBills_io_ok _ _ _ _ _ HG), HG. cbn [res_bind fst].
  rewrite <- !app_assoc. reflexivity.
Qed.


(** ** Runs *)


Lemma main_io_console_witness :
  exists Begin End reg, GetBills dollars_file garbage = Ok (Begin, End, reg)
    /\ fst (main_io dollars_file garbage 3)
       = str "Start: " ++ date_text Begin ++ [newline] ++ str "End: " ++ date_text End ++ [newline]
         ++ console (Main.main dollars_file garbage 3).
Proof.
  lazymatch eval vm_compute in (GetBills dollars_file garbage) with
  | Ok (?B, ?E, ?r) =>
      exists B, E, r;
      assert (H : GetBills dollars_file garbage = Ok (B, E, r)) by (vm_compute; reflexivity);
      split; [exact H | exact (main_io_console _ _ 3 _ _ _ H)]
  end.
Defined.

Local Open Scope string_scope.

(** The whole console of a run of [dollars_file]: 1500.00 - 3 * 35.00. *)
Example console_dollars :
  fst (main_io dollars_file garbage 3)
  = Main.text_lines ["Start: 1/1/2020"; "End: 1/4/2020"; "End balance: 1395"].
Proof. vm_compute. reflexivity. Qed.

(** A record date without its leading zeros: the message of
    [StringToNums], then that of [main]; the dates were printed first. *)
Example console_bad_date :
  fst (main_io ["01.01.2020"; "01.03.2020"; ","; "Once"; "x"; "1.5.2020"; "5.00"; "Gift"] garbage 10)
  = Main.text_lines ["Start: 1/1/2020"; "End: 1/3/2020";
                "Couldn't read the date '1.5.2020'.  Use format mm.dd.yyyy";
                "Couldn't read data file."].
Proof. vm_compute. reflexivity. Qed.

(** An unknown tag. *)
Example console_bad_tag :
  fst (main_io ["01.01.2020"; "01.03.2020"; ","; "Weekly"; "x"; "01.02.2020"; "5.00"; "Gift"] garbage 10)
  = Main.text_lines ["Start: 1/1/2020"; "End: 1/3/2020";
                "Couldn't read line: Weekly-- aborting file read";
                "Couldn't read data file."].
Proof. vm_compute. reflexivity. Qed.

(** A description of 99 characters: [strcpy_s] aborts after the two
    dates were printed. *)
Example console_long_description :
  fst (main_io ["01.01.2020"; "01.03.2020"; ","; "Once"; "x"; "01.02.2020"; "5.00";
                 string_of_list_ascii (repeat "x"%char 99)] garbage 10)
  = Main.text_lines ["Start: 1/1/2020"; "End: 1/3/2020"].
Proof. vm_compute. reflexivity. Qed.

End Console.
